(** * parse_investments: value normalizer and row emitter

    A shallow embedding of [parse_investments.py]: the six cleaning functions
    ([clean_currency], [clean_percentage], [clean_date], [clean_boolean],
    [clean_integer], [clean_decimal]) and the loop that writes the SQL file.

    Python values are a tagged union, Python exceptions are an explicit
    result type, Python [float] is IEEE binary64 as specified by [SpecFloat],
    and a Python [str] is a [string] whose characters are the code points
    below 256. *)

From Stdlib Require Import ZArith List String Ascii Bool Lia Permutation.
From Stdlib Require Import Floats.SpecFloat.
Import ListNotations.

Local Open Scope Z_scope.

(** ** Exceptions and results *)

Inductive exn := ValueError | TypeError | OverflowError | KeyError.

Inductive result (A : Type) :=
| Ok (a : A)
| Raise (e : exn).
Arguments Ok {A} a.
Arguments Raise {A} e.

Definition bind {A B} (r : result A) (k : A -> result B) : result B :=
  match r with
  | Ok a => k a
  | Raise e => Raise e
  end.

Notation "'let*' x ':=' r 'in' k" := (bind r (fun x => k))
  (at level 10, x name, r at level 100, k at level 200).

(** [except (ValueError, TypeError)]: the two exception classes every
    handler of the module names. *)
Definition caught (e : exn) : bool :=
  match e with
  | ValueError | TypeError => true
  | OverflowError | KeyError => false
  end.

(** [try: return body / except (ValueError, TypeError): return handler]. *)
Definition try_except {A} (body : result A) (handler : A) : result A :=
  match body with
  | Ok a => Ok a
  | Raise e => if caught e then Ok handler else Raise e
  end.

(** ** Strings *)

Module PyStr.

Definition ord (c : ascii) : Z := Z.of_N (N_of_ascii c).

Definition is_digit (c : ascii) : bool :=
  (48 <=? ord c) && (ord c <=? 57).

Definition digit_val (c : ascii) : Z := ord c - 48.

(** [str.isspace] on one character, which is also the class [\s] of [re]
    for [str] patterns: tab to carriage return, the four separators
    0x1c-0x1f, space, NEL and the no-break space. *)
Definition unicode_isspace (c : ascii) : bool :=
  let n := ord c in
  ((9 <=? n) && (n <=? 13)) || ((28 <=? n) && (n <=? 32))
  || (n =? 133) || (n =? 160).

(** [Py_ISSPACE], the C-locale class used by [float()] on the byte string. *)
Definition c_isspace (c : ascii) : bool :=
  let n := ord c in
  ((9 <=? n) && (n <=? 13)) || (n =? 32).

Definition chr (n : Z) : ascii := ascii_of_N (Z.to_N n).

(** [str.lower] on one character: [A-Z] and the upper-case Latin-1 letters. *)
Definition lower_char (c : ascii) : ascii :=
  let n := ord c in
  if ((65 <=? n) && (n <=? 90))
     || ((192 <=? n) && (n <=? 222) && negb (n =? 215))
  then chr (n + 32) else c.

Fixpoint lower (s : string) : string :=
  match s with
  | EmptyString => EmptyString
  | String c r => String (lower_char c) (lower r)
  end.

Fixpoint lstrip (s : string) : string :=
  match s with
  | EmptyString => EmptyString
  | String c r => if unicode_isspace c then lstrip r else s
  end.

Fixpoint rstrip (s : string) : string :=
  match s with
  | EmptyString => EmptyString
  | String c r =>
      match rstrip r with
      | EmptyString => if unicode_isspace c then EmptyString
                       else String c EmptyString
      | r' => String c r'
      end
  end.

Definition strip (s : string) : string := rstrip (lstrip s).

(** [c in s] for a one-character [c]. *)
Fixpoint contains (c : ascii) (s : string) : bool :=
  match s with
  | EmptyString => false
  | String d r => Ascii.eqb c d || contains c r
  end.

(** [s.replace(old, new)] for a one-character [old]. *)
Fixpoint replace (old : ascii) (new : string) (s : string) : string :=
  match s with
  | EmptyString => EmptyString
  | String c r =>
      if Ascii.eqb c old then (new ++ replace old new r)%string
      else String c (replace old new r)
  end.

(** [re.sub(r'[,$\s]', '', s)]. *)
Fixpoint sub_comma_dollar_space (s : string) : string :=
  match s with
  | EmptyString => EmptyString
  | String c r =>
      if Ascii.eqb c ","%char || Ascii.eqb c "$"%char || unicode_isspace c
      then sub_comma_dollar_space r
      else String c (sub_comma_dollar_space r)
  end.

(** [sep.join(l)]. *)
Fixpoint join (sep : string) (l : list string) : string :=
  match l with
  | [] => EmptyString
  | [x] => x
  | x :: r => (x ++ sep ++ join sep r)%string
  end.

Fixpoint repeat_char (c : ascii) (n : nat) : string :=
  match n with
  | O => EmptyString
  | S k => String c (repeat_char c k)
  end.

End PyStr.

(** ** Floats: IEEE binary64 *)

Module PyFloat.
Import PyStr.

Definition prec : Z := 53.
Definition emax : Z := 1024.

Definition float := spec_float.

Definition emin : Z := -1074.

(** [2^j <= num / den], on integers. *)
Definition le_pow2 (j num den : Z) : bool :=
  if 0 <=? j then 2 ^ j * den <=? num else den <=? num * 2 ^ (- j).

(** The binary exponent of a positive fraction:
    [2^j <= num / den < 2^(j+1)]. *)
Definition ilog2 (num den : Z) : Z :=
  let j := Z.log2 num - Z.log2 den in
  if le_pow2 j num den then j else j - 1.

(** The binary64 float nearest to the positive fraction [num / den], ties
    to the even mantissa: the fraction is cut at the exponent [ex] of its
    last mantissa bit (not below [emin], where the subnormal floats are),
    rounded on the remainder, and carried to the next exponent when the
    mantissa reaches [2^53]; beyond the largest exponent it is infinite. *)
Definition round_ratio (sign : bool) (num den : Z) : float :=
  let ex := Z.max (ilog2 num den - 52) emin in
  let '(n, d) :=
    if 0 <=? ex then (num, den * 2 ^ ex) else (num * 2 ^ (- ex), den) in
  let q := n / d in
  let r := n mod d in
  let up := (d <? 2 * r) || ((d =? 2 * r) && Z.odd q) in
  let q' := if up then q + 1 else q in
  let '(m, e) := if q' =? 2 ^ 53 then (2 ^ 52, ex + 1) else (q', ex) in
  match m with
  | Zpos p => if e <=? emax - prec then S754_finite sign p e
              else S754_infinity sign
  | _ => S754_zero sign
  end.

(** The float that [strtod] gives for the decimal [m * 10^e10]: the
    correctly rounded value. *)
Definition round_decimal (sign : bool) (m : Z) (e10 : Z) : float :=
  match m with
  | Zpos _ =>
      if 0 <=? e10 then round_ratio sign (m * 10 ^ e10) 1
      else round_ratio sign m (10 ^ (- e10))
  | _ => S754_zero sign
  end.

(** The same value computed with the operations of the IEEE 754
    specification of the standard library, for comparison. *)
Definition round_decimal_ieee (sign : bool) (m : Z) (e10 : Z) : float :=
  match m with
  | Zpos p =>
      if 0 <=? e10
      then binary_round prec emax sign (p * Z.to_pos (10 ^ e10)) 0
      else
        let '(q, e', l) :=
          SFdiv_core_binary prec emax (Zpos p) 0 (10 ^ (- e10)) 0 in
        binary_round_aux prec emax sign q e' l
  | _ => S754_zero sign
  end.

Definition take_sign (s : string) : bool * string :=
  match s with
  | String c r =>
      if Ascii.eqb c "-"%char then (true, r)
      else if Ascii.eqb c "+"%char then (false, r)
      else (false, s)
  | EmptyString => (false, s)
  end.

(** Reads a run of decimal digits: the number read on top of [acc], how many
    digits there were, and what follows them. *)
Fixpoint digits_acc (acc : Z) (n : Z) (s : string) : Z * Z * string :=
  match s with
  | String c r =>
      if is_digit c then digits_acc (10 * acc + digit_val c) (n + 1) r
      else (acc, n, s)
  | EmptyString => (acc, n, s)
  end.

Definition is_e (c : ascii) : bool :=
  Ascii.eqb c "e"%char || Ascii.eqb c "E"%char.

(** The exponent part: consumed only when it has at least one digit. *)
Definition parse_exponent (s : string) : Z * string :=
  match s with
  | String c r =>
      if is_e c then
        let '(neg, r1) := take_sign r in
        let '(x, nx, r2) := digits_acc 0 0 r1 in
        if nx =? 0 then (0, s) else ((if neg then - x else x), r2)
      else (0, s)
  | EmptyString => (0, s)
  end.

(** [digits [. digits] [exponent]] with at least one digit: the decimal
    mantissa and exponent, and the unread rest. *)
Definition parse_decimal (s : string) : option (Z * Z * string) :=
  let '(m1, n1, r1) := digits_acc 0 0 s in
  let '(m2, n2, r2) :=
    match r1 with
    | String c r => if Ascii.eqb c "."%char then digits_acc m1 0 r
                    else (m1, 0, r1)
    | EmptyString => (m1, 0, r1)
    end in
  if n1 + n2 =? 0 then None
  else let '(x, r3) := parse_exponent r2 in Some (m2, x - n2, r3).

(** Case-insensitive prefix test against a lower-case word. *)
Fixpoint match_word (w : string) (s : string) : option string :=
  match w with
  | EmptyString => Some s
  | String a w' =>
      match s with
      | String c r => if Ascii.eqb (lower_char c) a then match_word w' r
                      else None
      | EmptyString => None
      end
  end.

Definition parse_inf_or_nan (sign : bool) (s : string)
  : option (float * string) :=
  match match_word "inf" s with
  | Some r =>
      match match_word "inity" r with
      | Some r' => Some (S754_infinity sign, r')
      | None => Some (S754_infinity sign, r)
      end
  | None =>
      match match_word "nan" s with
      | Some r => Some (S754_nan, r)
      | None => None
      end
  end.

(** [PyOS_string_to_double] on the whole string: a number or a spelled
    infinity or NaN, and nothing after it. *)
Definition string_to_double (s : string) : option float :=
  let '(sign, r) := take_sign s in
  match parse_decimal r with
  | Some (m, e10, EmptyString) => Some (round_decimal sign m e10)
  | Some _ => None
  | None =>
      match parse_inf_or_nan sign r with
      | Some (f, EmptyString) => Some f
      | _ => None
      end
  end.

(** Underscores are allowed between two digits only; they are removed. *)
Fixpoint strip_underscores (prev : ascii) (s : string) : option string :=
  match s with
  | EmptyString => if Ascii.eqb prev "_"%char then None else Some EmptyString
  | String c r =>
      if Ascii.eqb c "_"%char then
        if is_digit prev then strip_underscores c r else None
      else if Ascii.eqb prev "_"%char && negb (is_digit c) then None
      else match strip_underscores c r with
           | Some r' => Some (String c r')
           | None => None
           end
  end.

(** Non-ASCII characters: a space for white space, a digit for a decimal
    digit (none below 256), and [?] for anything else. *)
Definition to_ascii_char (c : ascii) : ascii :=
  if ord c <? 127 then c
  else if unicode_isspace c then " "%char else "?"%char.

Fixpoint to_ascii (s : string) : string :=
  match s with
  | EmptyString => EmptyString
  | String c r => String (to_ascii_char c) (to_ascii r)
  end.

Fixpoint c_lstrip (s : string) : string :=
  match s with
  | EmptyString => EmptyString
  | String c r => if c_isspace c then c_lstrip r else s
  end.

Fixpoint c_rstrip (s : string) : string :=
  match s with
  | EmptyString => EmptyString
  | String c r =>
      match c_rstrip r with
      | EmptyString => if c_isspace c then EmptyString
                       else String c EmptyString
      | r' => String c r'
      end
  end.

(** [float(s)] for a [str]: [ValueError] unless the stripped string is a
    float literal. *)
Definition float_of_string (s : string) : result float :=
  let t := c_rstrip (c_lstrip (to_ascii s)) in
  match strip_underscores "000"%char t with
  | Some u =>
      match string_to_double u with
      | Some f => Ok f
      | None => Raise ValueError
      end
  | None => Raise ValueError
  end.

(** [int(f)]: truncation toward zero; infinities and NaN have no integer. *)
Definition int_of_float (f : float) : result Z :=
  match f with
  | S754_zero _ => Ok 0
  | S754_infinity _ => Raise OverflowError
  | S754_nan => Raise ValueError
  | S754_finite s m e =>
      let a := if 0 <=? e then Z.shiftl (Zpos m) e
               else Z.shiftr (Zpos m) (- e) in
      Ok (if s then - a else a)
  end.

Definition is_nan (f : float) : bool :=
  match f with S754_nan => true | _ => false end.

Definition is_finite (f : float) : bool :=
  match f with
  | S754_zero _ | S754_finite _ _ _ => true
  | _ => false
  end.

(** *** [repr] of a float

    The shortest decimal that reads back as the same float, which is what
    [repr] produces ([_Py_dg_dtoa] in mode 0), laid out as
    [format_float_short] does for the format code [r]. *)

(** Decimal digits of a non-negative integer, most significant first. *)
Fixpoint digits_fuel (fuel : nat) (n : Z) (acc : string) : string :=
  match fuel with
  | O => acc
  | S k =>
      let acc' := String (chr (48 + n mod 10)) acc in
      if n <? 10 then acc' else digits_fuel k (n / 10) acc'
  end.

Definition digits_of_Z (n : Z) : string :=
  digits_fuel (S (Z.to_nat (Z.log2 n))) n EmptyString.

Definition Zlength (s : string) : Z := Z.of_nat (String.length s).

(** The exact value of a finite positive float as a fraction. *)
Definition fraction (m : positive) (e : Z) : Z * Z :=
  if 0 <=? e then (Z.shiftl (Zpos m) e, 1) else (Zpos m, Z.shiftl 1 (- e)).

(** The decimal point position [k] of [num / den]:
    [10^(k-1) <= num / den < 10^k]. *)
Definition decpt (num den : Z) : Z :=
  if den <=? num then Zlength (digits_of_Z (num / den))
  else 1 - Zlength (digits_of_Z ((den - 1) / num)).

(** [num / den * 10^p] as a fraction. *)
Definition scale10 (num den p : Z) : Z * Z :=
  if 0 <=? p then (num * 10 ^ p, den) else (num, den * 10 ^ (- p)).

(** The [n]-digit decimal nearest to the float that reads back as it, if
    there is one: the integer [d] of [d * 10^(k-n)]. *)
Definition candidate (f : float) (num den k : Z) (n : Z) : option Z :=
  let '(sn, sd) := scale10 num den (n - k) in
  let lo := sn / sd in
  let hi := lo + 1 in
  let back d :=
    match SFcompare (round_decimal false d (k - n)) f with
    | Some Eq => true
    | _ => false
    end in
  let twice := 2 * (sn - lo * sd) in
  match back lo, back hi with
  | true, true =>
      if twice <? sd then Some lo
      else if sd <? twice then Some hi
      else if Z.even lo then Some lo else Some hi
  | true, false => Some lo
  | false, true => Some hi
  | false, false => None
  end.

(** Tries 1, 2, ... digits until a decimal reads back as the float. The
    search ends with the exact decimal expansion of the float at the
    latest, which [max_digits] digits always hold. *)
Fixpoint shortest (f : float) (num den k : Z) (n : Z) (fuel : nat) : Z * Z :=
  match fuel with
  | O => (fst (scale10 num den (n - k)) / snd (scale10 num den (n - k)), n)
  | S g =>
      match candidate f num den k n with
      | Some d => (d, n)
      | None => shortest f num den k (n + 1) g
      end
  end.

Definition max_digits : nat := 1400.

(** The digit string without the zeros at its end. *)
Fixpoint strip_trailing_zeros (s : string) : string :=
  match s with
  | EmptyString => EmptyString
  | String c r =>
      match strip_trailing_zeros r with
      | EmptyString => if Ascii.eqb c "0"%char then EmptyString
                       else String c EmptyString
      | r' => String c r'
      end
  end.

(** The digit string and decimal point position that [_Py_dg_dtoa] returns
    in mode 0. *)
Definition dtoa (m : positive) (e : Z) : string * Z :=
  let '(num, den) := fraction m e in
  let k := decpt num den in
  let '(d, n) := shortest (S754_finite false m e) num den k 1 max_digits in
  let ds := digits_of_Z d in
  (strip_trailing_zeros ds, k + (Zlength ds - n)).

(** [s[:n]] and [s[n:]]. *)
Fixpoint take (n : nat) (s : string) : string :=
  match n, s with
  | S k, String c r => String c (take k r)
  | _, _ => EmptyString
  end.

Fixpoint drop (n : nat) (s : string) : string :=
  match n, s with
  | S k, String c r => drop k r
  | _, _ => s
  end.

(** [format_float_short] with format code [r] and [Py_DTSF_ADD_DOT_0]. *)
Definition format_short (ds : string) (k : Z) : string :=
  let len := Zlength ds in
  if (k <=? -4) || (16 <? k) then
    let x := k - 1 in
    let xs := digits_of_Z (Z.abs x) in
    let xs := if Z.abs x <? 10 then String "0"%char xs else xs in
    let mant :=
      match ds with
      | String c EmptyString => ds
      | String c r => String c (String "."%char r)
      | EmptyString => ds
      end in
    (mant ++ "e" ++ (if (x <? 0)%Z then "-" else "+") ++ xs)%string
  else if k <=? 0 then
    ("0." ++ repeat_char "0"%char (Z.to_nat (- k)) ++ ds)%string
  else if k <? len then
    (take (Z.to_nat k) ds ++ "." ++ drop (Z.to_nat k) ds)%string
  else
    (ds ++ repeat_char "0"%char (Z.to_nat (k - len)) ++ ".0")%string.

Definition float_repr (f : float) : string :=
  match f with
  | S754_nan => "nan"
  | S754_infinity s => if s then "-inf" else "inf"
  | S754_zero s => if s then "-0.0" else "0.0"
  | S754_finite s m e =>
      let '(ds, k) := dtoa m e in
      ((if s then "-" else "") ++ format_short ds k)%string
  end.

(** [str(n)] for an [int]. *)
Definition int_repr (n : Z) : string :=
  if n <? 0 then String "-"%char (digits_of_Z (- n)) else digits_of_Z n.

End PyFloat.

(** ** Calendar dates and [datetime.strptime] *)

Module PyDate.
Import PyStr PyFloat.

Record date := mkdate { year : Z; month : Z; day : Z }.

Definition is_leap (y : Z) : bool :=
  ((y mod 4 =? 0) && negb (y mod 100 =? 0)) || (y mod 400 =? 0).

Definition days_in_month (y m : Z) : Z :=
  if m =? 2 then (if is_leap y then 29 else 28)
  else if (m =? 4) || (m =? 6) || (m =? 9) || (m =? 11) then 30
  else 31.

(** What the [date] constructor accepts: years 1 to 9999. *)
Definition valid_date (y m d : Z) : bool :=
  (1 <=? y) && (y <=? 9999) && (1 <=? m) && (m <=? 12)
  && (1 <=? d) && (d <=? days_in_month y m).

(** The pieces of a format string: the four directives the program uses and
    literal characters. *)
Inductive item := Dir_m | Dir_d | Dir_Y | Dir_y | Lit (c : ascii).

Definition cls := ascii -> bool.

Definition one (c : ascii) : cls := fun d => Ascii.eqb c d.
Definition range (a b : ascii) : cls :=
  fun d => (ord a <=? ord d) && (ord d <=? ord b).

(** The regular expression of each directive in [_strptime.TimeRE], as its
    alternatives in order, each a sequence of character classes. *)
Definition regex_of (i : item) : list (list cls) :=
  match i with
  | Dir_m => [ [one "1"; range "0" "2"]; [one "0"; range "1" "9"];
               [range "1" "9"] ]
  | Dir_d => [ [one "3"; range "0" "1"]; [range "1" "2"; is_digit];
               [one "0"; range "1" "9"]; [range "1" "9"];
               [one " "; range "1" "9"] ]
  | Dir_Y => [ [is_digit; is_digit; is_digit; is_digit] ]
  | Dir_y => [ [is_digit; is_digit] ]
  | Lit c => [ [one c] ]
  end.

(** Matches a sequence of classes at the start of [s]: the matched text and
    the rest. *)
Fixpoint match_seq (cs : list cls) (s : string) : option (string * string) :=
  match cs with
  | [] => Some (EmptyString, s)
  | p :: cs' =>
      match s with
      | String c r =>
          if p c then
            match match_seq cs' r with
            | Some (t, r') => Some (String c t, r')
            | None => None
            end
          else None
      | EmptyString => None
      end
  end.

(** [re.match] of the compiled format: the first match in the order a
    backtracking matcher finds them, as the text of each piece and the
    unmatched rest. *)
Fixpoint match_items (fmt : list item) (s : string)
  : option (list (item * string) * string) :=
  match fmt with
  | [] => Some ([], s)
  | i :: fmt' =>
      (fix alts (l : list (list cls)) :=
         match l with
         | [] => None
         | a :: l' =>
             match match_seq a s with
             | Some (t, r) =>
                 match match_items fmt' r with
                 | Some (fs, r') => Some ((i, t) :: fs, r')
                 | None => alts l'
                 end
             | None => alts l'
             end
         end) (regex_of i)
  end.

(** [int(t)] for the text of a group: digits after optional blanks. *)
Definition group_int (t : string) : Z :=
  let '(n, _, _) := digits_acc 0 0 (lstrip t) in n.

(** The year, month and day the groups give, from the defaults 1900-01-01;
    a two-digit year up to 68 is in the 2000s, the others in the 1900s. *)
Fixpoint fields (fs : list (item * string)) (ymd : Z * Z * Z) : Z * Z * Z :=
  match fs with
  | [] => ymd
  | (i, t) :: r =>
      let '(y, m, d) := ymd in
      let n := group_int t in
      fields r
        match i with
        | Dir_Y => (n, m, d)
        | Dir_y => ((if n <=? 68 then n + 2000 else n + 1900), m, d)
        | Dir_m => (y, n, d)
        | Dir_d => (y, m, n)
        | Lit _ => ymd
        end
  end.

(** [datetime.strptime(s, fmt).date()]: [ValueError] when the format does
    not match, when text remains after the match, or when the day does not
    exist. *)
Definition strptime (s : string) (fmt : list item) : result date :=
  match match_items fmt s with
  | Some (fs, EmptyString) =>
      let '(y, m, d) := fields fs (1900, 1, 1) in
      if valid_date y m d then Ok (mkdate y m d) else Raise ValueError
  | _ => Raise ValueError
  end.

(** The digits of [n] padded with zeros on the left to [w] characters. *)
Definition zero_pad (w : nat) (n : Z) : string :=
  let ds := digits_of_Z n in
  (repeat_char "0" (w - String.length ds) ++ ds)%string.

(** [str(d)]: the ISO form [YYYY-MM-DD]. *)
Definition isoformat (d : date) : string :=
  (zero_pad 4 (year d) ++ "-" ++ zero_pad 2 (month d) ++ "-"
     ++ zero_pad 2 (day d))%string.

(** ['%m/%d/%Y'], ['%m/%d/%y'] and ['%Y-%m-%d']. *)
Definition fmt_mdY : list item := [Dir_m; Lit "/"; Dir_d; Lit "/"; Dir_Y].
Definition fmt_mdy : list item := [Dir_m; Lit "/"; Dir_d; Lit "/"; Dir_y].
Definition fmt_Ymd : list item := [Dir_Y; Lit "-"; Dir_m; Lit "-"; Dir_d].

End PyDate.

Import PyStr PyFloat PyDate.
Local Open Scope string_scope.
Local Open Scope Z_scope.

(** ** Python values *)

(** What a cell or a cleaned value can be: [None], a [str], a [float], an
    [int], a [bool] or a [date]. A missing cell of a data frame is the float
    NaN. *)
Inductive value :=
| VNone
| VStr (s : string)
| VFloat (f : float)
| VInt (n : Z)
| VBool (b : bool)
| VDate (d : date).

Definition nan : value := VFloat S754_nan.

(** [pd.isna(value)] on a scalar. *)
Definition isna (v : value) : bool :=
  match v with
  | VNone => true
  | VFloat f => is_nan f
  | _ => false
  end.

(** [value == '']. *)
Definition eq_empty (v : value) : bool :=
  match v with
  | VStr EmptyString => true
  | _ => false
  end.

Definition isinstance_str (v : value) : bool :=
  match v with
  | VStr _ => true
  | _ => false
  end.

(** [str(value)]. *)
Definition py_str (v : value) : string :=
  match v with
  | VNone => "None"
  | VStr s => s
  | VFloat f => float_repr f
  | VInt n => int_repr n
  | VBool b => if b then "True" else "False"
  | VDate d => isoformat d
  end.

Definition upper_char (c : ascii) : ascii :=
  let n := ord c in
  if ((97 <=? n) && (n <=? 122)) then chr (n - 32) else c.

(** [str.upper], on the ASCII letters: it is applied to [True] and [False]
    only. *)
Fixpoint upper (s : string) : string :=
  match s with
  | EmptyString => EmptyString
  | String c r => String (upper_char c) (upper r)
  end.

(** [x in l] for a list of strings. *)
Definition in_list (x : string) (l : list string) : bool :=
  existsb (String.eqb x) l.

(** ** The cleaning functions *)

(** The test every cleaning function starts with:
    [pd.isna(value) or value == '']. *)
Definition blank (v : value) : bool := isna v || eq_empty v.

Definition clean_currency (v : value) : result value :=
  if blank v then Ok VNone
  else
    match v with
    | VStr s =>
        let cleaned := sub_comma_dollar_space s in
        let cleaned :=
          if contains "(" cleaned && contains ")" cleaned
          then replace ")" "" (replace "(" "-" cleaned)
          else cleaned in
        try_except (let* f := float_of_string cleaned in Ok (VFloat f)) VNone
    | _ => Ok v
    end.

Definition clean_percentage (v : value) : result value :=
  if blank v then Ok VNone
  else
    match v with
    | VStr s =>
        if contains "%" s
        then try_except
               (let* f := float_of_string (replace "%" "" s) in Ok (VFloat f))
               VNone
        else Ok v
    | _ => Ok v
    end.

(** The loop over the formats: [ValueError] moves on to the next format. *)
Fixpoint try_formats (s : string) (fmts : list (list item)) : result value :=
  match fmts with
  | [] => Ok VNone
  | fmt :: r =>
      match strptime s fmt with
      | Ok d => Ok (VDate d)
      | Raise ValueError => try_formats s r
      | Raise e => Raise e
      end
  end.

Definition date_formats : list (list item) := [fmt_mdY; fmt_mdy; fmt_Ymd].

Definition clean_date (v : value) : result value :=
  if blank v then Ok VNone
  else
    match v with
    | VStr s => try_formats s date_formats
    | _ => Ok VNone
    end.

Definition clean_boolean (v : value) : result value :=
  if blank v then Ok VNone
  else
    match v with
    | VStr s =>
        let val := strip (lower s) in
        if in_list val ["yes"; "true"; "1"] then Ok (VBool true)
        else if in_list val ["no"; "false"; "0"] then Ok (VBool false)
        else Ok VNone
    | _ => Ok VNone
    end.

Definition clean_integer (v : value) : result value :=
  if blank v then Ok VNone
  else
    try_except
      (let* f := float_of_string (py_str v) in
       let* n := int_of_float f in
       Ok (VInt n))
      VNone.

Definition clean_decimal (v : value) : result value :=
  if blank v then Ok VNone
  else
    try_except (let* f := float_of_string (py_str v) in Ok (VFloat f)) VNone.

(** ** The row emitter *)

(** The dictionary [column_mapping], in the order of its entries. *)
Definition column_mapping : list (string * string) :=
  [ ("Asset ID + Name", "asset_id_plus_name");
    ("Asset ID", "asset_id");
    ("Portfolio Name", "portfolio_name");
    ("Name - Reducd", "name_reduced");
    ("Name - CHFA", "name_chfa");
    ("Address", "address");
    ("City", "city");
    ("State", "state");
    ("ZIP Code", "zip_code");
    ("Address - Full", "address_full");
    ("Unit Total", "unit_total");
    ("Units", "units");
    ("Comm Units", "comm_units");
    ("Beds", "beds");
    ("Baths", "baths");
    ("Half Baths", "half_baths");
    ("Rooms", "rooms");
    ("Property Type", "property_type");
    ("Scope of Work - Orig", "scope_of_work");
    ("New Const?", "new_construction");
    ("Sect 8 Units?", "section_8_units");
    ("PBV", "pbv");
    ("Leasing Status - Initial", "leasing_status");
    ("Owner LLC", "owner_llc");
    ("Manager", "manager");
    ("Owner LLC co", "owner_llc_co");
    ("EIN", "ein");
    ("Parcel ID", "parcel_id");
    ("Census Tract", "census_tract");
    ("Poverty - % Below", "poverty_pct_below");
    ("Qualified Census Tract", "qualified_census_tract");
    ("Walkscore", "walkscore");
    ("Proforma Revenue", "proforma_revenue");
    ("EGI", "egi");
    ("NOI", "noi");
    ("Going-in NOI", "going_in_noi");
    ("Going-In Cap Rate", "going_in_cap_rate");
    ("Proforma Operating Expenses", "proforma_operating_expenses");
    ("Exp - Tax - Prop", "exp_tax_prop");
    ("Exp - Prop Ins.", "exp_prop_ins");
    ("Exp - Utilities", "exp_utilities");
    ("Exp - R&M", "exp_rm");
    ("Exp - Payroll", "exp_payroll");
    ("Exp - Garbage", "exp_garbage");
    ("Exp - PM Fee + Admin", "exp_pm_fee_admin");
    ("Purchase Price", "purchase_price");
    ("Down Payment", "down_payment");
    ("APPRAISED VALUE", "appraised_value");
    ("Date Of Last Appraisal", "date_of_last_appraisal");
    ("Appraisal Firm", "appraisal_firm");
    ("Assessed Value", "assessed_value");
    ("Assessment Date", "assessment_date");
    ("Debt1 - Initial", "debt1_initial");
    ("Debt1 - Int Rate", "debt1_int_rate");
    ("Maturity Date", "maturity_date");
    ("LTV Ratio", "ltv_ratio");
    ("DSV Ratio", "dsv_ratio");
    ("Debt Service", "debt_service");
    ("Mortgage Holder", "mortgage_holder");
    ("Built", "built");
    ("Renovated - Last", "renovated_last");
    ("Building SF", "building_sf");
    ("Building SF - Finished", "building_sf_finished");
    ("Unit SF - Avg", "unit_sf_avg");
    ("Land SF", "land_sf");
    ("Stories", "stories");
    ("Roof Type", "roof_type");
    ("Roof Cover", "roof_cover");
    ("Heat Fuel", "heat_fuel");
    ("Heat Type", "heat_type");
    ("Heat Sys Count", "heat_sys_count");
    ("Cooking Fuel", "cooking_fuel");
    ("AC Type - Marketing", "ac_type");
    ("AC Included", "ac_included");
    ("Parking Spots Count", "parking_spots_count");
    ("BR - 0", "br_0");
    ("BR - 1", "br_1");
    ("BR - 2", "br_2");
    ("BR - 3", "br_3");
    ("BR - 4", "br_4");
    ("Electric - Utility Company", "electric_utility_company");
    ("Elect Account", "electric_account");
    ("Gas - Utility Company", "gas_utility_company");
    ("Gas Account", "gas_account") ].

Definition currency_cols : list string :=
  [ "proforma_revenue"; "egi"; "noi"; "going_in_noi";
    "proforma_operating_expenses"; "exp_tax_prop"; "exp_prop_ins";
    "exp_utilities"; "exp_rm"; "exp_payroll"; "exp_garbage";
    "exp_pm_fee_admin"; "purchase_price"; "down_payment"; "appraised_value";
    "assessed_value"; "debt1_initial"; "debt_service" ].

Definition percentage_cols : list string :=
  [ "going_in_cap_rate"; "debt1_int_rate"; "ltv_ratio"; "dsv_ratio";
    "poverty_pct_below" ].

Definition date_cols : list string :=
  [ "date_of_last_appraisal"; "assessment_date"; "maturity_date" ].

Definition boolean_cols : list string :=
  [ "new_construction"; "section_8_units"; "ac_included" ].

Definition integer_cols : list string :=
  [ "unit_total"; "units"; "comm_units"; "beds"; "half_baths"; "walkscore";
    "built"; "renovated_last"; "building_sf"; "building_sf_finished";
    "unit_sf_avg"; "land_sf"; "stories"; "heat_sys_count"; "br_0"; "br_1";
    "br_2"; "br_3"; "br_4" ].

Definition decimal_cols : list string :=
  [ "baths"; "rooms"; "parking_spots_count" ].

(** [str(cleaned_val) if cleaned_val is not None else 'NULL']. *)
Definition str_or_null (v : value) : string :=
  match v with
  | VNone => "NULL"
  | _ => py_str v
  end.

Definition quote (s : string) : string := "'" ++ s ++ "'".

(** The text appended to [values] for one cell of the column [sql_col]. *)
Definition render_value (sql_col : string) (v : value) : result string :=
  if blank v then Ok "NULL"
  else if in_list sql_col currency_cols then
    let* c := clean_currency v in Ok (str_or_null c)
  else if in_list sql_col percentage_cols then
    let* c := clean_percentage v in Ok (str_or_null c)
  else if in_list sql_col date_cols then
    let* c := clean_date v in
    Ok (match c with VNone => "NULL" | _ => quote (py_str c) end)
  else if in_list sql_col boolean_cols then
    let* c := clean_boolean v in
    Ok (match c with VNone => "NULL" | _ => upper (py_str c) end)
  else if in_list sql_col integer_cols then
    let* c := clean_integer v in Ok (str_or_null c)
  else if in_list sql_col decimal_cols then
    let* c := clean_decimal v in Ok (str_or_null c)
  else
    Ok (quote (replace "'" "''" (py_str v))).

(** The data frame [clean_df]: its column labels and its rows, each row
    holding one cell per label in the order of the labels. Labels are looked
    up by their first occurrence; a row that is shorter than the labels has
    NaN in the cells it lacks, as the CSV reader fills them. *)
Record frame := mkframe { columns : list string; rows : list (list value) }.

(** [row[label]] for a label of [cols]. *)
Fixpoint cell (cols : list string) (row : list value) (label : string)
  : value :=
  match cols with
  | [] => nan
  | c :: cs =>
      if String.eqb c label
      then match row with v :: _ => v | [] => nan end
      else cell cs (List.tl row) label
  end.

(** The inner loop over [column_mapping]: the lists [columns] and [values]
    of one row. *)
Fixpoint row_lists (cols : list string) (row : list value)
  (mapping : list (string * string)) : result (list string * list string) :=
  match mapping with
  | [] => Ok ([], [])
  | (excel_col, sql_col) :: rest =>
      if in_list excel_col cols then
        let* v := render_value sql_col (cell cols row excel_col) in
        let* cv := row_lists cols row rest in
        Ok (sql_col :: fst cv, v :: snd cv)
      else row_lists cols row rest
  end.

(** What has been written to the output file: plain text, or the INSERT
    statement of a row with its two lists. *)
Inductive written :=
| WText (s : string)
| WInsert (cols vals : list string).

Definition newline : string := String (chr 10) EmptyString.

Definition render (w : written) : string :=
  match w with
  | WText s => s
  | WInsert cols vals =>
      "INSERT INTO public.investments (" ++ join ", " cols ++ ") VALUES ("
        ++ join ", " vals ++ ");" ++ newline
  end.

Definition has_key (cols : list string) (row : list value) : bool :=
  let k := cell cols row "Asset ID" in
  negb (blank k).

(** The body of the loop over the rows: nothing for a row without its key,
    otherwise the row's INSERT statement (when it has any column). *)
Definition row_statement (cols : list string) (row : list value)
  : result (list written) :=
  if negb (has_key cols row) then Ok []
  else
    let* cv := row_lists cols row column_mapping in
    match fst cv with
    | [] => Ok []
    | _ => Ok [WInsert (fst cv) (snd cv)]
    end.

(** The loop over the rows: what is written, and the exception that stopped
    the loop if one did. *)
Fixpoint write_rows (cols : list string) (rs : list (list value))
  : list written * option exn :=
  match rs with
  | [] => ([], None)
  | r :: rs' =>
      match row_statement cols r with
      | Raise e => ([], Some e)
      | Ok ws =>
          let '(out, st) := write_rows cols rs' in ((ws ++ out)%list, st)
      end
  end.

Definition header_text : string :=
  "-- Insert statements for investments table" ++ newline ++ newline.
Definition trailer_comment : string :=
  newline ++ "-- Update timestamps" ++ newline.
Definition update_statement : string :=
  "UPDATE public.investments SET updated_at = NOW();" ++ newline.

(** [dropna(how='all')] and the filter on the key column. *)
Definition clean_rows (df : frame) : list (list value) :=
  filter (has_key (columns df))
    (filter (fun r => negb (forallb isna r)) (rows df)).

(** The program from the data frame on: the contents of
    [insert_investments.sql] and the exception that ended the run, if any.
    Without a column [Asset ID] the filter raises [KeyError] before the file
    is opened. *)
Definition generate (df : frame) : list written * option exn :=
  if negb (in_list "Asset ID" (columns df)) then ([], Some KeyError)
  else
    match write_rows (columns df) (clean_rows df) with
    | (out, None) =>
        ((WText header_text :: out
            ++ [WText trailer_comment; WText update_statement])%list, None)
    | (out, Some e) => (WText header_text :: out, Some e)
    end.

Definition file_text (ws : list written) : string :=
  String.concat "" (map render ws).

(** * Definitions for the statements *)

(** The exact value of a float as a fraction: [f] is [num / den]. *)
Definition represents (f : float) (num den : Z) : Prop :=
  match f with
  | S754_zero _ => num = 0
  | S754_finite s m e =>
      let a := if s then Zneg m else Zpos m in
      if 0 <=? e then a * 2 ^ e * den = num else a * den = num * 2 ^ (- e)
  | _ => False
  end.

(** The currency conversion as the specification words it: a cleaned string
    that is wrapped in parentheses has them replaced by a leading minus
    sign; any other string is parsed as it is. *)
Fixpoint spec_drop_closing (s : string) : option string :=
  match s with
  | EmptyString => None
  | String c EmptyString =>
      if Ascii.eqb c ")" then Some EmptyString else None
  | String c r =>
      match spec_drop_closing r with
      | Some r' => Some (String c r')
      | None => None
      end
  end.

Definition spec_wrapped (s : string) : option string :=
  match s with
  | String c r => if Ascii.eqb c "(" then spec_drop_closing r else None
  | EmptyString => None
  end.

Definition spec_clean_currency (v : value) : result value :=
  if blank v then Ok VNone
  else
    match v with
    | VStr s =>
        let cleaned := sub_comma_dollar_space s in
        let cleaned :=
          match spec_wrapped cleaned with
          | Some inner => "-" ++ inner
          | None => cleaned
          end in
        Ok (match float_of_string cleaned with
            | Ok f => VFloat f
            | Raise _ => VNone
            end)
    | _ => Ok v
    end.

(** The first format that reads the string, in the order month/day/year
    with four digits, month/day/year with two digits, year-month-day. *)
Definition first_date (s : string) : value :=
  match strptime s fmt_mdY with
  | Ok d => VDate d
  | Raise _ =>
      match strptime s fmt_mdy with
      | Ok d => VDate d
      | Raise _ =>
          match strptime s fmt_Ymd with
          | Ok d => VDate d
          | Raise _ => VNone
          end
      end
  end.

(** The signed numerator of a finite float over the power of two [2^(-e)]
    (over one when [e] is not negative). *)
Definition signed (s : bool) (a : Z) : Z := if s then - a else a.

(** What [int(float(str(value)))] gives from the float that was read. *)
Definition integer_of (f : float) : result value :=
  match f with
  | S754_zero _ => Ok (VInt 0)
  | S754_finite s m e =>
      Ok (VInt (if 0 <=? e then signed s (Zpos m) * 2 ^ e
                else signed s (Zpos m) ÷ 2 ^ (- e)))
  | S754_nan => Ok VNone
  | S754_infinity _ => Raise OverflowError
  end.

(** The entries of [column_mapping] whose source column is in the frame. *)
Definition present (cols : list string) (e : string * string) : bool :=
  in_list (fst e) cols.

Definition is_insert (w : written) : bool :=
  match w with
  | WInsert _ _ => true
  | WText _ => false
  end.


Definition with_sign (s : bool) (f : float) : float :=
  match f with
  | S754_zero _ => S754_zero s
  | S754_infinity _ => S754_infinity s
  | S754_nan => S754_nan
  | S754_finite _ m e => S754_finite s m e
  end.

Fixpoint all_digits (s : string) : bool :=
  match s with
  | EmptyString => true
  | String c r => is_digit c && all_digits r
  end.

(** The number that a digit string adds to [acc]. *)
Fixpoint dnum (acc : Z) (s : string) : Z :=
  match s with
  | EmptyString => acc
  | String c r => dnum (10 * acc + digit_val c) r
  end.

Definition not_digit_start (s : string) : bool :=
  match s with
  | EmptyString => true
  | String c _ => negb (is_digit c)
  end.

(** The characters of a float literal. *)
Definition plain_char (c : ascii) : bool :=
  is_digit c || Ascii.eqb c "." || Ascii.eqb c "e" || Ascii.eqb c "+"
  || Ascii.eqb c "-".

Fixpoint all_plain (s : string) : bool :=
  match s with
  | EmptyString => true
  | String c r => plain_char c && all_plain r
  end.

Definition digit_start (s : string) : bool :=
  match s with
  | String c _ => is_digit c
  | EmptyString => false
  end.

(** The exponent part that [repr] writes. *)
Definition exponent_text (x : Z) : string :=
  "e" ++ (if x <? 0 then "-" else "+")
      ++ (if Z.abs x <? 10 then String "0" (digits_of_Z (Z.abs x))
          else digits_of_Z (Z.abs x)).

Definition not_digit_dot_start (s : string) : bool :=
  match s with
  | EmptyString => true
  | String c _ => negb (is_digit c) && negb (Ascii.eqb c ".")
  end.

(** The fraction cut at the exponent [ex], as [round_ratio] cuts it. *)
Definition cut (num den ex : Z) : Z * Z :=
  if 0 <=? ex then (num, den * 2 ^ ex) else (num * 2 ^ (- ex), den).

Definition zrange (lo : Z) (n : nat) : list Z :=
  map (fun i => lo + Z.of_nat i) (seq 0 n).

(** The month and day of an ISO date are matched and read back. *)
Definition month_day_ok (m d : Z) : bool :=
  match match_items [Lit "-"; Dir_m; Lit "-"; Dir_d]
          ("-" ++ zero_pad 2 m ++ "-" ++ zero_pad 2 d) with
  | Some ([(Lit _, _); (Dir_m, tm); (Lit _, _); (Dir_d, td)], EmptyString) =>
      (group_int tm =? m) && (group_int td =? d)
  | _ => false
  end.

(** The kinds of typed value that are written as a bare or quoted literal. *)
Inductive kind := KDecimal | KInteger | KDate | KBoolean.

(** The conversion function of each kind. *)
Definition convert (k : kind) : value -> result value :=
  match k with
  | KDecimal => clean_decimal
  | KInteger => clean_integer
  | KDate => clean_date
  | KBoolean => clean_boolean
  end.

(** The SQL literal that the emitter writes for a typed value of each kind:
    [str(cleaned_val)] for numbers, that text in quotes for a date, and in
    upper case for a boolean. *)
Definition literal (k : kind) (t : value) : string :=
  match k with
  | KDecimal | KInteger => py_str t
  | KDate => quote (py_str t)
  | KBoolean => upper (py_str t)
  end.

Fixpoint drop_last (s : string) : string :=
  match s with
  | EmptyString => EmptyString
  | String c EmptyString => EmptyString
  | String c r => String c (drop_last r)
  end.

(** The text between the quotes of a quoted literal. *)
Definition unquote (lit : string) : string :=
  match lit with
  | String c r => if Ascii.eqb c "'" then drop_last r else lit
  | EmptyString => lit
  end.

(** Reading a literal back: the conversion function of the kind applied to
    the text of the literal, a date literal without its quotes. The reader
    of the database is not part of the program. *)
Definition read_back (k : kind) (lit : string) : result value :=
  match k with
  | KDate => convert k (VStr (unquote lit))
  | _ => convert k (VStr lit)
  end.

Definition date_eqb (a b : date) : bool :=
  (year a =? year b) && (month a =? month b) && (day a =? day b).

(** Equivalence of typed values: numeric equality of floats (which NaN does
    not have with itself) and of integers, equality of dates and of
    booleans. *)
Definition equivalent (a b : value) : bool :=
  match a, b with
  | VFloat x, VFloat y => SFeqb x y
  | VInt x, VInt y => x =? y
  | VDate x, VDate y => date_eqb x y
  | VBool x, VBool y => Bool.eqb x y
  | _, _ => false
  end.

(** The typed values of each kind: the binary64 floats except NaN, the
    integer parts of binary64 floats, the calendar dates, the booleans. *)
Definition typed_value (k : kind) (t : value) : Prop :=
  match k, t with
  | KDecimal, VFloat f => valid_binary prec emax f = true /\ is_nan f = false
  | KInteger, VInt n =>
      exists f, valid_binary prec emax f = true /\ int_of_float f = Ok n
  | KDate, VDate d => valid_date (year d) (month d) (day d) = true
  | KBoolean, VBool _ => True
  | _, _ => False
  end.

(** Decimals whose two roundings are compared. *)
Definition rounding_samples : list (Z * Z) :=
  [ (525, -2); (1, -1); (1, 23); (1, 22); (9007199254740993, 0); (3, -1);
    (123456789012345678, 0); (45035996273704965, -1);
    (45035996273704975, -1); (1, -5); (7, 0); (429, -1); (120050, -2);
    (17976931348623157, 292); (17976931348623159, 292); (49, -325) ].

Definition same_float (a b : float) : bool :=
  match a, b with
  | S754_zero s, S754_zero s' => Bool.eqb s s'
  | S754_infinity s, S754_infinity s' => Bool.eqb s s'
  | S754_nan, S754_nan => true
  | S754_finite s m e, S754_finite s' m' e' =>
      Bool.eqb s s' && Pos.eqb m m' && (e =? e')
  | _, _ => false
  end.

(** ** Definitions for the further properties *)

(** Every character of the string is in the class. *)
Fixpoint all_chars (p : ascii -> bool) (s : string) : bool :=
  match s with
  | EmptyString => true
  | String c r => p c && all_chars p r
  end.

(** The string starts with a sign. *)
Definition sign_start (s : string) : bool :=
  match s with
  | String c _ => Ascii.eqb c "-" || Ascii.eqb c "+"
  | EmptyString => false
  end.

(** The result of a conversion with the sign of its float changed. *)
Definition negated (r : result value) : result value :=
  match r with
  | Ok (VFloat f) => Ok (VFloat (SFopp f))
  | _ => r
  end.

(** The characters a float literal is made of: digits, the signs, the point,
    the underscore, C white space and the letters of [e], [inf], [infinity]
    and [nan] in either case. *)
Definition float_char (c : ascii) : bool :=
  is_digit c || Ascii.eqb c "." || Ascii.eqb c "+" || Ascii.eqb c "-"
  || Ascii.eqb c "_" || c_isspace c || contains (lower_char c) "einftya".

(** A non-empty run of decimal digits. *)
Definition digit_text (s : string) : bool :=
  all_digits s && negb (String.eqb s "").

(** An integer literal: digits after an optional minus sign. *)
Definition integer_text (s : string) : bool :=
  match s with
  | String c r => if Ascii.eqb c "-" then digit_text r else digit_text s
  | EmptyString => false
  end.

(** [w] decimal digits. *)
Definition digits_wide (w : Z) (s : string) : bool :=
  all_digits s && (Zlength s =? w).

(** The formats agree on [s]: two of them that read it read the same date. *)
Definition formats_agree (s : string) (l : list (list item)) : Prop :=
  forall f g d1 d2, In f l -> In g l ->
    strptime s f = Ok d1 -> strptime s g = Ok d2 -> d1 = d2.

(** The columns with a conversion of their own; the others are text. *)
Definition typed_cols : list string :=
  (currency_cols ++ percentage_cols ++ date_cols ++ boolean_cols
     ++ integer_cols ++ decimal_cols)%list.

(** The quotes of the string come in pairs. *)
Fixpoint quotes_paired (s : string) : bool :=
  match s with
  | EmptyString => true
  | String c r =>
      if Ascii.eqb c "'" then
        match r with
        | String d r' => Ascii.eqb d "'" && quotes_paired r'
        | EmptyString => false
        end
      else quotes_paired r
  end.

(** No string of the list occurs in it twice. *)
Fixpoint distinctb (l : list string) : bool :=
  match l with
  | [] => true
  | x :: r => negb (in_list x r) && distinctb r
  end.

(** A frame with three rows, the second without its key. *)
Definition three_rows : frame :=
  mkframe ["Asset ID"; "Units"; "City"]
    [ [VStr "A1"; VStr "4"; VStr "Hartford"];
      [nan; VStr "7"; VStr "Nowhere"];
      [VStr "A3"; VStr "6.5"; nan] ].

(** The sheet of [three_rows] with its columns in another order. *)
Definition three_rows_reordered : frame :=
  mkframe ["City"; "Units"; "Asset ID"]
    [ [VStr "Hartford"; VStr "4"; VStr "A1"];
      [nan; VStr "6.5"; VStr "A3"] ].

(** The frame of a run that an infinite unit count stops. *)
Definition overflow_rows : frame :=
  mkframe ["Asset ID"; "Units"]
    [ [VStr "A1"; VStr "4"]; [VStr "A2"; VStr "inf"]; [VStr "A3"; VStr "6"] ].

(** * Properties *)

(** ** Helper lemmas *)

Lemma blank_cases v :
  blank v = true <-> v = VNone \/ v = nan \/ v = VStr "".
Proof.
  unfold blank, nan. split.
  - destruct v as [|s|f|n|b|d]; simpl; try discriminate; auto.
    + destruct s; simpl; try discriminate; auto.
    + rewrite orb_false_r. destruct f; simpl; try discriminate; auto.
  - intros [-> | [-> | ->]]; reflexivity.
Qed.

Lemma float_of_string_raises s e :
  float_of_string s = Raise e -> e = ValueError.
Proof.
  unfold float_of_string.
  destruct (strip_underscores _ _) as [u|]; [|congruence].
  destruct (string_to_double u); congruence.
Qed.

(** A handler around [float()] always returns. *)
Lemma try_float s :
  try_except (let* f := float_of_string s in Ok (VFloat f)) VNone
  = Ok (match float_of_string s with
        | Ok f => VFloat f
        | Raise _ => VNone
        end).
Proof.
  destruct (float_of_string s) as [f|e] eqn:E; simpl; [reflexivity|].
  apply float_of_string_raises in E. subst e. reflexivity.
Qed.

Lemma contains_replace_empty c s :
  contains c (replace c "" s) = false.
Proof.
  induction s as [|d r IH]; simpl; [reflexivity|].
  destruct (Ascii.eqb_spec d c) as [->|Hne]; simpl; [exact IH|].
  rewrite IH, orb_false_r. apply Ascii.eqb_neq. congruence.
Qed.

Lemma replace_absent c new s :
  contains c s = false -> replace c new s = s.
Proof.
  induction s as [|d r IH]; simpl; [reflexivity|].
  intros H. apply orb_false_elim in H as [H1 H2].
  rewrite Ascii.eqb_sym, H1. f_equal. auto.
Qed.

Lemma contains_app c a b :
  contains c (a ++ b) = contains c a || contains c b.
Proof.
  induction a as [|d r IH]; simpl; [reflexivity|].
  rewrite IH. apply orb_assoc.
Qed.

Lemma append_assoc (a b c : string) : (a ++ b) ++ c = a ++ (b ++ c).
Proof. induction a as [|x r IH]; simpl; [reflexivity | now rewrite IH]. Qed.

Lemma append_nil_r (a : string) : a ++ "" = a.
Proof. induction a as [|x r IH]; simpl; [reflexivity | now rewrite IH]. Qed.

Lemma replace_app c new a b :
  replace c new (a ++ b) = replace c new a ++ replace c new b.
Proof.
  induction a as [|d r IH]; simpl; [reflexivity|].
  rewrite IH. destruct (Ascii.eqb d c); [|reflexivity].
  symmetry. apply append_assoc.
Qed.

(** A string wrapped in one pair of parentheses becomes its body with a
    leading minus sign. *)
Lemma wrapped_becomes_negative body :
  contains "(" body = false -> contains ")" body = false ->
  replace ")" "" (replace "(" "-" ("(" ++ body ++ ")")) = "-" ++ body.
Proof.
  intros Ho Hc. cbn [append replace]. simpl Ascii.eqb. cbn iota.
  rewrite !replace_app. rewrite (replace_absent "(" "-" body Ho).
  cbn [append replace]. simpl Ascii.eqb. cbn iota.
  rewrite replace_app. rewrite (replace_absent ")" "" body Hc).
  simpl. f_equal. clear. induction body; simpl; congruence.
Qed.

Lemma spec_drop_closing_app body :
  spec_drop_closing (body ++ ")") = Some body.
Proof.
  induction body as [|c r IH]; [reflexivity|].
  cbn [append spec_drop_closing]. rewrite IH.
  destruct (r ++ ")") eqn:E; [destruct r; discriminate | reflexivity].
Qed.

Lemma spec_drop_closing_contains s r :
  spec_drop_closing s = Some r -> contains ")" s = true.
Proof.
  revert r. induction s as [|c t IH]; intros r; [discriminate|].
  cbn [spec_drop_closing contains]. destruct t as [|c' t'].
  - destruct (Ascii.eqb_spec c ")"); [subst; reflexivity | discriminate].
  - destruct (spec_drop_closing (String c' t')) eqn:E; [|discriminate].
    intros _. rewrite (IH _ eq_refl). apply orb_true_r.
Qed.

(** ** The conversion functions *)

(** C2: a missing or empty raw value is Absent for each of the six
    conversion functions, whatever else the function would do. *)
Theorem blank_is_absent (v : value) :
  isna v = true \/ v = VStr "" ->
  clean_currency v = Ok VNone /\ clean_percentage v = Ok VNone
  /\ clean_date v = Ok VNone /\ clean_boolean v = Ok VNone
  /\ clean_integer v = Ok VNone /\ clean_decimal v = Ok VNone.
Proof.
  intros H.
  assert (Hb : blank v = true).
  { unfold blank. destruct H as [-> | ->]; [reflexivity | apply orb_true_r]. }
  unfold clean_currency, clean_percentage, clean_date, clean_boolean,
    clean_integer, clean_decimal.
  rewrite Hb. repeat split.
Qed.

Lemma blank_is_absent_witness :
  (clean_currency nan = Ok VNone /\ clean_percentage nan = Ok VNone
   /\ clean_date nan = Ok VNone /\ clean_boolean nan = Ok VNone
   /\ clean_integer nan = Ok VNone /\ clean_decimal nan = Ok VNone)
  /\ (clean_currency (VStr "") = Ok VNone
      /\ clean_percentage (VStr "") = Ok VNone
      /\ clean_date (VStr "") = Ok VNone /\ clean_boolean (VStr "") = Ok VNone
      /\ clean_integer (VStr "") = Ok VNone
      /\ clean_decimal (VStr "") = Ok VNone).
Proof.
  split.
  - apply (blank_is_absent nan). left. reflexivity.
  - apply (blank_is_absent (VStr "")). right. reflexivity.
Defined.

(** C1, as stated, fails: a string without a percent sign and a number are
    returned as they are, not as Absent. *)
Lemma percentage_passes_through :
  clean_percentage (VStr "5.25") = Ok (VStr "5.25")
  /\ clean_percentage (VInt 42) = Ok (VInt 42)
  /\ ~ (forall v, isinstance_str v = false
                  \/ (exists s, v = VStr s /\ contains "%" s = false) ->
                  clean_percentage v = Ok VNone).
Proof.
  split; [reflexivity|]. split; [reflexivity|].
  intros H. specialize (H (VInt 42) (or_introl eq_refl)). discriminate H.
Qed.

(** C1, amended: a raw value that is neither missing nor empty is returned
    unchanged when it is not a string or is a string without a percent sign;
    a string with a percent sign has every percent sign removed and the rest
    is read as a float, the percentage itself ([5.25%] is 5.25), with Absent
    when it does not read as a float. *)
Theorem percentage_conversion (v : value) :
  blank v = false ->
  match v with
  | VStr s =>
      if contains "%" s then
        clean_percentage v
        = Ok (match float_of_string (replace "%" "" s) with
              | Ok f => VFloat f
              | Raise _ => VNone
              end)
        /\ contains "%" (replace "%" "" s) = false
      else clean_percentage v = Ok v
  | _ => clean_percentage v = Ok v
  end
  /\ exists f, clean_percentage (VStr "5.25%") = Ok (VFloat f)
               /\ represents f 525 100.
Proof.
  intros Hb. split.
  - unfold clean_percentage. rewrite Hb.
    destruct v as [|s|f|n|b|d]; try reflexivity.
    destruct (contains "%" s); [|reflexivity].
    split; [apply try_float | apply contains_replace_empty].
  - eexists. split; [vm_compute; reflexivity | vm_compute; reflexivity].
Qed.

Lemma percentage_conversion_witness :
  clean_percentage (VStr "12.5%%")
  = Ok (match float_of_string "12.5" with Ok f => VFloat f | Raise _ => VNone end)
  /\ clean_percentage (VStr "n/a") = Ok (VStr "n/a").
Proof.
  split.
  - exact (proj1 (proj1 (percentage_conversion (VStr "12.5%%") eq_refl))).
  - exact (proj1 (percentage_conversion (VStr "n/a") eq_refl)).
Defined.

Lemma contains_sub c s :
  contains c (sub_comma_dollar_space s)
  = contains c s
    && negb (Ascii.eqb c "," || Ascii.eqb c "$" || unicode_isspace c).
Proof.
  induction s as [|d r IH]; simpl; [reflexivity|].
  destruct (Ascii.eqb_spec c d) as [<-|Hne].
  - destruct (Ascii.eqb c "," || Ascii.eqb c "$" || unicode_isspace c);
      simpl.
    + rewrite IH. apply andb_false_r.
    + now rewrite Ascii.eqb_refl.
  - destruct (Ascii.eqb d "," || Ascii.eqb d "$" || unicode_isspace d);
      simpl; [exact IH|].
    apply Ascii.eqb_neq in Hne. now rewrite Hne.
Qed.

Lemma blank_str s : blank (VStr s) = false -> s <> "".
Proof. intros H ->. discriminate H. Qed.

(** C3, as stated, fails: parentheses that do not wrap the cleaned string
    are rewritten too, so [5e(1)] is read as [5e-1] where the specification
    parses the string as it is and gets Absent. *)
Lemma currency_inner_parentheses :
  spec_clean_currency (VStr "5e(1)") = Ok VNone
  /\ (exists f, clean_currency (VStr "5e(1)") = Ok (VFloat f)
                /\ represents f 5 10)
  /\ clean_currency (VStr "5e(1)") <> spec_clean_currency (VStr "5e(1)").
Proof.
  split; [reflexivity|]. split.
  - eexists. split; vm_compute; reflexivity.
  - vm_compute. discriminate.
Qed.

(** C3, amended: a raw value that is neither missing nor empty is returned
    unchanged when it is not a string; from a string, commas, dollar signs
    and white space are removed, then, when the cleaned string has both an
    opening and a closing parenthesis anywhere, every opening parenthesis
    becomes a minus sign and every closing one is dropped, and the result is
    read as a float, with Absent when it does not read as one. On a cleaned
    string without parentheses, and on one wrapped in a single pair of them,
    this is what the specification describes. *)
Theorem currency_conversion (v : value) :
  blank v = false ->
  match v with
  | VStr s =>
      let c := sub_comma_dollar_space s in
      clean_currency v
      = Ok (match float_of_string
                    (if contains "(" c && contains ")" c
                     then replace ")" "" (replace "(" "-" c) else c) with
            | Ok f => VFloat f
            | Raise _ => VNone
            end)
      /\ (forall ch, contains ch c
                     = contains ch s
                       && negb (Ascii.eqb ch "," || Ascii.eqb ch "$"
                                || unicode_isspace ch))
      /\ (contains "(" c = false /\ contains ")" c = false ->
          clean_currency v = spec_clean_currency v)
      /\ (forall body, c = "(" ++ body ++ ")" ->
                       contains "(" body = false ->
                       contains ")" body = false ->
            clean_currency v
            = Ok (match float_of_string ("-" ++ body) with
                  | Ok f => VFloat f
                  | Raise _ => VNone
                  end)
            /\ clean_currency v = spec_clean_currency v)
  | _ => clean_currency v = Ok v
  end
  /\ exists f, clean_currency (VStr "(1,200.50)") = Ok (VFloat f)
               /\ represents f (-120050) 100.
Proof.
  intros Hb. split.
  2:{ eexists. split; vm_compute; reflexivity. }
  unfold clean_currency, spec_clean_currency. rewrite Hb.
  destruct v as [|s|f|n|b|d]; try reflexivity.
  cbv zeta. rewrite try_float. split; [reflexivity|].
  split; [intros ch; apply contains_sub|]. split.
  - intros [Ho Hc]. rewrite Ho. simpl andb. cbv iota.
    destruct (spec_wrapped (sub_comma_dollar_space s)) as [inner|] eqn:E;
      [|reflexivity].
    exfalso. unfold spec_wrapped in E.
    destruct (sub_comma_dollar_space s) as [|a r]; [discriminate|].
    simpl in Ho. destruct (Ascii.eqb_spec a "("); [|discriminate].
    subst a. discriminate Ho.
  - intros body Hc Ho Hcl. rewrite Hc.
    assert (H1 : contains "(" ("(" ++ body ++ ")") = true) by reflexivity.
    assert (H2 : contains ")" ("(" ++ body ++ ")") = true).
    { cbn [append contains]. rewrite contains_app. simpl.
      rewrite orb_true_r. reflexivity. }
    rewrite H1, H2. simpl andb. cbv iota.
    rewrite (wrapped_becomes_negative body Ho Hcl).
    split; [reflexivity|].
    assert (H3 : spec_wrapped ("(" ++ body ++ ")") = Some body)
      by (cbn [append spec_wrapped]; simpl Ascii.eqb; cbv iota;
          apply spec_drop_closing_app).
    rewrite H3. reflexivity.
Qed.

Lemma currency_conversion_witness :
  clean_currency (VStr "$ (500)")
  = Ok (match float_of_string "-500" with Ok f => VFloat f | Raise _ => VNone end)
  /\ clean_currency (VBool true) = Ok (VBool true).
Proof.
  split.
  - exact (proj1 (proj2 (proj2 (proj2
             (proj1 (currency_conversion (VStr "$ (500)") eq_refl))))
             "500" eq_refl eq_refl eq_refl)).
  - exact (proj1 (currency_conversion (VBool true) eq_refl)).
Defined.

Lemma in_list_In x l : in_list x l = true <-> In x l.
Proof.
  unfold in_list. rewrite existsb_exists. split.
  - intros [y [Hy E]]. apply String.eqb_eq in E. now subst.
  - intros H. exists x. split; [exact H | apply String.eqb_refl].
Qed.

Lemma in_list_not_In x l : in_list x l = false <-> ~ In x l.
Proof.
  rewrite <- in_list_In. destruct (in_list x l); split; congruence.
Qed.

Lemma clean_boolean_eq v :
  clean_boolean v
  = Ok (match v with
        | VStr s =>
            if in_list (strip (lower s)) ["yes"; "true"; "1"] then VBool true
            else if in_list (strip (lower s)) ["no"; "false"; "0"]
                 then VBool false
                 else VNone
        | _ => VNone
        end).
Proof.
  unfold clean_boolean. destruct (blank v) eqn:Hb.
  - apply blank_cases in Hb. destruct Hb as [->|[->| ->]]; reflexivity.
  - destruct v as [|s|f|n|b|d]; try reflexivity.
    destruct (in_list _ ["yes"; "true"; "1"]); [reflexivity|].
    destruct (in_list _ ["no"; "false"; "0"]); reflexivity.
Qed.


Lemma strptime_raises s fmt e : strptime s fmt = Raise e -> e = ValueError.
Proof.
  unfold strptime. destruct (match_items fmt s) as [[fs [|c r]]|];
    try congruence.
  destruct (fields fs (1900, 1, 1)) as [[y m] d].
  destruct (valid_date y m d); congruence.
Qed.

Lemma try_formats_cons s fmt r :
  try_formats s (fmt :: r)
  = match strptime s fmt with
    | Ok d => Ok (VDate d)
    | Raise _ => try_formats s r
    end.
Proof.
  simpl. destruct (strptime s fmt) as [d|e] eqn:E; [reflexivity|].
  apply strptime_raises in E. subst e. reflexivity.
Qed.

Lemma clean_date_eq (v : value) :
  clean_date v = Ok (match v with VStr s => first_date s | _ => VNone end).
Proof.
  unfold clean_date. destruct (blank v) eqn:Hb.
  - apply blank_cases in Hb. destruct Hb as [->|[->| ->]]; reflexivity.
  - destruct v as [|s|f|n|b|d]; try reflexivity.
    unfold date_formats, first_date. rewrite !try_formats_cons.
    destruct (strptime s fmt_mdY); [reflexivity|].
    destruct (strptime s fmt_mdy); [reflexivity|].
    destruct (strptime s fmt_Ymd); reflexivity.
Qed.

(** C4: for a string, the formats month/day/four-digit year,
    month/day/two-digit year and year-month-day are tried in that order and
    the first that reads the string gives the date, Absent when none does;
    every input that is not a string gives Absent. *)
Theorem date_conversion (v : value) :
  match v with
  | VStr s => clean_date v = Ok (first_date s)
  | _ => clean_date v = Ok VNone
  end
  /\ clean_date (VStr "01/15/2024") = Ok (VDate (mkdate 2024 1 15))
  /\ clean_date (VStr "01/15/24") = Ok (VDate (mkdate 2024 1 15))
  /\ clean_date (VStr "2024-01-15") = Ok (VDate (mkdate 2024 1 15))
  /\ clean_date (VStr "15/01/2024") = Ok VNone
  /\ clean_date (VFloat (S754_finite false 45306 0)) = Ok VNone.
Proof.
  split; [|repeat split; vm_compute; reflexivity].
  rewrite clean_date_eq. destruct v; reflexivity.
Qed.

(** ** Integers *)

Lemma int_of_float_finite s m e :
  int_of_float (S754_finite s m e)
  = Ok (if 0 <=? e then signed s (Zpos m) * 2 ^ e
        else signed s (Zpos m) ÷ 2 ^ (- e)).
Proof.
  unfold int_of_float, signed. f_equal.
  destruct (Z.leb_spec 0 e) as [He|He].
  - rewrite Z.shiftl_mul_pow2 by exact He. destruct s; lia.
  - rewrite Z.shiftr_div_pow2 by lia.
    assert (Hp : 0 < 2 ^ (- e)) by (apply Z.pow_pos_nonneg; lia).
    destruct s.
    + rewrite Z.quot_opp_l by lia. rewrite Z.quot_div_nonneg by lia.
      reflexivity.
    + rewrite Z.quot_div_nonneg by lia. reflexivity.
Qed.

Lemma clean_integer_eq (v : value) :
  blank v = false ->
  clean_integer v
  = match float_of_string (py_str v) with
    | Ok f => integer_of f
    | Raise _ => Ok VNone
    end.
Proof.
  intros Hb. unfold clean_integer. rewrite Hb.
  destruct (float_of_string (py_str v)) as [f|e] eqn:E.
  - destruct f as [s|s| |s m e]; try reflexivity.
    cbn [bind]. rewrite int_of_float_finite. reflexivity.
  - apply float_of_string_raises in E. subst e. reflexivity.
Qed.

(** C6: a raw value that is neither missing nor empty is read as a float
    from its string form; a finite float is truncated toward zero (the
    quotient [÷] rounds toward zero: [42.9] gives 42 and [-42.9] gives -42),
    a string that does not read as a float gives Absent, and so does NaN.
    An infinite float, as [inf] or [1e309] read, is not converted: the
    [OverflowError] of [int()] is not among the exceptions the function
    handles and leaves it. *)
Theorem integer_conversion (v : value) :
  blank v = false ->
  clean_integer v
  = match float_of_string (py_str v) with
    | Ok f => integer_of f
    | Raise _ => Ok VNone
    end.
Proof. exact (clean_integer_eq v). Qed.

Lemma integer_conversion_witness :
  clean_integer (VStr "42.9") = Ok (VInt 42)
  /\ clean_integer (VStr "-42.9") = Ok (VInt (-42))
  /\ clean_integer (VStr "xyz") = Ok VNone
  /\ clean_integer (VStr "inf") = Raise OverflowError.
Proof.
  refine (conj _ (conj _ (conj _ _))).
  - rewrite (integer_conversion (VStr "42.9") eq_refl). vm_compute. reflexivity.
  - rewrite (integer_conversion (VStr "-42.9") eq_refl). vm_compute. reflexivity.
  - rewrite (integer_conversion (VStr "xyz") eq_refl). vm_compute. reflexivity.
  - rewrite (integer_conversion (VStr "inf") eq_refl). vm_compute. reflexivity.
Defined.

(** C7 fails for the integer conversion: a string that reads as an infinite
    float makes [clean_integer] raise [OverflowError] instead of returning a
    value or Absent. *)
Lemma integer_conversion_raises :
  clean_integer (VStr "inf") = Raise OverflowError
  /\ clean_integer (VStr "-Infinity") = Raise OverflowError
  /\ clean_integer (VStr "1e309") = Raise OverflowError
  /\ ~ (forall v, exists r, clean_integer v = Ok r).
Proof.
  assert (E : clean_integer (VStr "inf") = Raise OverflowError)
    by (vm_compute; reflexivity).
  refine (conj E (conj _ (conj _ _)));
    [vm_compute; reflexivity | vm_compute; reflexivity |].
  intros H. destruct (H (VStr "inf")) as [r Hr]. rewrite E in Hr.
  discriminate Hr.
Qed.

(** The five other conversions always return. *)
Lemma other_conversions_return (v : value) :
  (exists r, clean_currency v = Ok r) /\ (exists r, clean_percentage v = Ok r)
  /\ (exists r, clean_date v = Ok r) /\ (exists r, clean_boolean v = Ok r)
  /\ (exists r, clean_decimal v = Ok r).
Proof.
  refine (conj _ (conj _ (conj _ (conj _ _)))).
  - unfold clean_currency. destruct (blank v); [eauto|].
    destruct v; eauto. cbv zeta. rewrite try_float. eauto.
  - unfold clean_percentage. destruct (blank v); [eauto|].
    destruct v; eauto. destruct (contains _ _); eauto.
    rewrite try_float. eauto.
  - rewrite clean_date_eq. eauto.
  - rewrite clean_boolean_eq. eauto.
  - unfold clean_decimal. destruct (blank v); [eauto|].
    rewrite try_float. eauto.
Qed.

(** ** The emitter *)

(** The two lists of a row grow together: one destination name and one
    rendered value for each entry whose source column is present. *)
Lemma row_lists_spec cols row mapping c v :
  row_lists cols row mapping = Ok (c, v) ->
  c = map snd (filter (present cols) mapping)
  /\ Forall2 (fun e x => render_value (snd e) (cell cols row (fst e)) = Ok x)
       (filter (present cols) mapping) v.
Proof.
  revert c v. induction mapping as [|[excel_col sql_col] rest IH];
    intros c v H; cbn [row_lists] in H.
  - injection H as <- <-. split; [reflexivity | constructor].
  - cbn [filter].
    change (present cols (excel_col, sql_col)) with (in_list excel_col cols).
    destruct (in_list excel_col cols); [|apply IH; exact H].
    destruct (render_value sql_col (cell cols row excel_col)) as [x|e] eqn:R;
      [|discriminate H].
    cbn [bind] in H.
    destruct (row_lists cols row rest) as [[c' v']|e] eqn:L; [|discriminate H].
    cbn [bind fst snd] in H. injection H as <- <-.
    destruct (IH c' v' eq_refl) as [-> F]. split; [reflexivity|].
    constructor; [exact R | exact F].
Qed.

Lemma row_statement_insert cols row c v ws :
  row_statement cols row = Ok ws -> In (WInsert c v) ws ->
  has_key cols row = true /\ row_lists cols row column_mapping = Ok (c, v).
Proof.
  unfold row_statement. destruct (has_key cols row); cbn [negb].
  2:{ intros H; injection H as <-. intros []. }
  destruct (row_lists cols row column_mapping) as [[c' v']|e]; [|discriminate].
  cbn [bind fst snd]. destruct c' as [|x c'']; intros H; injection H as <-.
  - intros [].
  - intros [E|[]]. injection E as <- <-. split; reflexivity.
Qed.

Lemma write_rows_insert cols rs c v :
  In (WInsert c v) (fst (write_rows cols rs)) ->
  exists row, In row rs /\ has_key cols row = true
              /\ row_lists cols row column_mapping = Ok (c, v).
Proof.
  induction rs as [|r rs IH]; cbn [write_rows]; [intros []|].
  destruct (row_statement cols r) as [ws|e] eqn:R; [|intros []].
  destruct (write_rows cols rs) as [out st]. cbn [fst] in *.
  intros H. apply in_app_or in H as [H|H].
  - exists r. split; [left; reflexivity|].
    exact (row_statement_insert _ _ _ _ _ R H).
  - destruct (IH H) as [row [Hin Hr]]. exists row. split; [right|]; assumption.
Qed.

Lemma generate_insert df c v :
  In (WInsert c v) (fst (generate df)) ->
  In (WInsert c v) (fst (write_rows (columns df) (clean_rows df))).
Proof.
  unfold generate. destruct (negb _); [intros []|].
  destruct (write_rows (columns df) (clean_rows df)) as [out [e|]];
    cbn [fst]; intros [H|H]; try discriminate H; [exact H|].
  apply in_app_or in H as [H|[H|[H|[]]]]; try discriminate H. exact H.
Qed.



(** C9 fails on a row whose key is present when an integer column of the row
    reads as an infinite float: the [OverflowError] of [clean_integer] ends
    the run, so that row and the rows after it get no statement and the
    UPDATE statement is not written. *)
Lemma generate_stops_on_overflow :
  generate (mkframe ["Asset ID"; "Units"]
              [ [VStr "A1"; VStr "4"]; [VStr "A2"; VStr "inf"];
                [VStr "A3"; VStr "6"] ])
  = ([WText header_text; WInsert ["asset_id"; "units"] ["'A1'"; "4"]],
     Some OverflowError).
Proof. vm_compute. reflexivity. Qed.

(** The only exception of a cell is the [OverflowError] of the integer
    conversion. *)
Lemma clean_integer_raise v e :
  clean_integer v = Raise e -> e = OverflowError.
Proof.
  destruct (blank v) eqn:B.
  - unfold clean_integer. rewrite B. discriminate.
  - rewrite (clean_integer_eq v B).
    destruct (float_of_string (py_str v)) as [f|x]; [|discriminate].
    destruct f; cbn [integer_of]; congruence.
Qed.

Lemma render_value_raise col v e :
  render_value col v = Raise e ->
  e = OverflowError /\ in_list col integer_cols = true
  /\ clean_integer v = Raise OverflowError.
Proof.
  unfold render_value.
  destruct (other_conversions_return v)
    as [[r1 E1] [[r2 E2] [[r3 E3] [[r4 E4] [r5 E5]]]]].
  rewrite E1, E2, E3, E4, E5. cbn [bind].
  destruct (blank v); [discriminate|].
  destruct (in_list col currency_cols); [discriminate|].
  destruct (in_list col percentage_cols); [discriminate|].
  destruct (in_list col date_cols); [discriminate|].
  destruct (in_list col boolean_cols); [discriminate|].
  destruct (in_list col integer_cols); [|destruct (in_list col decimal_cols); discriminate].
  destruct (clean_integer v) as [r|x] eqn:E; [discriminate|].
  cbn [bind]. intros H. injection H as <-.
  pose proof (clean_integer_raise v x E) as ->. auto.
Qed.

Lemma cell_in cols : forall row label,
  cell cols row label = nan \/ In (cell cols row label) row.
Proof.
  induction cols as [|c cs IH]; intros row label; cbn [cell]; [auto|].
  destruct (String.eqb c label).
  - destruct row; [auto | right; left; reflexivity].
  - destruct row as [|v vs]; cbn [tl].
    + destruct (IH [] label) as [H|[]]. auto.
    + destruct (IH vs label) as [H|H]; [auto | right; right; exact H].
Qed.

(** A row with its key is not a row of missing cells only. *)
Lemma has_key_not_all_missing cols row :
  has_key cols row = true -> forallb isna row = false.
Proof.
  unfold has_key. intros H. apply negb_true_iff in H.
  unfold blank in H. apply orb_false_elim in H as [N _].
  destruct (cell_in cols row "Asset ID") as [E|I].
  - rewrite E in N. discriminate N.
  - destruct (forallb isna row) eqn:F; [|reflexivity].
    rewrite forallb_forall in F. rewrite (F _ I) in N. discriminate N.
Qed.

Lemma clean_rows_keyed df :
  clean_rows df = filter (has_key (columns df)) (rows df).
Proof.
  unfold clean_rows. induction (rows df) as [|r rs IH]; [reflexivity|].
  cbn [filter]. destruct (has_key (columns df) r) eqn:K.
  - rewrite (has_key_not_all_missing _ _ K). cbn [negb filter].
    rewrite K, IH. reflexivity.
  - destruct (negb (forallb isna r)); cbn [filter]; rewrite ?K; exact IH.
Qed.

Lemma key_column_mapped cols :
  in_list "Asset ID" cols = true ->
  filter (present cols) column_mapping <> [].
Proof.
  intros H E.
  assert (I : In ("Asset ID", "asset_id") (filter (present cols) column_mapping)).
  { apply filter_In. split; [|exact H].
    unfold column_mapping. right. left. reflexivity. }
  rewrite E in I. destruct I.
Qed.

(** The statement of one row: nothing without the key, one INSERT with it,
    unless a cell raises. *)
Lemma row_statement_cases cols row :
  in_list "Asset ID" cols = true ->
  match row_statement cols row with
  | Ok ws =>
      if has_key cols row
      then exists c v, ws = [WInsert c v]
      else ws = []
  | Raise e => has_key cols row = true /\ e = OverflowError
  end.
Proof.
  intros HA. unfold row_statement.
  destruct (has_key cols row); cbn [negb]; [|reflexivity].
  destruct (row_lists cols row column_mapping) as [[c v]|e] eqn:L;
    cbn [bind fst snd].
  - destruct (row_lists_spec _ _ _ _ _ L) as [Hc _].
    destruct c as [|x c'].
    + exfalso. apply (key_column_mapped cols HA).
      destruct (filter (present cols) column_mapping); [reflexivity|].
      discriminate Hc.
    + eauto.
  - split; [reflexivity|].
    clear HA. revert e L. generalize column_mapping as mapping.
    induction mapping as [|[excel_col sql_col] rest IH]; intros e L;
      cbn [row_lists] in L; [discriminate|].
    destruct (in_list excel_col cols); [|exact (IH e L)].
    destruct (render_value sql_col (cell cols row excel_col)) as [x|x] eqn:R.
    + cbn [bind] in L.
      destruct (row_lists cols row rest) as [cv|y] eqn:L'; [discriminate|].
      cbn [bind] in L. injection L as <-. exact (IH y eq_refl).
    + cbn [bind] in L. injection L as <-.
      exact (proj1 (render_value_raise _ _ _ R)).
Qed.

(** A run that is not stopped writes one INSERT for each row with its key,
    in the order of the rows, and nothing for the other rows. *)
Lemma write_rows_complete cols rs out :
  in_list "Asset ID" cols = true ->
  write_rows cols rs = (out, None) ->
  forallb is_insert out = true
  /\ List.length out = List.length (filter (has_key cols) rs).
Proof.
  intros HA. revert out. induction rs as [|r rs IH]; intros out;
    cbn [write_rows filter].
  - intros H. injection H as <-. split; reflexivity.
  - pose proof (row_statement_cases cols r HA) as C.
    destruct (row_statement cols r) as [ws|e]; [|discriminate].
    destruct (write_rows cols rs) as [o st]. intros H. injection H as <- ->.
    destruct (IH o eq_refl) as [F N].
    destruct (has_key cols r).
    + destruct C as [c [v ->]]. cbn [app forallb is_insert List.length].
      split; [exact F | now rewrite N].
    + subst ws. split; assumption.
Qed.

(** The whole file of a run that is not stopped: the heading, one INSERT
    for each row with its key, the closing comment and the UPDATE. *)
Lemma generate_complete df out :
  in_list "Asset ID" (columns df) = true ->
  generate df = (out, None) ->
  exists stmts,
    out = (WText header_text :: stmts
             ++ [WText trailer_comment; WText update_statement])%list
    /\ forallb is_insert stmts = true
    /\ List.length stmts
       = List.length (filter (has_key (columns df)) (rows df)).
Proof.
  intros HA. unfold generate. rewrite HA. cbn [negb].
  destruct (write_rows (columns df) (clean_rows df)) as [o [e|]] eqn:W;
    [discriminate|].
  intros H. injection H as <-. exists o. split; [reflexivity|].
  rewrite clean_rows_keyed in W.
  destruct (write_rows_complete _ _ _ HA W) as [F N]. split; [exact F|].
  rewrite N. clear. induction (rows df) as [|r rs IH]; [reflexivity|].
  cbn [filter]. destruct (has_key (columns df) r) eqn:K; cbn [filter].
  - rewrite K. cbn [List.length]. now rewrite IH.
  - exact IH.
Qed.


Lemma digits2_pos_size p : digits2_pos p = Pos.size p.
Proof. induction p; simpl; congruence. Qed.

Lemma digits2_pos_log2 p : Zpos (digits2_pos p) = Z.log2 (Zpos p) + 1.
Proof.
  rewrite digits2_pos_size. destruct p; simpl; rewrite ?Pos2Z.inj_succ; lia.
Qed.

(** A finite float is valid when its mantissa has 53 bits, or fewer at the
    smallest exponent. *)
Lemma valid_finite s m e :
  valid_binary prec emax (S754_finite s m e) = true <->
  (2 ^ 52 <= Zpos m < 2 ^ 53 /\ emin <= e <= 971)
  \/ (Zpos m < 2 ^ 52 /\ e = emin).
Proof.
  unfold valid_binary, bounded, canonical_mantissa, fexp, SpecFloat.emin, prec, emax, emin.
  rewrite digits2_pos_log2, andb_true_iff, Z.eqb_eq, Z.leb_le.
  assert (H := Z.log2_spec (Zpos m) eq_refl).
  split.
  - intros [H1 H2].
    destruct (Z_lt_le_dec (Z.log2 (Z.pos m)) 52) as [L|L].
    + right. split.
      * apply Z.log2_lt_pow2; lia.
      * lia.
    + left. assert (Z.log2 (Zpos m) = 52) by lia.
      rewrite H0 in H. split; [exact H|]. lia.
  - intros [[H1 H2]|[H1 H2]].
    + assert (Z.log2 (Zpos m) = 52).
      { apply Z.log2_unique; [lia|]. exact H1. }
      lia.
    + assert (Z.log2 (Zpos m) < 52) by (apply Z.log2_lt_pow2; lia).
      lia.
Qed.

Lemma pow2_pos j : 0 <= j -> 0 < 2 ^ j.
Proof. intros. apply Z.pow_pos_nonneg; lia. Qed.

Lemma leb_iff_eq a b c d : (a <= b <-> c <= d) -> (a <=? b) = (c <=? d).
Proof.
  intros H. destruct (Z.leb_spec a b), (Z.leb_spec c d); try reflexivity; lia.
Qed.

Lemma le_pow2_shift j num den K :
  0 <= K -> 0 <= j + K ->
  le_pow2 j num den = (2 ^ (j + K) * den <=? num * 2 ^ K).
Proof.
  intros HK HjK. unfold le_pow2.
  assert (Hb := pow2_pos K HK).
  destruct (Z.leb_spec 0 j) as [Hj|Hj]; apply leb_iff_eq.
  - rewrite Z.pow_add_r by lia. assert (Ha := pow2_pos j Hj).
    replace (2 ^ j * 2 ^ K * den) with (2 ^ j * den * 2 ^ K) by ring.
    apply Z.mul_le_mono_pos_r. exact Hb.
  - assert (EK : 2 ^ K = 2 ^ (- j) * 2 ^ (j + K)).
    { rewrite <- Z.pow_add_r by lia. f_equal. lia. }
    rewrite EK.
    assert (Hc := pow2_pos (j + K) HjK).
    replace (2 ^ (j + K) * den) with (den * 2 ^ (j + K)) by ring.
    replace (num * (2 ^ (- j) * 2 ^ (j + K)))
      with (num * 2 ^ (- j) * 2 ^ (j + K)) by ring.
    apply Z.mul_le_mono_pos_r. exact Hc.
Qed.

Lemma ilog2_spec num den :
  0 < num -> 0 < den ->
  le_pow2 (ilog2 num den) num den = true
  /\ le_pow2 (ilog2 num den + 1) num den = false.
Proof.
  intros Hn Hd.
  destruct (Z.log2_spec num Hn) as [A1 A2].
  destruct (Z.log2_spec den Hd) as [B1 B2].
  assert (Ha := Z.log2_nonneg num). assert (Hb := Z.log2_nonneg den).
  set (a := Z.log2 num) in *. set (b := Z.log2 den) in *.
  unfold ilog2. fold a b.
  assert (P1 := pow2_pos a Ha). assert (P2 := pow2_pos b Hb).
  rewrite Z.pow_succ_r in A2, B2 by lia.
  destruct (le_pow2 (a - b) num den) eqn:E.
  - split; [exact E|].
    rewrite (le_pow2_shift _ _ _ b) by lia.
    replace (a - b + 1 + b) with (Z.succ a) by lia.
    rewrite Z.pow_succ_r by lia. apply Z.leb_gt. nia.
  - split.
    + rewrite (le_pow2_shift _ _ _ (Z.succ b)) by lia.
      replace (a - b - 1 + Z.succ b) with a by lia.
      rewrite Z.pow_succ_r by lia. apply Z.leb_le. nia.
    + replace (a - b - 1 + 1) with (a - b) by lia. exact E.
Qed.

Lemma le_pow2_mono j j' num den :
  0 < num -> 0 < den -> j <= j' ->
  le_pow2 j' num den = true -> le_pow2 j num den = true.
Proof.
  intros Hn Hd Hj.
  rewrite (le_pow2_shift j _ _ (Z.abs j + Z.abs j')) by lia.
  rewrite (le_pow2_shift j' _ _ (Z.abs j + Z.abs j')) by lia.
  rewrite !Z.leb_le. intros H.
  assert (2 ^ (j + (Z.abs j + Z.abs j')) <= 2 ^ (j' + (Z.abs j + Z.abs j')))
    by (apply Z.pow_le_mono_r; lia).
  nia.
Qed.

Lemma ilog2_unique j num den :
  0 < num -> 0 < den ->
  le_pow2 j num den = true -> le_pow2 (j + 1) num den = false ->
  ilog2 num den = j.
Proof.
  intros Hn Hd H1 H2. destruct (ilog2_spec num den Hn Hd) as [S1 S2].
  destruct (Z.lt_trichotomy (ilog2 num den) j) as [L|[L|L]]; [|exact L|].
  - assert (X := le_pow2_mono (ilog2 num den + 1) j num den Hn Hd
                   ltac:(lia) H1). congruence.
  - assert (X := le_pow2_mono (j + 1) (ilog2 num den) num den Hn Hd
                   ltac:(lia) S1). congruence.
Qed.

Lemma le_pow2_scale j num den c :
  0 < c -> le_pow2 j (num * c) (den * c) = le_pow2 j num den.
Proof.
  intros Hc. unfold le_pow2. destruct (0 <=? j); apply leb_iff_eq; nia.
Qed.

Lemma ilog2_scale num den c :
  0 < num -> 0 < den -> 0 < c -> ilog2 (num * c) (den * c) = ilog2 num den.
Proof.
  intros Hn Hd Hc. apply ilog2_unique; try nia;
    rewrite le_pow2_scale by exact Hc; apply ilog2_spec; assumption.
Qed.

(** Scaling a fraction does not change the float it rounds to. *)
Lemma round_ratio_scale s num den c :
  0 < num -> 0 < den -> 0 < c ->
  round_ratio s (num * c) (den * c) = round_ratio s num den.
Proof.
  intros Hn Hd Hc. unfold round_ratio.
  rewrite ilog2_scale by assumption.
  set (ex := Z.max (ilog2 num den - 52) emin).
  destruct (0 <=? ex) eqn:Hex.
  - assert (0 < 2 ^ ex) by (apply pow2_pos; lia).
    replace (den * c * 2 ^ ex) with (den * 2 ^ ex * c) by ring.
    rewrite Z.div_mul_cancel_r by nia.
    rewrite Z.mul_mod_distr_r by nia.
    replace (den * 2 ^ ex * c <? 2 * (num mod (den * 2 ^ ex) * c))
      with (den * 2 ^ ex <? 2 * (num mod (den * 2 ^ ex))).
    2:{ destruct (Z.ltb_spec (den * 2 ^ ex) (2 * (num mod (den * 2 ^ ex))));
        symmetry; [apply Z.ltb_lt | apply Z.ltb_ge]; nia. }
    replace (den * 2 ^ ex * c =? 2 * (num mod (den * 2 ^ ex) * c))
      with (den * 2 ^ ex =? 2 * (num mod (den * 2 ^ ex))).
    2:{ destruct (Z.eqb_spec (den * 2 ^ ex) (2 * (num mod (den * 2 ^ ex))));
        symmetry; [apply Z.eqb_eq | apply Z.eqb_neq]; nia. }
    reflexivity.
  - assert (0 < 2 ^ (- ex)) by (apply pow2_pos; lia).
    replace (num * c * 2 ^ (- ex)) with (num * 2 ^ (- ex) * c) by ring.
    rewrite Z.div_mul_cancel_r by nia.
    rewrite Z.mul_mod_distr_r by nia.
    replace (den * c <? 2 * ((num * 2 ^ (- ex)) mod den * c))
      with (den <? 2 * ((num * 2 ^ (- ex)) mod den)).
    2:{ destruct (Z.ltb_spec den (2 * ((num * 2 ^ (- ex)) mod den)));
        symmetry; [apply Z.ltb_lt | apply Z.ltb_ge]; nia. }
    replace (den * c =? 2 * ((num * 2 ^ (- ex)) mod den * c))
      with (den =? 2 * ((num * 2 ^ (- ex)) mod den)).
    2:{ destruct (Z.eqb_spec den (2 * ((num * 2 ^ (- ex)) mod den)));
        symmetry; [apply Z.eqb_eq | apply Z.eqb_neq]; nia. }
    reflexivity.
Qed.

(** Fractions with the same value round to the same float. *)
Lemma round_ratio_equiv s num den num' den' :
  0 < num -> 0 < den -> 0 < num' -> 0 < den' ->
  num * den' = num' * den ->
  round_ratio s num den = round_ratio s num' den'.
Proof.
  intros Hn Hd Hn' Hd' E.
  rewrite <- (round_ratio_scale s num den den') by assumption.
  rewrite <- (round_ratio_scale s num' den' den) by assumption.
  rewrite E. f_equal. ring.
Qed.

(** The value of a float rounds to that float. *)
Lemma round_ratio_exact s m e num den :
  valid_binary prec emax (S754_finite s m e) = true ->
  0 < num -> 0 < den ->
  (if 0 <=? e then num = Zpos m * 2 ^ e * den
   else num * 2 ^ (- e) = Zpos m * den) ->
  round_ratio s num den = S754_finite s m e.
Proof.
  intros V Hn Hd E.
  apply valid_finite in V.
  assert (Hm : 0 < Zpos m) by lia.
  destruct (Z.log2_spec (Zpos m) Hm) as [L1 L2].
  assert (L0 := Z.log2_nonneg (Zpos m)).
  set (l := Z.log2 (Zpos m)) in *.
  rewrite Z.pow_succ_r in L2 by lia.
  assert (Pl := pow2_pos l L0).
  assert (J : ilog2 num den = l + e).
  { apply ilog2_unique; try assumption.
    - destruct (Z.leb_spec 0 e) as [He|He].
      + rewrite (le_pow2_shift _ _ _ 0) by lia.
        rewrite Z.add_0_r, Z.pow_0_r, Z.pow_add_r by lia.
        assert (Pe := pow2_pos e He). apply Z.leb_le. subst num. nia.
      + rewrite (le_pow2_shift _ _ _ (- e)) by lia.
        replace (l + e + - e) with l by lia. apply Z.leb_le.
        rewrite E. nia.
    - destruct (Z.leb_spec 0 e) as [He|He].
      + rewrite (le_pow2_shift _ _ _ 0) by lia.
        rewrite Z.add_0_r, Z.pow_0_r. 
        replace (l + e + 1) with (Z.succ l + e) by lia.
        rewrite Z.pow_add_r, Z.pow_succ_r by lia.
        assert (Pe := pow2_pos e He). apply Z.leb_gt. subst num. nia.
      + rewrite (le_pow2_shift _ _ _ (- e)) by lia.
        replace (l + e + 1 + - e) with (Z.succ l) by lia.
        rewrite Z.pow_succ_r by lia. apply Z.leb_gt.
        rewrite E. nia. }
  assert (X : Z.max (l + e - 52) emin = e).
  { destruct V as [[V1 V2]|[V1 V2]].
    - assert (l = 52) by (apply Z.log2_unique; lia). lia.
    - assert (l < 52) by (apply Z.log2_lt_pow2; lia). lia. }
  unfold round_ratio. rewrite J, X.
  assert (M53 : Zpos m < 2 ^ 53) by (destruct V as [[? ?]|[? ?]]; lia).
  assert (E971 : e <= 971) by (unfold emin in V; destruct V as [[? ?]|[? ?]]; lia).
  destruct (Z.leb_spec 0 e) as [He|He].
  - assert (Pe := pow2_pos e He).
    replace num with (Zpos m * (den * 2 ^ e)) by (subst num; ring).
    rewrite Z.div_mul, Z_mod_mult by nia.
    replace (den * 2 ^ e <? 2 * 0) with false by (symmetry; apply Z.ltb_ge; nia).
    replace (den * 2 ^ e =? 2 * 0) with false by (symmetry; apply Z.eqb_neq; nia).
    cbn [orb andb].
    replace (Z.pos m =? 2 ^ 53) with false by (symmetry; apply Z.eqb_neq; lia).
    replace (e <=? emax - prec) with true
      by (symmetry; apply Z.leb_le; unfold emax, prec; lia).
    reflexivity.
  - rewrite E. rewrite Z.div_mul, Z_mod_mult by lia.
    replace (den <? 2 * 0) with false by (symmetry; apply Z.ltb_ge; nia).
    replace (den =? 2 * 0) with false by (symmetry; apply Z.eqb_neq; nia).
    cbn [orb andb].
    replace (Z.pos m =? 2 ^ 53) with false by (symmetry; apply Z.eqb_neq; lia).
    replace (e <=? emax - prec) with true
      by (symmetry; apply Z.leb_le; unfold emax, prec; lia).
    reflexivity.
Qed.

(** ** Decimals *)

Lemma round_ratio_sign s num den :
  round_ratio s num den = with_sign s (round_ratio false num den).
Proof.
  unfold round_ratio.
  destruct (0 <=? Z.max (ilog2 num den - 52) emin).
  - destruct (_ || _); destruct (_ =? 2 ^ 53);
      match goal with |- context [match ?x with Zpos _ => _ | _ => _ end] =>
        destruct x end; try reflexivity;
      destruct (_ <=? emax - prec); reflexivity.
  - destruct (_ || _); destruct (_ =? 2 ^ 53);
      match goal with |- context [match ?x with Zpos _ => _ | _ => _ end] =>
        destruct x end; try reflexivity;
      destruct (_ <=? emax - prec); reflexivity.
Qed.

Lemma round_decimal_sign s m e10 :
  round_decimal s m e10 = with_sign s (round_decimal false m e10).
Proof.
  unfold round_decimal. destruct m; try reflexivity.
  destruct (0 <=? e10); apply round_ratio_sign.
Qed.

Lemma pow10_pos j : 0 <= j -> 0 < 10 ^ j.
Proof. intros. apply Z.pow_pos_nonneg; lia. Qed.

(** Moving zeros between the mantissa and the exponent of a decimal does
    not change the float it rounds to. *)
Lemma round_decimal_shift s m p z :
  0 < m -> 0 <= z ->
  round_decimal s (m * 10 ^ z) p = round_decimal s m (p + z).
Proof.
  intros Hm Hz. assert (Pz := pow10_pos z Hz).
  unfold round_decimal.
  destruct (m * 10 ^ z) as [|mz|mz] eqn:Emz; try nia.
  destruct m as [|m'|m']; try lia. rewrite <- Emz. clear Emz mz.
  destruct (Z.leb_spec 0 p) as [Hp|Hp].
  - destruct (Z.leb_spec 0 (p + z)); try lia.
    f_equal. rewrite Z.pow_add_r by lia. ring.
  - assert (Pp := pow10_pos (- p) ltac:(lia)).
    destruct (Z.leb_spec 0 (p + z)) as [Hq|Hq].
    + assert (Pq := pow10_pos (p + z) Hq).
      apply round_ratio_equiv; try nia.
      replace (10 ^ z) with (10 ^ (p + z) * 10 ^ (- p)).
      * ring.
      * rewrite <- Z.pow_add_r by lia. f_equal. lia.
    + assert (Pq := pow10_pos (- (p + z)) ltac:(lia)).
      apply round_ratio_equiv; try nia.
      replace (10 ^ (- p)) with (10 ^ z * 10 ^ (- (p + z))).
      * ring.
      * rewrite <- Z.pow_add_r by lia. f_equal. lia.
Qed.

Lemma SFcompare_eq_finite x m e :
  SFcompare x (S754_finite false m e) = Some Eq -> x = S754_finite false m e.
Proof.
  destruct x as [s|s| |s m' e']; simpl; try discriminate;
    try (destruct s; discriminate).
  destruct s; [discriminate|].
  destruct (Z.compare_spec e' e) as [->|L|L]; try discriminate.
  intros H. injection H as H.
  change (Pos.compare_cont Eq m' m) with (Pos.compare m' m) in H.
  apply Pos.compare_eq in H. now subst.
Qed.

Lemma candidate_sound m e num den k n d :
  candidate (S754_finite false m e) num den k n = Some d ->
  round_decimal false d (k - n) = S754_finite false m e.
Proof.
  unfold candidate. destruct (scale10 num den (n - k)) as [sn sd].
  cbv zeta.
  destruct (SFcompare (round_decimal false (sn / sd) (k - n)) _)
    as [[]|] eqn:E1;
  destruct (SFcompare (round_decimal false (sn / sd + 1) (k - n)) _)
    as [[]|] eqn:E2;
  try discriminate;
  repeat match goal with
         | |- context [if ?b then _ else _] => destruct b
         end;
  intros H; injection H as <-;
  first [ exact (SFcompare_eq_finite _ _ _ E1)
        | exact (SFcompare_eq_finite _ _ _ E2) ].
Qed.

Lemma shiftl_pow a e : 0 <= e -> Z.shiftl a e = a * 2 ^ e.
Proof. intros. apply Z.shiftl_mul_pow2. exact H. Qed.

Lemma pow10_split p : 0 <= p -> 10 ^ p = 2 ^ p * 5 ^ p.
Proof. intros. rewrite <- Z.pow_mul_l. reflexivity. Qed.

(** With enough digits the decimal expansion of a float is exact. *)
Lemma expansion_exact m e k n :
  valid_binary prec emax (S754_finite false m e) = true ->
  0 <= n - k -> - e <= n - k ->
  let '(num, den) := fraction m e in
  let '(sn, sd) := scale10 num den (n - k) in
  round_decimal false (sn / sd) (k - n) = S754_finite false m e.
Proof.
  intros V H0 H1. unfold fraction, scale10.
  set (p := n - k) in *. replace (k - n) with (- p) by (unfold p; lia).
  assert (Pp := pow10_pos p H0).
  destruct (Z.leb_spec 0 e) as [He|He].
  - destruct (Z.leb_spec 0 p); [|lia].
    rewrite shiftl_pow by lia. rewrite Z.div_1_r.
    assert (Pe := pow2_pos e He).
    unfold round_decimal.
    destruct (Z.pos m * 2 ^ e * 10 ^ p) as [|x|x] eqn:Ex; try nia.
    rewrite <- Ex. clear Ex x.
    destruct (Z.leb_spec 0 (- p)).
    + assert (Hp0 : p = 0) by lia. replace (- p) with 0 by lia.
      apply round_ratio_exact; try assumption; try nia.
      destruct (Z.leb_spec 0 e); [|lia]. rewrite Hp0, Z.pow_0_r. ring.
    + rewrite Z.opp_involutive.
      apply round_ratio_exact; try assumption; try nia.
      destruct (Z.leb_spec 0 e); [|lia]. ring.
  - destruct (Z.leb_spec 0 p); [|lia].
    rewrite shiftl_pow by lia. rewrite Z.mul_1_l.
    assert (Pe := pow2_pos (- e) ltac:(lia)).
    assert (E10 : 10 ^ p = 2 ^ (- e) * (2 ^ (p + e) * 5 ^ p)).
    { rewrite pow10_split by lia. rewrite Z.mul_assoc.
      rewrite <- Z.pow_add_r by lia. do 2 f_equal. lia. }
    assert (P5 : 0 < 2 ^ (p + e) * 5 ^ p).
    { apply Z.mul_pos_pos; apply Z.pow_pos_nonneg; lia. }
    assert (Q : Z.pos m * 10 ^ p / 2 ^ (- e)
                = Z.pos m * (2 ^ (p + e) * 5 ^ p)).
    { rewrite E10.
      replace (Z.pos m * (2 ^ (- e) * (2 ^ (p + e) * 5 ^ p)))
        with (Z.pos m * (2 ^ (p + e) * 5 ^ p) * 2 ^ (- e)) by ring.
      apply Z.div_mul. lia. }
    rewrite Q. clear Q. unfold round_decimal.
    destruct (Z.pos m * (2 ^ (p + e) * 5 ^ p)) as [|x|x] eqn:Ex; try nia.
    rewrite <- Ex. clear Ex x.
    destruct (Z.leb_spec 0 (- p)); [lia|]. rewrite Z.opp_involutive.
    apply round_ratio_exact; try assumption; try nia.
    destruct (Z.leb_spec 0 e); [lia|]. rewrite E10. ring.
Qed.

Lemma shortest_sound m e num den k :
  valid_binary prec emax (S754_finite false m e) = true ->
  fraction m e = (num, den) ->
  forall fuel n d n',
    0 <= n + Z.of_nat fuel - k -> - e <= n + Z.of_nat fuel - k ->
    shortest (S754_finite false m e) num den k n fuel = (d, n') ->
    round_decimal false d (k - n') = S754_finite false m e.
Proof.
  intros V F. induction fuel as [|g IH]; intros n d n' H0 H1; cbn [shortest].
  - intros H. injection H as <- <-.
    assert (X := expansion_exact m e k n V ltac:(lia) ltac:(lia)).
    rewrite F in X. destruct (scale10 num den (n - k)) as [sn sd]. exact X.
  - destruct (candidate _ num den k n) as [c|] eqn:C.
    + intros H. injection H as <- <-. exact (candidate_sound _ _ _ _ _ _ _ C).
    + apply IH; lia.
Qed.

(** ** Digit strings *)

Lemma is_digit_bounds c : is_digit c = true -> 0 <= digit_val c <= 9.
Proof.
  unfold is_digit, digit_val. intros H. apply andb_prop in H as [H1 H2].
  apply Z.leb_le in H1, H2. lia.
Qed.

Lemma Zlength_cons c s : Zlength (String c s) = Zlength s + 1.
Proof. unfold Zlength. cbn [String.length]. lia. Qed.

Lemma Zlength_nonneg s : 0 <= Zlength s.
Proof. unfold Zlength. lia. Qed.

Lemma Zlength_app a b : Zlength (a ++ b) = Zlength a + Zlength b.
Proof.
  induction a as [|c r IH]; [unfold Zlength; simpl; lia|].
  cbn [append]. rewrite !Zlength_cons, IH. lia.
Qed.

Lemma all_digits_app a b :
  all_digits (a ++ b) = all_digits a && all_digits b.
Proof.
  induction a as [|c r IH]; simpl; [reflexivity|].
  rewrite IH. apply andb_assoc.
Qed.

Lemma dnum_app acc a b : dnum acc (a ++ b) = dnum (dnum acc a) b.
Proof. revert acc. induction a as [|c r IH]; intros; simpl; auto. Qed.

Lemma dnum_acc acc s : dnum acc s = acc * 10 ^ Zlength s + dnum 0 s.
Proof.
  revert acc. induction s as [|c r IH]; intros acc.
  - simpl. unfold Zlength. simpl. lia.
  - cbn [dnum]. rewrite IH, (IH (10 * 0 + digit_val c)), Zlength_cons.
    rewrite Z.pow_add_r by (try apply Zlength_nonneg; lia). ring.
Qed.

Lemma dnum_nonneg s a : 0 <= a -> all_digits s = true -> 0 <= dnum a s.
Proof.
  revert a. induction s as [|c r IH]; intros a Ha H; [exact Ha|].
  simpl in H. apply andb_prop in H as [H1 H2]. cbn [dnum].
  apply IH; [|exact H2]. apply is_digit_bounds in H1. lia.
Qed.

Lemma digits_acc_stop a c s :
  not_digit_start s = true -> digits_acc a c s = (a, c, s).
Proof.
  destruct s as [|d r]; [reflexivity|]. simpl.
  destruct (is_digit d); [discriminate | reflexivity].
Qed.

Lemma digits_acc_app a c ds rest :
  all_digits ds = true ->
  digits_acc a c (ds ++ rest) = digits_acc (dnum a ds) (c + Zlength ds) rest.
Proof.
  revert a c. induction ds as [|d r IH]; intros a c H.
  - simpl. unfold Zlength. simpl. now rewrite Z.add_0_r.
  - simpl in H. apply andb_prop in H as [H1 H2].
    cbn [append digits_acc dnum]. rewrite H1, IH by exact H2.
    rewrite Zlength_cons.
    replace (c + 1 + Zlength r) with (c + (Zlength r + 1)) by lia.
    reflexivity.
Qed.

Lemma chr_digit d :
  0 <= d <= 9 ->
  is_digit (chr (48 + d)) = true /\ digit_val (chr (48 + d)) = d.
Proof.
  intros H.
  assert (C : d = 0 \/ d = 1 \/ d = 2 \/ d = 3 \/ d = 4 \/ d = 5 \/ d = 6
              \/ d = 7 \/ d = 8 \/ d = 9) by lia.
  repeat (destruct C as [->|C]; [split; reflexivity|]).
  subst. split; reflexivity.
Qed.

Lemma digits_fuel_spec fuel n acc :
  0 <= n < 2 ^ Z.of_nat fuel -> (0 < fuel)%nat ->
  exists D, digits_fuel fuel n acc = D ++ acc /\ all_digits D = true
            /\ dnum 0 D = n /\ D <> "" /\ Zlength D <= Z.of_nat fuel.
Proof.
  revert n acc. induction fuel as [|g IH]; intros n acc Hn Hf; [lia|].
  cbn [digits_fuel].
  assert (Hd : 0 <= n mod 10 <= 9) by (pose proof (Z.mod_pos_bound n 10); lia).
  destruct (chr_digit _ Hd) as [D1 D2].
  destruct (Z.ltb_spec n 10) as [L|L].
  - exists (String (chr (48 + n mod 10)) ""). cbn [append all_digits dnum].
    rewrite D1, D2. rewrite Z.mod_small by lia.
    repeat split; try reflexivity; try discriminate; try lia.
    rewrite Zlength_cons. unfold Zlength. simpl String.length. lia.
  - assert (Hg : (0 < g)%nat).
    { destruct g; [|lia]. simpl in Hn. lia. }
    assert (Hq : 0 <= n / 10 < 2 ^ Z.of_nat g).
    { split; [apply Z.div_pos; lia|].
      apply Z.div_lt_upper_bound; [lia|].
      rewrite Nat2Z.inj_succ, Z.pow_succ_r in Hn by lia.
      assert (0 < 2 ^ Z.of_nat g) by (apply pow2_pos; lia). lia. }
    destruct (IH (n / 10) (String (chr (48 + n mod 10)) acc) Hq Hg)
      as [D [E [A [V [NE Len]]]]].
    exists (D ++ String (chr (48 + n mod 10)) "").
    rewrite E, append_assoc. cbn [append].
    rewrite all_digits_app, A, dnum_app, V. cbn [all_digits dnum].
    rewrite D1, D2. repeat split; try reflexivity.
    + pose proof (Z.div_mod n 10). lia.
    + destruct D; [contradiction|discriminate].
    + rewrite Zlength_app, Zlength_cons. unfold Zlength at 2.
      simpl String.length. lia.
Qed.

Lemma digits_of_Z_spec n :
  0 <= n ->
  all_digits (digits_of_Z n) = true /\ dnum 0 (digits_of_Z n) = n
  /\ digits_of_Z n <> "" /\ Zlength (digits_of_Z n) <= Z.log2 n + 1.
Proof.
  intros Hn. unfold digits_of_Z.
  assert (L0 := Z.log2_nonneg n).
  assert (B : 0 <= n < 2 ^ Z.of_nat (S (Z.to_nat (Z.log2 n)))).
  { rewrite Nat2Z.inj_succ, Z2Nat.id by lia. split; [lia|].
    destruct (Z.eq_dec n 0) as [->|Hz]; [reflexivity|].
    apply Z.log2_spec. lia. }
  destruct (digits_fuel_spec _ n "" B ltac:(lia)) as [D [E [A [V [NE Len]]]]].
  rewrite E, append_nil_r. repeat split; try assumption.
  rewrite Nat2Z.inj_succ, Z2Nat.id in Len by lia. lia.
Qed.

Lemma all_digits_repeat_zero z : all_digits (repeat_char "0" z) = true.
Proof. induction z; simpl; auto. Qed.

Lemma Zlength_repeat c z : Zlength (repeat_char c z) = Z.of_nat z.
Proof.
  induction z; [reflexivity|]. cbn [repeat_char]. rewrite Zlength_cons. lia.
Qed.

Lemma dnum_repeat_zero acc z :
  dnum acc (repeat_char "0" z) = acc * 10 ^ Z.of_nat z.
Proof.
  revert acc. induction z as [|z IH]; intros acc.
  - simpl. lia.
  - cbn [repeat_char dnum]. rewrite IH, Nat2Z.inj_succ, Z.pow_succ_r by lia.
    change (digit_val "0") with 0. ring.
Qed.

Lemma strip_trailing_zeros_spec s :
  all_digits s = true ->
  exists z, s = strip_trailing_zeros s ++ repeat_char "0" z
            /\ all_digits (strip_trailing_zeros s) = true.
Proof.
  induction s as [|c r IH]; intros H.
  - exists O. split; reflexivity.
  - simpl in H. apply andb_prop in H as [H1 H2].
    destruct (IH H2) as [z [E A]]. cbn [strip_trailing_zeros].
    destruct (strip_trailing_zeros r) as [|c' r'] eqn:St.
    + destruct (Ascii.eqb_spec c "0") as [->|Hne].
      * exists (S z). split; [|reflexivity].
        cbn [append repeat_char]. f_equal. exact E.
      * exists z. split; [cbn [append]; f_equal; exact E|].
        cbn [all_digits]. now rewrite H1.
    + exists z. split; [cbn [append]; f_equal; exact E|].
      cbn [all_digits] in *. now rewrite H1.
Qed.

(** The digits of a valid finite float read back as the float. *)
Lemma dtoa_spec m e ds k :
  valid_binary prec emax (S754_finite false m e) = true ->
  dtoa m e = (ds, k) ->
  all_digits ds = true /\ ds <> ""
  /\ round_decimal false (dnum 0 ds) (k - Zlength ds) = S754_finite false m e.
Proof.
  intros V. unfold dtoa.
  destruct (fraction m e) as [num den] eqn:F.
  destruct (shortest _ num den (decpt num den) 1 max_digits) as [d n] eqn:Sh.
  intros H. injection H as <- <-.
  assert (Hm : 0 < Zpos m) by lia.
  apply valid_finite in V as V'.
  (* the position of the decimal point is small enough for the search *)
  assert (K : decpt num den <= 1025 /\ (e < 0 -> decpt num den <= 54)).
  { unfold decpt. unfold fraction in F.
    destruct (Z.leb_spec 0 e) as [He|He]; injection F as <- <-.
    - rewrite shiftl_pow by lia.
      assert (Pe := pow2_pos e He).
      destruct (Z.leb_spec 1 (Z.pos m * 2 ^ e)); [|nia].
      rewrite Z.div_1_r. split; [|lia].
      destruct (digits_of_Z_spec (Z.pos m * 2 ^ e) ltac:(nia))
        as [_ [_ [_ L]]].
      assert (Z.log2 (Z.pos m * 2 ^ e) < 1024).
      { apply Z.log2_lt_pow2; [nia|].
        assert (Z.pos m * 2 ^ e < 2 ^ 53 * 2 ^ e) by nia.
        assert (2 ^ 53 * 2 ^ e <= 2 ^ 53 * 2 ^ 971).
        { apply Z.mul_le_mono_nonneg_l; [lia|].
          apply Z.pow_le_mono_r; unfold emin in V'; lia. }
        change (2 ^ 1024) with (2 ^ 53 * 2 ^ 971). lia. }
      lia.
    - rewrite shiftl_pow by lia. rewrite Z.mul_1_l.
      assert (Pe := pow2_pos (- e) ltac:(lia)).
      destruct (Z.leb_spec (2 ^ (- e)) (Z.pos m)) as [L|L].
      + assert (Q0 : 0 <= Z.pos m / 2 ^ (- e)) by (apply Z.div_pos; lia).
        destruct (digits_of_Z_spec _ Q0) as [_ [_ [_ Len]]].
        assert (Z.log2 (Z.pos m / 2 ^ (- e)) <= Z.log2 (Z.pos m)).
        { apply Z.log2_le_mono. apply Z.div_le_upper_bound; nia. }
        assert (Z.log2 (Z.pos m) < 53) by (apply Z.log2_lt_pow2; lia).
        lia.
      + pose proof (Zlength_nonneg (digits_of_Z ((2 ^ (- e) - 1) / Z.pos m))).
        lia. }
  assert (R := shortest_sound m e num den (decpt num den) V F
                 max_digits 1 d n).
  change (Z.of_nat max_digits) with 1400 in R.
  specialize (R ltac:(lia)
                (ltac:(unfold emin in V'; destruct K; lia)) Sh).
  assert (Hd : 0 < d).
  { destruct d as [|d'|d']; try lia; discriminate R. }
  destruct (digits_of_Z_spec d ltac:(lia)) as [A [Vd [NE _]]].
  destruct (strip_trailing_zeros_spec _ A) as [z [E As]].
  assert (Vs : d = dnum 0 (strip_trailing_zeros (digits_of_Z d))
                   * 10 ^ Z.of_nat z).
  { rewrite <- Vd at 1. rewrite E at 1. rewrite dnum_app.
    apply dnum_repeat_zero. }
  assert (Ls : Zlength (digits_of_Z d)
               = Zlength (strip_trailing_zeros (digits_of_Z d)) + Z.of_nat z).
  { rewrite E at 1. rewrite Zlength_app, Zlength_repeat. reflexivity. }
  set (ds := strip_trailing_zeros (digits_of_Z d)) in *.
  assert (Hs : 0 < dnum 0 ds).
  { assert (0 < 10 ^ Z.of_nat z) by (apply pow10_pos; lia).
    assert (0 <= dnum 0 ds) by (apply dnum_nonneg; [lia | exact As]).
    nia. }
  split; [exact As|]. split.
  - intros Z0. rewrite Z0 in Hs. simpl in Hs. lia.
  - rewrite <- R.
    replace (decpt num den + (Zlength (digits_of_Z d) - n) - Zlength ds)
      with (decpt num den - n + Z.of_nat z) by lia.
    rewrite <- round_decimal_shift by lia. now rewrite <- Vs.
Qed.

(** ** Reading what [repr] writes *)

Lemma plain_char_facts c :
  plain_char c = true ->
  (ord c <? 127) = true /\ c_isspace c = false /\ Ascii.eqb c "_" = false.
Proof.
  unfold plain_char. rewrite !orb_true_iff.
  intros [[[[H|H]|H]|H]|H];
    try (apply Ascii.eqb_eq in H; subst c; repeat split; reflexivity).
  unfold is_digit in H. apply andb_prop in H as [H1 H2].
  apply Z.leb_le in H1, H2. repeat split.
  - apply Z.ltb_lt. lia.
  - unfold c_isspace.
    replace (ord c <=? 13) with false by (symmetry; apply Z.leb_gt; lia).
    replace (ord c =? 32) with false by (symmetry; apply Z.eqb_neq; lia).
    now rewrite andb_false_r.
  - apply Ascii.eqb_neq. intros ->. vm_compute in H2. congruence.
Qed.

Lemma all_plain_app a b : all_plain (a ++ b) = all_plain a && all_plain b.
Proof.
  induction a as [|c r IH]; simpl; [reflexivity|].
  rewrite IH. apply andb_assoc.
Qed.

Lemma all_digits_plain s : all_digits s = true -> all_plain s = true.
Proof.
  induction s as [|c r IH]; simpl; [reflexivity|].
  intros H. apply andb_prop in H as [H1 H2]. rewrite (IH H2).
  unfold plain_char. now rewrite H1.
Qed.

Lemma to_ascii_plain s : all_plain s = true -> to_ascii s = s.
Proof.
  induction s as [|c r IH]; simpl; [reflexivity|].
  intros H. apply andb_prop in H as [H1 H2].
  destruct (plain_char_facts c H1) as [L _].
  unfold to_ascii_char. rewrite L, (IH H2). reflexivity.
Qed.

Lemma c_lstrip_plain s : all_plain s = true -> c_lstrip s = s.
Proof.
  destruct s as [|c r]; simpl; [reflexivity|].
  intros H. apply andb_prop in H as [H1 _].
  destruct (plain_char_facts c H1) as [_ [S _]]. now rewrite S.
Qed.

Lemma c_rstrip_plain s : all_plain s = true -> c_rstrip s = s.
Proof.
  induction s as [|c r IH]; simpl; [reflexivity|].
  intros H. apply andb_prop in H as [H1 H2].
  destruct (plain_char_facts c H1) as [_ [S _]].
  rewrite (IH H2), S. destruct r; reflexivity.
Qed.

Lemma strip_underscores_plain prev s :
  all_plain s = true -> Ascii.eqb prev "_" = false ->
  strip_underscores prev s = Some s.
Proof.
  revert prev. induction s as [|c r IH]; intros prev H P; simpl.
  - now rewrite P.
  - simpl in H. apply andb_prop in H as [H1 H2].
    destruct (plain_char_facts c H1) as [_ [_ U]].
    rewrite U, P. cbn [andb]. now rewrite (IH c H2 U).
Qed.

Lemma float_of_string_plain s :
  all_plain s = true ->
  float_of_string s
  = match string_to_double s with
    | Some f => Ok f
    | None => Raise ValueError
    end.
Proof.
  intros H. unfold float_of_string.
  rewrite (to_ascii_plain s H), (c_lstrip_plain s H), (c_rstrip_plain s H).
  rewrite (strip_underscores_plain "000" s H eq_refl). reflexivity.
Qed.

Lemma take_sign_digit s : digit_start s = true -> take_sign s = (false, s).
Proof.
  destruct s as [|c r]; simpl; [discriminate|]. intros H.
  assert (P : plain_char c = true) by (unfold plain_char; now rewrite H).
  destruct (Ascii.eqb_spec c "-") as [->|_]; [discriminate H|].
  destruct (Ascii.eqb_spec c "+") as [->|_]; [discriminate H|]. reflexivity.
Qed.

Lemma parse_exponent_text x : parse_exponent (exponent_text x) = (x, "").
Proof.
  unfold exponent_text.
  destruct (digits_of_Z_spec (Z.abs x) ltac:(lia)) as [A [V [NE _]]].
  set (xs := if Z.abs x <? 10 then String "0" (digits_of_Z (Z.abs x))
             else digits_of_Z (Z.abs x)).
  assert (Ax : all_digits xs = true)
    by (unfold xs; destruct (Z.abs x <? 10); [simpl; now rewrite A | exact A]).
  assert (Vx : dnum 0 xs = Z.abs x)
    by (unfold xs; destruct (Z.abs x <? 10); [simpl; exact V | exact V]).
  assert (Lx : 0 < Zlength xs).
  { unfold xs. destruct (Z.abs x <? 10).
    - rewrite Zlength_cons. pose proof (Zlength_nonneg (digits_of_Z (Z.abs x))).
      lia.
    - destruct (digits_of_Z (Z.abs x)); [contradiction|].
      rewrite Zlength_cons. pose proof (Zlength_nonneg s). lia. }
  assert (D : digits_acc 0 0 xs = (Z.abs x, Zlength xs, "")).
  { rewrite <- (append_nil_r xs) at 1.
    rewrite digits_acc_app by exact Ax. rewrite Vx. reflexivity. }
  cbn [append parse_exponent]. change (is_e "e") with true. cbv iota.
  destruct (Z.ltb_spec x 0) as [L|L]; cbn [append take_sign];
    simpl Ascii.eqb; cbv iota; rewrite D;
    (destruct (Z.eqb_spec (Zlength xs) 0) as [Z0|_]; [lia|]);
    f_equal; lia.
Qed.

Lemma parse_exponent_nil : parse_exponent "" = (0, "").
Proof. reflexivity. Qed.

Lemma parse_decimal_dot A B X x :
  all_digits A = true -> all_digits B = true ->
  0 < Zlength A + Zlength B ->
  not_digit_start X = true -> parse_exponent X = (x, "") ->
  parse_decimal (A ++ "." ++ B ++ X)
  = Some (dnum (dnum 0 A) B, x - Zlength B, "").
Proof.
  intros HA HB L NX PX. unfold parse_decimal.
  rewrite digits_acc_app by exact HA.
  rewrite digits_acc_stop by reflexivity.
  cbn [append]. simpl Ascii.eqb. cbv iota.
  rewrite digits_acc_app by exact HB.
  rewrite digits_acc_stop by exact NX.
  destruct (Z.eqb_spec (0 + Zlength A + (0 + Zlength B)) 0); [lia|].
  rewrite PX. reflexivity.
Qed.

Lemma parse_decimal_nodot A X x :
  all_digits A = true -> 0 < Zlength A ->
  not_digit_dot_start X = true -> parse_exponent X = (x, "") ->
  parse_decimal (A ++ X) = Some (dnum 0 A, x, "").
Proof.
  intros HA L NX PX. unfold parse_decimal.
  rewrite digits_acc_app by exact HA.
  assert (ND : not_digit_start X = true).
  { destruct X; [reflexivity|]. simpl in *. now apply andb_prop in NX. }
  rewrite digits_acc_stop by exact ND.
  assert (E : match X with
              | String c r => if Ascii.eqb c "." then digits_acc (dnum 0 A) 0 r
                              else (dnum 0 A, 0, X)
              | EmptyString => (dnum 0 A, 0, X)
              end = (dnum 0 A, 0, X)).
  { destruct X as [|c r]; [reflexivity|]. simpl in NX.
    apply andb_prop in NX as [_ N]. apply negb_true_iff in N. now rewrite N. }
  rewrite E.
  destruct (Z.eqb_spec (0 + Zlength A + 0) 0); [lia|].
  rewrite PX. rewrite Z.sub_0_r. reflexivity.
Qed.

Lemma take_drop n s : take n s ++ drop n s = s.
Proof.
  revert s. induction n as [|n IH]; intros [|c r]; simpl; try reflexivity.
  now rewrite IH.
Qed.

Lemma Zlength_take n s :
  Z.of_nat n <= Zlength s -> Zlength (take n s) = Z.of_nat n.
Proof.
  revert s. induction n as [|n IH]; intros [|c r] H; try reflexivity.
  - unfold Zlength in H. simpl in H. lia.
  - cbn [take]. rewrite Zlength_cons in *. rewrite IH by lia. lia.
Qed.

Lemma digit_start_app a b :
  digit_start a = true -> digit_start (a ++ b) = true.
Proof. destruct a; [discriminate | trivial]. Qed.

Lemma all_digits_digit_start s :
  all_digits s = true -> s <> "" -> digit_start s = true.
Proof.
  destruct s; [contradiction|]. simpl. intros H _.
  now apply andb_prop in H.
Qed.

Lemma exponent_text_plain x : all_plain (exponent_text x) = true.
Proof.
  unfold exponent_text.
  destruct (digits_of_Z_spec (Z.abs x) ltac:(lia)) as [A _].
  apply all_digits_plain in A.
  destruct (x <? 0), (Z.abs x <? 10); cbn [append all_plain]; rewrite A;
    reflexivity.
Qed.

Lemma exponent_text_start x :
  exists r, exponent_text x = String "e" r.
Proof. unfold exponent_text. cbn [append]. eauto. Qed.

(** What reading the text of [format_short] gives. *)
Lemma format_short_parse ds k :
  all_digits ds = true -> 0 < dnum 0 ds ->
  all_plain (format_short ds k) = true
  /\ digit_start (format_short ds k) = true
  /\ exists M E,
       parse_decimal (format_short ds k) = Some (M, E, "")
       /\ forall s, round_decimal s M E
                    = round_decimal s (dnum 0 ds) (k - Zlength ds).
Proof.
  intros A Pos.
  assert (NE : ds <> "") by (intros ->; simpl in Pos; lia).
  assert (Pl := all_digits_plain ds A).
  assert (Ln := Zlength_nonneg ds).
  unfold format_short.
  destruct ((k <=? -4) || (16 <? k)) eqn:Exp.
  - (* exponent notation *)
    change (?m ++ "e" ++ (if (k - 1 <? 0)%Z then "-" else "+")
             ++ (if Z.abs (k - 1) <? 10
                 then String "0" (digits_of_Z (Z.abs (k - 1)))
                 else digits_of_Z (Z.abs (k - 1))))
      with (m ++ exponent_text (k - 1)).
    destruct (exponent_text_start (k - 1)) as [xr Ex].
    assert (PX := parse_exponent_text (k - 1)).
    assert (AX := exponent_text_plain (k - 1)).
    destruct ds as [|c r]; [contradiction|].
    simpl in A. apply andb_prop in A as [A1 A2].
    destruct r as [|c' r'].
    + split; [|split].
      * cbn [append all_plain]. rewrite AX.
        unfold plain_char. now rewrite A1.
      * cbn [append digit_start]. exact A1.
      * exists (dnum 0 (String c "")), (k - 1). split.
        -- apply parse_decimal_nodot.
           ++ simpl. now rewrite A1.
           ++ rewrite Zlength_cons. unfold Zlength. simpl. lia.
           ++ rewrite Ex. reflexivity.
           ++ exact PX.
        -- intros s. f_equal; rewrite ?Zlength_cons; unfold Zlength; simpl;
             lia.
    + set (r := String c' r') in *.
      split; [|split].
      * cbn [append all_plain]. rewrite all_plain_app, AX.
        rewrite (all_digits_plain r A2).
        unfold plain_char at 1. rewrite A1. reflexivity.
      * cbn [append digit_start]. exact A1.
      * exists (dnum (dnum 0 (String c "")) r), (k - 1 - Zlength r). split.
        -- change (String c (String "." r) ++ exponent_text (k - 1))
             with (String c "" ++ "." ++ r ++ exponent_text (k - 1)).
           apply parse_decimal_dot.
           ++ simpl. now rewrite A1.
           ++ exact A2.
           ++ rewrite Zlength_cons. pose proof (Zlength_nonneg r).
              unfold Zlength at 1. simpl. lia.
           ++ rewrite Ex. reflexivity.
           ++ exact PX.
        -- intros s. f_equal; rewrite ?Zlength_cons; lia.
  - destruct (Z.leb_spec k 0) as [K0|K0].
    + (* 0.000ddd *)
      set (z := Z.to_nat (- k)).
      assert (AZ : all_digits (repeat_char "0" z ++ ds) = true)
        by (rewrite all_digits_app, all_digits_repeat_zero; exact A).
      split; [|split].
      * cbn [append all_plain]. rewrite (all_digits_plain _ AZ). reflexivity.
      * reflexivity.
      * exists (dnum (dnum 0 "0") (repeat_char "0" z ++ ds)),
          (0 - Zlength (repeat_char "0" z ++ ds)). split.
        -- change ("0." ++ repeat_char "0" z ++ ds)
             with ("0" ++ "." ++ (repeat_char "0" z ++ ds)).
           rewrite <- (append_nil_r (repeat_char "0" z ++ ds)) at 1.
           apply parse_decimal_dot; try reflexivity; try exact AZ.
           rewrite Zlength_app. pose proof (Zlength_nonneg (repeat_char "0" z)).
           assert (0 < Zlength ds)
             by (destruct ds; [contradiction|]; rewrite Zlength_cons;
                 pose proof (Zlength_nonneg ds); lia).
           change (Zlength "0") with 1. lia.
        -- intros s. rewrite dnum_app, dnum_repeat_zero.
           change (dnum 0 "0") with 0. rewrite Z.mul_0_l.
           f_equal. rewrite Zlength_app, Zlength_repeat. unfold z.
           rewrite Z2Nat.id by lia. lia.
    + destruct (Z.ltb_spec k (Zlength ds)) as [KL|KL].
      * (* dd.ddd *)
        set (n := Z.to_nat k).
        assert (TD := take_drop n ds).
        assert (AT : all_digits (take n ds) = true
                     /\ all_digits (drop n ds) = true).
        { rewrite <- TD in A. rewrite all_digits_app in A.
          now apply andb_prop in A. }
        destruct AT as [AT AD].
        assert (LT : Zlength (take n ds) = k).
        { rewrite Zlength_take; unfold n; rewrite Z2Nat.id; lia. }
        assert (LD : Zlength (drop n ds) = Zlength ds - k).
        { rewrite <- TD in Ln |- * at 2. rewrite Zlength_app. lia. }
        split; [|split].
        -- rewrite !all_plain_app, (all_digits_plain _ AT),
             (all_digits_plain _ AD). reflexivity.
        -- apply digit_start_app. apply all_digits_digit_start; [exact AT|].
           intros Z0. rewrite Z0 in LT. unfold Zlength in LT. simpl in LT. lia.
        -- exists (dnum (dnum 0 (take n ds)) (drop n ds)),
             (0 - Zlength (drop n ds)). split.
           ++ rewrite <- (append_nil_r (drop n ds)) at 1.
              apply parse_decimal_dot; try reflexivity; try assumption. lia.
           ++ intros s. rewrite <- dnum_app, TD. f_equal. lia.
      * (* ddd000.0 *)
        set (j := Z.to_nat (k - Zlength ds)).
        assert (AZ : all_digits (ds ++ repeat_char "0" j) = true)
          by (rewrite all_digits_app, all_digits_repeat_zero, A; reflexivity).
        split; [|split].
        -- rewrite !all_plain_app, Pl,
             (all_digits_plain _ (all_digits_repeat_zero j)). reflexivity.
        -- apply digit_start_app. apply all_digits_digit_start; assumption.
        -- exists (dnum (dnum 0 (ds ++ repeat_char "0" j)) "0"),
             (0 - Zlength "0"). split.
           ++ change (ds ++ repeat_char "0" j ++ ".0")
                with (ds ++ repeat_char "0" j ++ "." ++ "0" ++ "").
              rewrite <- append_assoc.
              apply parse_decimal_dot; try reflexivity; try assumption.
              rewrite Zlength_app. pose proof (Zlength_nonneg (repeat_char "0" j)).
              change (Zlength "0") with 1. lia.
           ++ intros s. rewrite dnum_app, dnum_repeat_zero.
              cbn [dnum]. change (digit_val "0") with 0.
              change (0 - Zlength "0") with (-1).
              replace (10 * (dnum 0 ds * 10 ^ Z.of_nat j) + 0)
                with (dnum 0 ds * 10 ^ (Z.of_nat j + 1))
                by (rewrite Z.pow_add_r by lia; ring).
              rewrite round_decimal_shift by lia. f_equal.
              unfold j. rewrite Z2Nat.id by lia. lia.
Qed.

(** Reading [repr(f)] gives [f] back, for every float but NaN. *)
Theorem float_repr_roundtrip f :
  valid_binary prec emax f = true -> is_nan f = false ->
  float_of_string (float_repr f) = Ok f.
Proof.
  intros V N. destruct f as [s|s| |s m e]; try discriminate N.
  - destruct s; vm_compute; reflexivity.
  - destruct s; vm_compute; reflexivity.
  - unfold float_repr. destruct (dtoa m e) as [ds k] eqn:D.
    destruct (dtoa_spec m e ds k V D) as [A [NE R]].
    assert (Pos : 0 < dnum 0 ds).
    { destruct (dnum 0 ds) as [|p|p] eqn:E; try lia; discriminate R. }
    destruct (format_short_parse ds k A Pos) as [Pl [St [M [E [P Q]]]]].
    assert (G : string_to_double ((if s then "-" else "") ++ format_short ds k)
                = Some (round_decimal s M E)).
    { unfold string_to_double. destruct s.
      - cbn [append take_sign]. simpl Ascii.eqb. cbv iota. now rewrite P.
      - cbn [append]. rewrite (take_sign_digit _ St). now rewrite P. }
    rewrite float_of_string_plain.
    + rewrite G. f_equal. rewrite Q, round_decimal_sign, R. reflexivity.
    + destruct s; [cbn [append all_plain]; rewrite Pl; reflexivity|exact Pl].
Qed.

(** ** The floats that the parser gives are valid *)

Lemma cut_bound num den ex t :
  0 <= t ->
  le_pow2 (t + ex) num den
  = (2 ^ t * snd (cut num den ex) <=? fst (cut num den ex)).
Proof.
  intros Ht. unfold cut. destruct (Z.leb_spec 0 ex) as [He|He]; cbn [fst snd].
  - rewrite (le_pow2_shift _ _ _ 0) by lia.
    rewrite Z.add_0_r, Z.pow_0_r, Z.mul_1_r, Z.pow_add_r by lia.
    f_equal. ring.
  - rewrite (le_pow2_shift _ _ _ (- ex)) by lia.
    replace (t + ex + - ex) with t by lia. reflexivity.
Qed.

Lemma cut_pos num den ex :
  0 < num -> 0 < den ->
  0 < fst (cut num den ex) /\ 0 < snd (cut num den ex).
Proof.
  intros Hn Hd. unfold cut. destruct (Z.leb_spec 0 ex); cbn [fst snd].
  - assert (0 < 2 ^ ex) by (apply pow2_pos; lia). split; nia.
  - assert (0 < 2 ^ (- ex)) by (apply pow2_pos; lia). split; nia.
Qed.

Lemma round_ratio_valid s num den :
  0 < num -> 0 < den -> valid_binary prec emax (round_ratio s num den) = true.
Proof.
  intros Hn Hd.
  destruct (ilog2_spec num den Hn Hd) as [S1 S2].
  unfold round_ratio.
  set (j := ilog2 num den) in *.
  set (ex := Z.max (j - 52) emin).
  change (if 0 <=? ex then (num, den * 2 ^ ex) else (num * 2 ^ (- ex), den))
    with (cut num den ex).
  destruct (cut_pos num den ex Hn Hd) as [Pn Pd].
  destruct (cut num den ex) as [n d] eqn:C. cbn [fst snd] in Pn, Pd.
  (* the quotient is below [2^53], and at least [2^52] above [emin] *)
  assert (Hi : n / d < 2 ^ 53 /\ (ex = emin -> j - 52 < emin -> n / d < 2 ^ 52)).
  { split.
    - apply Z.div_lt_upper_bound; [lia|].
      assert (X : le_pow2 (53 + ex) num den = false).
      { destruct (le_pow2 (53 + ex) num den) eqn:E; [|reflexivity].
        rewrite (le_pow2_mono (j + 1) (53 + ex) num den Hn Hd) in S2;
          [discriminate | unfold ex; lia | exact E]. }
      rewrite cut_bound, C in X by lia. cbn [fst snd] in X.
      apply Z.leb_gt in X. lia.
    - intros E1 E2. apply Z.div_lt_upper_bound; [lia|].
      assert (X : le_pow2 (52 + ex) num den = false).
      { destruct (le_pow2 (52 + ex) num den) eqn:E; [|reflexivity].
        rewrite (le_pow2_mono (j + 1) (52 + ex) num den Hn Hd) in S2;
          [discriminate | lia | exact E]. }
      rewrite cut_bound, C in X by lia. cbn [fst snd] in X.
      apply Z.leb_gt in X. lia. }
  assert (Lo : emin <= j - 52 -> 2 ^ 52 <= n / d).
  { intros E. apply Z.div_le_lower_bound; [lia|].
    assert (X : le_pow2 (52 + ex) num den = true).
    { replace (52 + ex) with j by (unfold ex; lia). exact S1. }
    rewrite cut_bound, C in X by lia. cbn [fst snd] in X.
    apply Z.leb_le in X. lia. }
  assert (Q0 : 0 <= n / d) by (apply Z.div_pos; lia).
  destruct Hi as [Hi1 Hi2].
  set (q' := if (d <? 2 * (n mod d)) || (d =? 2 * (n mod d)) && Z.odd (n / d)
             then n / d + 1 else n / d).
  assert (Hq : n / d <= q' <= n / d + 1)
    by (unfold q'; destruct (_ || _); lia).
  assert (Eex : emin <= ex) by (unfold ex; lia).
  destruct (Z.eqb_spec q' (2 ^ 53)) as [E|E].
  - change (2 ^ 52) with (Zpos (2 ^ 52)).
    destruct (Z.leb_spec (ex + 1) (emax - prec)) as [L|L]; [|reflexivity].
    apply valid_finite. left. unfold emax, prec in L. lia.
  - destruct q' as [|p|p] eqn:Eq; try reflexivity.
    destruct (Z.leb_spec ex (emax - prec)) as [L|L]; [|reflexivity].
    apply valid_finite. unfold emax, prec in L.
    destruct (Z_lt_le_dec (j - 52) emin) as [B|B].
    + assert (ex = emin) by (unfold ex; lia).
      specialize (Hi2 H B).
      destruct (Z.eq_dec (Zpos p) (2 ^ 52)) as [T|T].
      * left. rewrite T. lia.
      * right. split; lia.
    + left. specialize (Lo B). lia.
Qed.

Lemma round_decimal_valid s m e10 :
  valid_binary prec emax (round_decimal s m e10) = true.
Proof.
  unfold round_decimal. destruct m as [|p|p]; try reflexivity.
  destruct (Z.leb_spec 0 e10).
  - apply round_ratio_valid; [|lia].
    assert (0 < 10 ^ e10) by (apply pow10_pos; lia). nia.
  - apply round_ratio_valid; [lia|]. apply pow10_pos. lia.
Qed.

Lemma float_of_string_valid s f :
  float_of_string s = Ok f -> valid_binary prec emax f = true.
Proof.
  unfold float_of_string.
  destruct (strip_underscores _ _) as [u|]; [|discriminate].
  unfold string_to_double. destruct (take_sign u) as [sg r].
  destruct (parse_decimal r) as [[[m e10] [|c rest]]|].
  - intros H. injection H as <-. apply round_decimal_valid.
  - discriminate.
  - unfold parse_inf_or_nan.
    destruct (match_word "inf" r) as [r1|].
    + destruct (match_word "inity" r1) as [[|c t]|]; try discriminate.
      * intros H. injection H as <-. reflexivity.
      * destruct r1; [|discriminate]. intros H. injection H as <-. reflexivity.
    + destruct (match_word "nan" r) as [[|c t]|]; try discriminate.
      intros H. injection H as <-. reflexivity.
Qed.

(** ** Integers read back *)

Lemma int_repr_parse n :
  float_of_string (int_repr n) = Ok (round_decimal (n <? 0) (Z.abs n) 0).
Proof.
  unfold int_repr.
  assert (G : forall a, 0 <= a ->
            parse_decimal (digits_of_Z a) = Some (a, 0, "")
            /\ all_plain (digits_of_Z a) = true
            /\ digit_start (digits_of_Z a) = true).
  { intros a Ha. destruct (digits_of_Z_spec a Ha) as [A [V [NE _]]].
    split; [|split].
    - rewrite <- (append_nil_r (digits_of_Z a)).
      rewrite (parse_decimal_nodot _ "" 0 A); try reflexivity.
      + now rewrite V.
      + destruct (digits_of_Z a); [contradiction|].
        rewrite Zlength_cons. pose proof (Zlength_nonneg s). lia.
    - apply all_digits_plain, A.
    - apply all_digits_digit_start; assumption. }
  destruct (Z.ltb_spec n 0) as [L|L].
  - destruct (G (- n) ltac:(lia)) as [P [Pl St]].
    rewrite float_of_string_plain
      by (cbn [all_plain]; rewrite Pl; reflexivity).
    unfold string_to_double. cbn [take_sign]. simpl Ascii.eqb. cbv iota.
    rewrite P. do 2 f_equal. lia.
  - destruct (G n L) as [P [Pl St]].
    rewrite float_of_string_plain by exact Pl.
    unfold string_to_double. rewrite (take_sign_digit _ St), P.
    do 2 f_equal. lia.
Qed.

(** An integer below [2^53] is a float, and converts back to itself. *)
Lemma int_of_round_small s a :
  0 < a < 2 ^ 53 -> int_of_float (round_decimal s a 0) = Ok (signed s a).
Proof.
  intros Ha.
  destruct (Z.log2_spec a ltac:(lia)) as [L1 L2].
  assert (L0 := Z.log2_nonneg a).
  assert (L52 : Z.log2 a < 53) by (apply Z.log2_lt_pow2; lia).
  set (l := Z.log2 a) in *. set (t := 52 - l).
  assert (Pt := pow2_pos t ltac:(unfold t; lia)).
  assert (B : 2 ^ 52 <= a * 2 ^ t < 2 ^ 53).
  { replace 52 with (l + t) at 1 by (unfold t; lia).
    replace 53 with (Z.succ l + t) by (unfold t; lia).
    rewrite !Z.pow_add_r by (unfold t; lia). nia. }
  destruct (a * 2 ^ t) as [|m|m] eqn:Em; try lia.
  assert (V : valid_binary prec emax (S754_finite s m (- t)) = true).
  { apply valid_finite. left. unfold emin, t. lia. }
  assert (R : round_decimal s a 0 = S754_finite s m (- t)).
  { unfold round_decimal. destruct a as [|pa|pa]; try lia.
    cbn [Z.leb Z.compare]. rewrite Z.pow_0_r, Z.mul_1_r.
    apply round_ratio_exact; try lia; [exact V|].
    destruct (Z.leb_spec 0 (- t)) as [T|T].
    - assert (t = 0) by (unfold t in *; lia).
      rewrite H in Em. rewrite Z.mul_1_r, <- Em.
      replace (- t) with 0 by lia. simpl. lia.
    - rewrite Z.opp_involutive, Z.mul_1_r. exact Em. }
  rewrite R, int_of_float_finite. f_equal.
  destruct (Z.leb_spec 0 (- t)) as [T|T].
  - assert (T0 : t = 0) by (unfold t in *; lia).
    rewrite T0 in Em |- *. simpl. unfold signed.
    rewrite Z.mul_1_r in Em. destruct s; lia.
  - rewrite Z.opp_involutive. rewrite <- Em. unfold signed.
    destruct s.
    + rewrite Z.quot_opp_l, Z.quot_mul by lia. reflexivity.
    + rewrite Z.quot_mul by lia. reflexivity.
Qed.

(** The integer value of a float with no fractional bits converts back. *)
Lemma int_of_round_large s m e :
  valid_binary prec emax (S754_finite s m e) = true -> 0 <= e ->
  int_of_float (round_decimal s (Zpos m * 2 ^ e) 0)
  = Ok (signed s (Zpos m * 2 ^ e)).
Proof.
  intros V He. assert (Pe := pow2_pos e He).
  assert (R : round_decimal s (Zpos m * 2 ^ e) 0 = S754_finite s m e).
  { unfold round_decimal.
    destruct (Z.pos m * 2 ^ e) as [|x|x] eqn:Ex; try nia. rewrite <- Ex.
    cbn [Z.leb Z.compare]. rewrite Z.pow_0_r, Z.mul_1_r.
    apply round_ratio_exact; try nia; [exact V|].
    destruct (Z.leb_spec 0 e); lia. }
  rewrite R, int_of_float_finite.
  destruct (Z.leb_spec 0 e); [|lia]. f_equal. unfold signed.
  destruct s; lia.
Qed.

Lemma signed_abs s a : 0 < a -> (signed s a <? 0) = s /\ Z.abs (signed s a) = a.
Proof.
  intros Ha. unfold signed. destruct s; split; lia.
Qed.

Lemma int_repr_not_empty n : int_repr n <> "".
Proof.
  unfold int_repr. destruct (n <? 0); [discriminate|].
  destruct (Z.le_gt_cases 0 n) as [H|H].
  - apply digits_of_Z_spec. exact H.
  - destruct n; try lia. discriminate.
Qed.

(** Reading [str(n)] with the integer conversion gives [n] back, for the
    integer [n] of any float. *)
Lemma integer_roundtrip f n :
  valid_binary prec emax f = true -> int_of_float f = Ok n ->
  clean_integer (VStr (int_repr n)) = Ok (VInt n).
Proof.
  intros V H.
  assert (Z0 : clean_integer (VStr (int_repr 0)) = Ok (VInt 0))
    by (vm_compute; reflexivity).
  rewrite clean_integer_eq.
  2:{ pose proof (int_repr_not_empty n).
      unfold blank. simpl. destruct (int_repr n); [contradiction|reflexivity]. }
  cbn [py_str]. rewrite int_repr_parse.
  assert (G : forall s a, 0 < a ->
            int_of_float (round_decimal s a 0) = Ok (signed s a) ->
            integer_of (round_decimal (signed s a <? 0) (Z.abs (signed s a)) 0)
            = Ok (VInt (signed s a))).
  { intros s a Ha E. destruct (signed_abs s a Ha) as [-> ->].
    destruct (round_decimal s a 0) as [s'|s'| |s' m' e']; try discriminate E.
    - simpl in E. injection E as <-. reflexivity.
    - rewrite int_of_float_finite in E. injection E as <-. reflexivity. }
  destruct f as [s|s| |s m e]; try discriminate H.
  - injection H as <-. reflexivity.
  - rewrite int_of_float_finite in H. injection H as <-.
    destruct (Z.leb_spec 0 e) as [He|He].
    + assert (Pe := pow2_pos e He).
      replace (signed s (Z.pos m) * 2 ^ e) with (signed s (Z.pos m * 2 ^ e))
        by (unfold signed; destruct s; ring).
      apply G; [nia|]. apply int_of_round_large; assumption.
    + assert (Pe := pow2_pos (- e) ltac:(lia)).
      assert (Q : signed s (Z.pos m) ÷ 2 ^ (- e)
                  = signed s (Z.pos m ÷ 2 ^ (- e))).
      { unfold signed. destruct s; [|reflexivity].
        apply Z.quot_opp_l. lia. }
      rewrite Q.
      assert (B : 0 <= Z.pos m ÷ 2 ^ (- e) <= Z.pos m).
      { rewrite Z.quot_div_nonneg by lia. split.
        - apply Z.div_pos; lia.
        - apply Z.div_le_upper_bound; nia. }
      destruct (Z.eq_dec (Z.pos m ÷ 2 ^ (- e)) 0) as [E0|E0].
      * rewrite E0. unfold signed. destruct s; reflexivity.
      * apply valid_finite in V.
        apply G; [lia|]. apply int_of_round_small.
        destruct V as [[? ?]|[? ?]]; lia.
Qed.

(** ** Dates read back *)

Lemma forallb_zrange (P : Z -> bool) lo n x :
  forallb P (zrange lo n) = true -> lo <= x < lo + Z.of_nat n -> P x = true.
Proof.
  intros H Hx. rewrite forallb_forall in H. apply H.
  unfold zrange. apply in_map_iff. exists (Z.to_nat (x - lo)). split; [lia|].
  apply in_seq. lia.
Qed.

Lemma digits_fuel_length fuel : forall n k acc,
  0 <= n < 10 ^ k -> 1 <= k ->
  Zlength (digits_fuel fuel n acc) <= k + Zlength acc.
Proof.
  induction fuel as [|g IH]; intros n k acc Hn Hk; cbn [digits_fuel].
  - lia.
  - destruct (Z.ltb_spec n 10) as [L|L].
    + rewrite Zlength_cons. lia.
    + assert (K2 : 2 <= k).
      { destruct (Z.eq_dec k 1) as [->|]; [simpl in Hn; lia | lia]. }
      assert (Hq : 0 <= n / 10 < 10 ^ (k - 1)).
      { split; [apply Z.div_pos; lia|].
        apply Z.div_lt_upper_bound; [lia|].
        rewrite <- Z.pow_succ_r by lia. replace (Z.succ (k - 1)) with k by lia.
        lia. }
      specialize (IH (n / 10) (k - 1)
                    (String (chr (48 + n mod 10)) acc) Hq ltac:(lia)).
      rewrite Zlength_cons in IH. lia.
Qed.

Lemma digit_not_space c : is_digit c = true -> unicode_isspace c = false.
Proof.
  unfold is_digit, unicode_isspace. intros H.
  apply andb_prop in H as [H1 H2]. apply Z.leb_le in H1, H2.
  replace (ord c <=? 13) with false by (symmetry; apply Z.leb_gt; lia).
  replace (ord c <=? 32) with false by (symmetry; apply Z.leb_gt; lia).
  replace (ord c =? 133) with false by (symmetry; apply Z.eqb_neq; lia).
  replace (ord c =? 160) with false by (symmetry; apply Z.eqb_neq; lia).
  now rewrite !andb_false_r.
Qed.

Lemma group_int_digits s :
  all_digits s = true -> group_int s = dnum 0 s.
Proof.
  intros A. unfold group_int.
  assert (L : lstrip s = s).
  { destruct s as [|c r]; [reflexivity|]. simpl in A.
    apply andb_prop in A as [A1 _]. simpl.
    now rewrite (digit_not_space c A1). }
  rewrite L. rewrite <- (append_nil_r s) at 1.
  rewrite digits_acc_app by exact A. reflexivity.
Qed.

Lemma zero_pad_spec w n :
  0 <= n < 10 ^ Z.of_nat w -> (1 <= w)%nat ->
  all_digits (zero_pad w n) = true /\ dnum 0 (zero_pad w n) = n
  /\ Zlength (zero_pad w n) = Z.of_nat w.
Proof.
  intros Hn Hw. unfold zero_pad.
  destruct (digits_of_Z_spec n ltac:(lia)) as [A [V _]].
  assert (L : Zlength (digits_of_Z n) <= Z.of_nat w).
  { unfold digits_of_Z.
    pose proof (digits_fuel_length (S (Z.to_nat (Z.log2 n))) n (Z.of_nat w) ""
                  Hn ltac:(lia)) as X.
    change (Zlength "") with 0 in X. lia. }
  unfold Zlength in L.
  rewrite all_digits_app, all_digits_repeat_zero, A.
  rewrite dnum_app, dnum_repeat_zero, Z.mul_0_l, V.
  rewrite Zlength_app, Zlength_repeat. unfold Zlength.
  repeat split. lia.
Qed.

(** The year of an ISO date is written with four digits that read back. *)
Lemma year_text y :
  1 <= y <= 9999 ->
  exists a b c e,
    zero_pad 4 y = String a (String b (String c (String e "")))
    /\ is_digit a = true /\ is_digit b = true /\ is_digit c = true
    /\ is_digit e = true
    /\ group_int (String a (String b (String c (String e "")))) = y.
Proof.
  intros Hy.
  destruct (zero_pad_spec 4 y ltac:(simpl; lia) ltac:(lia)) as [A [V L]].
  destruct (zero_pad 4 y) as [|a [|b [|c [|e [|x r]]]]];
    try (unfold Zlength in L; simpl in L; lia).
  exists a, b, c, e. split; [reflexivity|].
  pose proof (group_int_digits _ A) as G. rewrite V in G.
  simpl in A. rewrite !andb_true_iff in A.
  destruct A as [Ha [Hb [Hc [He _]]]]. auto 10.
Qed.

Lemma months_days_ok :
  forallb (fun m => forallb (month_day_ok m) (zrange 1 31)) (zrange 1 12)
  = true.
Proof. vm_compute. reflexivity. Qed.

Lemma match_items_year a b c e rest fmt :
  is_digit a = true -> is_digit b = true -> is_digit c = true ->
  is_digit e = true ->
  match_items (Dir_Y :: fmt) (String a (String b (String c (String e rest))))
  = match match_items fmt rest with
    | Some (fs, r) =>
        Some ((Dir_Y, String a (String b (String c (String e "")))) :: fs, r)
    | None => None
    end.
Proof.
  intros Ha Hb Hc He. cbn [match_items regex_of match_seq].
  rewrite Ha, Hb, Hc, He.
  destruct (match_items fmt rest) as [[fs r]|]; reflexivity.
Qed.

Lemma digit_not_slash c : is_digit c = true -> one "/" c = false.
Proof.
  intros H. unfold one. apply Ascii.eqb_neq. intros <-. discriminate H.
Qed.

(** A string that starts with three digits is not a month and a slash. *)
Lemma match_items_month_slash a b c rest fmt :
  is_digit a = true -> is_digit b = true -> is_digit c = true ->
  match_items (Dir_m :: Lit "/" :: fmt) (String a (String b (String c rest)))
  = None.
Proof.
  intros Ha Hb Hc.
  apply digit_not_slash in Hb, Hc.
  cbn [match_items regex_of match_seq].
  destruct (one "1" a), (range "0" "2" b), (one "0" a), (range "1" "9" b),
    (range "1" "9" a);
    cbn [match_items regex_of match_seq]; rewrite ?Hb, ?Hc; reflexivity.
Qed.

Lemma strptime_valid s fmt d :
  strptime s fmt = Ok d -> valid_date (year d) (month d) (day d) = true.
Proof.
  unfold strptime. destruct (match_items fmt s) as [[fs [|c r]]|];
    try discriminate.
  destruct (fields fs (1900, 1, 1)) as [[y m] dd].
  destruct (valid_date y m dd) eqn:V; [|discriminate].
  intros H. injection H as <-. exact V.
Qed.

Lemma days_in_month_max y m : days_in_month y m <= 31.
Proof.
  unfold days_in_month.
  destruct (m =? 2); [destruct (is_leap y); lia|].
  destruct (_ || _); lia.
Qed.

(** Reading the ISO text of a date with the date conversion gives the date
    back. *)
Lemma date_roundtrip d :
  valid_date (year d) (month d) (day d) = true ->
  clean_date (VStr (isoformat d)) = Ok (VDate d).
Proof.
  destruct d as [y m dd]. cbn [year month day]. intros V.
  assert (B : (1 <= y <= 9999) /\ (1 <= m <= 12) /\ (1 <= dd <= 31)).
  { unfold valid_date in V. rewrite !andb_true_iff, !Z.leb_le in V.
    pose proof (days_in_month_max y m). lia. }
  destruct B as [By [Bm Bd]].
  assert (M := forallb_zrange _ 1 12 m months_days_ok ltac:(lia)).
  cbv beta in M.
  assert (D := forallb_zrange _ 1 31 dd M ltac:(lia)).
  unfold month_day_ok in D.
  unfold isoformat. cbn [year month day].
  destruct (year_text y By) as [a [b [c [e [Zy [Ha [Hb [Hc [He Gy]]]]]]]]].
  rewrite Zy.
  set (rest := "-" ++ zero_pad 2 m ++ "-" ++ zero_pad 2 dd) in *.
  change (String a (String b (String c (String e ""))) ++ rest)
    with (String a (String b (String c (String e rest)))).
  unfold clean_date. cbn [blank isna eq_empty orb].
  unfold date_formats. rewrite !try_formats_cons.
  unfold strptime at 1. unfold fmt_mdY.
  rewrite match_items_month_slash by assumption.
  unfold strptime at 1. unfold fmt_mdy.
  rewrite match_items_month_slash by assumption.
  unfold strptime, fmt_Ymd. rewrite match_items_year by assumption.
  destruct (match_items [Lit "-"; Dir_m; Lit "-"; Dir_d] rest)
    as [[[|[[| | | |l1] t1] [|[[| | | |?] tm] [|[[| | | |l2] t2]
        [|[[| | | |?] td] [|? ?]]]]] [|? ?]]|]; try discriminate D.
  rewrite andb_true_iff, !Z.eqb_eq in D. destruct D as [Gm Gd].
  cbn [fields]. rewrite Gy, Gm, Gd, V. reflexivity.
Qed.

(** ** Literals read back *)

(** On the samples, [round_decimal] gives the float that the operations of
    the IEEE 754 specification give. *)
Lemma round_decimal_agrees_on_samples :
  forallb (fun '(m, e) =>
             same_float (round_decimal false m e) (round_decimal_ieee false m e)
             && same_float (round_decimal true m e)
                  (round_decimal_ieee true m e))
    rounding_samples = true.
Proof. vm_compute. reflexivity. Qed.

Lemma drop_last_app s c : drop_last (s ++ String c "") = s.
Proof.
  induction s as [|d r IH]; [reflexivity|].
  cbn [append drop_last]. rewrite IH.
  destruct (r ++ String c "") eqn:E; [destruct r; discriminate | reflexivity].
Qed.

Lemma unquote_quote s : unquote (quote s) = s.
Proof. unfold quote, unquote. cbn [append]. simpl Ascii.eqb. cbv iota.
  apply drop_last_app. Qed.

Lemma SFeqb_refl f : is_nan f = false -> SFeqb f f = true.
Proof.
  unfold SFeqb. destruct f as [s|s| |s m e]; try discriminate; intros _;
    destruct s; simpl; try reflexivity;
    rewrite Z.compare_refl;
    change (Pos.compare_cont Eq m m) with (Pos.compare m m);
    rewrite Pos.compare_refl; reflexivity.
Qed.

Lemma float_repr_not_empty f :
  valid_binary prec emax f = true -> is_nan f = false -> float_repr f <> "".
Proof.
  intros V N E. pose proof (float_repr_roundtrip f V N) as R.
  rewrite E in R. discriminate R.
Qed.

Lemma str_not_blank s : s <> "" -> blank (VStr s) = false.
Proof. destruct s; [contradiction | reflexivity]. Qed.

(** What each conversion returns (when it returns) is Absent, NaN or a
    typed value of its kind. *)
Lemma convert_typed k v t :
  convert k v = Ok t -> t = VNone \/ t = nan \/ typed_value k t.
Proof.
  destruct k; cbn [convert].
  - unfold clean_decimal. destruct (blank v); [intros H; injection H; auto|].
    rewrite try_float.
    destruct (float_of_string (py_str v)) as [f|e] eqn:E;
      intros H; injection H as <-; [|auto].
    destruct (is_nan f) eqn:N.
    + destruct f; try discriminate N. right; left; reflexivity.
    + right; right. split; [exact (float_of_string_valid _ _ E) | exact N].
  - destruct (blank v) eqn:B.
    + unfold clean_integer. rewrite B. intros H; injection H; auto.
    + rewrite (clean_integer_eq v B).
      destruct (float_of_string (py_str v)) as [f|e] eqn:E;
        [|intros H; injection H; auto].
      pose proof (float_of_string_valid _ _ E) as V.
      destruct f as [s|s| |s m e]; cbn [integer_of]; intros H;
        try discriminate H; injection H as <-; auto; right; right.
      * exists (S754_zero s). split; [exact V | reflexivity].
      * exists (S754_finite s m e). split; [exact V|].
        apply int_of_float_finite.
  - rewrite clean_date_eq. intros H. injection H as <-.
    destruct v as [|s|f|n|b|d]; auto.
    unfold first_date.
    destruct (strptime s fmt_mdY) as [d|] eqn:E1;
      [right; right; exact (strptime_valid _ _ _ E1)|].
    destruct (strptime s fmt_mdy) as [d|] eqn:E2;
      [right; right; exact (strptime_valid _ _ _ E2)|].
    destruct (strptime s fmt_Ymd) as [d|] eqn:E3;
      [right; right; exact (strptime_valid _ _ _ E3)|].
    auto.
  - rewrite clean_boolean_eq. intros H. injection H as <-.
    destruct v as [|s|f|n|b|d]; auto.
    match goal with
    | |- context [if ?c then VBool true else _] =>
        destruct c; [right; right; exact I|]
    end.
    match goal with
    | |- context [if ?c then VBool false else _] =>
        destruct c; [right; right; exact I|]
    end.
    auto.
Qed.

(** C8, as stated, fails for the decimal NaN, which the decimal conversion
    gives for the text [nan]: its literal is the bare word [nan], which
    reads back as NaN, and NaN is not numerically equal to itself. *)
Lemma nan_literal_not_equivalent :
  convert KDecimal (VStr "nan") = Ok nan
  /\ render_value "baths" (VStr "nan") = Ok (literal KDecimal nan)
  /\ literal KDecimal nan = "nan"
  /\ read_back KDecimal (literal KDecimal nan) = Ok nan
  /\ equivalent nan nan = false
  /\ ~ (forall k v t, convert k v = Ok t -> t <> VNone ->
          exists t', read_back k (literal k t) = Ok t'
                     /\ equivalent t t' = true).
Proof.
  assert (C : convert KDecimal (VStr "nan") = Ok nan)
    by (vm_compute; reflexivity).
  assert (R : read_back KDecimal (literal KDecimal nan) = Ok nan)
    by (vm_compute; reflexivity).
  refine (conj C (conj _ (conj _ (conj R (conj _ _))))).
  - vm_compute. reflexivity.
  - vm_compute. reflexivity.
  - reflexivity.
  - intros H. destruct (H KDecimal (VStr "nan") nan C ltac:(discriminate))
      as [t' [E Q]].
    rewrite R in E. injection E as <-. discriminate Q.
Qed.

(** C8, amended: for every typed value that is a decimal other than NaN, an
    integer, a calendar date or a boolean, the SQL literal written for it,
    read back with the conversion function of its kind (a date literal
    without its quotes), gives the same value again. *)
Theorem literal_read_back (k : kind) (t : value) :
  typed_value k t ->
  read_back k (literal k t) = Ok t /\ equivalent t t = true.
Proof.
  destruct k, t as [|s|f|n|b|d]; cbn [typed_value]; try contradiction.
  - intros [V N]. split; [|exact (SFeqb_refl f N)].
    cbn [read_back convert literal py_str]. unfold clean_decimal.
    rewrite (str_not_blank _ (float_repr_not_empty f V N)), try_float.
    cbn [py_str]. now rewrite (float_repr_roundtrip f V N).
  - intros [f [V H]]. split; [|apply Z.eqb_refl].
    exact (integer_roundtrip f n V H).
  - intros V. split.
    + cbn [read_back convert literal]. rewrite unquote_quote.
      exact (date_roundtrip d V).
    + unfold equivalent, date_eqb. now rewrite !Z.eqb_refl.
  - intros _. split; [|apply Bool.eqb_reflx].
    destruct b; vm_compute; reflexivity.
Qed.

Lemma literal_read_back_witness :
  (read_back KDecimal
     (literal KDecimal (VFloat (S754_finite false 8589934592000000 (-35))))
   = Ok (VFloat (S754_finite false 8589934592000000 (-35)))
   /\ read_back KInteger (literal KInteger (VInt (-42))) = Ok (VInt (-42)))
  /\ read_back KDate (literal KDate (VDate (mkdate 2030 12 31)))
     = Ok (VDate (mkdate 2030 12 31)).
Proof.
  refine (conj (conj _ _) _).
  - exact (proj1 (literal_read_back KDecimal
                    (VFloat (S754_finite false 8589934592000000 (-35)))
                    (conj eq_refl eq_refl))).
  - refine (proj1 (literal_read_back KInteger (VInt (-42)) _)).
    exists (S754_finite true 6039996025178522 (-47)).
    split; reflexivity.
  - exact (proj1 (literal_read_back KDate (VDate (mkdate 2030 12 31))
                    eq_refl)).
Defined.

(** * Further properties *)

(** ** Conversions that cannot raise *)

(** X1: the currency, percentage, date, boolean and decimal conversions
    return a value for every cell value; none of them raises. *)
Theorem five_conversions_return (v : value) :
  (exists r, clean_currency v = Ok r) /\ (exists r, clean_percentage v = Ok r)
  /\ (exists r, clean_date v = Ok r) /\ (exists r, clean_boolean v = Ok r)
  /\ (exists r, clean_decimal v = Ok r).
Proof. exact (other_conversions_return v). Qed.


(** ** Numbers and their texts *)

Lemma signed_neg_abs n : signed (n <? 0) (Z.abs n) = n.
Proof. unfold signed. destruct (Z.ltb_spec n 0); lia. Qed.

(** X3: an integer of magnitude below 2^53, given as a number or as its
    decimal text, comes out of the integer conversion unchanged, although it
    goes through a float. *)
Theorem integer_exact_below_2_53 (n : Z) :
  Z.abs n < 2 ^ 53 ->
  clean_integer (VInt n) = Ok (VInt n)
  /\ clean_integer (VStr (int_repr n)) = Ok (VInt n).
Proof.
  intros H.
  assert (E : clean_integer (VStr (int_repr n)) = Ok (VInt n)).
  { destruct (Z.eq_dec n 0) as [->|N0]; [vm_compute; reflexivity|].
    apply (integer_roundtrip (round_decimal (n <? 0) (Z.abs n) 0)).
    - apply round_decimal_valid.
    - rewrite int_of_round_small by lia. now rewrite signed_neg_abs. }
  split; [|exact E].
  rewrite <- E.
  rewrite (clean_integer_eq (VInt n) eq_refl).
  rewrite (clean_integer_eq (VStr (int_repr n))
             (str_not_blank _ (int_repr_not_empty n))).
  reflexivity.
Qed.

Lemma integer_exact_below_2_53_witness :
  clean_integer (VInt (-1200)) = Ok (VInt (-1200))
  /\ clean_integer (VStr (int_repr (-1200))) = Ok (VInt (-1200)).
Proof. apply (integer_exact_below_2_53 (-1200)). reflexivity. Defined.

(** X4: the integer conversion is the decimal conversion followed by
    [int]: where the decimal conversion gives a float, the integer
    conversion gives [int] of that float, or None when [int] raises
    [ValueError]; where it gives None, so does the integer conversion. *)
Theorem integer_truncates_decimal (v : value) :
  clean_integer v
  = match clean_decimal v with
    | Ok (VFloat f) => try_except (let* n := int_of_float f in Ok (VInt n)) VNone
    | r => r
    end.
Proof.
  unfold clean_integer, clean_decimal. destruct (blank v); [reflexivity|].
  rewrite try_float.
  destruct (float_of_string (py_str v)) as [f|e] eqn:E; cbn [bind].
  - reflexivity.
  - apply float_of_string_raises in E. subst e. reflexivity.
Qed.

(** X6: a cell that already holds a float other than NaN goes through the
    currency, percentage and decimal conversions unchanged; for the decimal
    conversion this is the round trip [float(str(f)) = f]. *)
Theorem float_cell_passes_through (f : float) :
  valid_binary prec emax f = true -> is_nan f = false ->
  clean_currency (VFloat f) = Ok (VFloat f)
  /\ clean_percentage (VFloat f) = Ok (VFloat f)
  /\ clean_decimal (VFloat f) = Ok (VFloat f).
Proof.
  intros V N.
  assert (B : blank (VFloat f) = false)
    by (unfold blank; cbn [isna eq_empty]; now rewrite N).
  unfold clean_currency, clean_percentage, clean_decimal. rewrite B.
  refine (conj eq_refl (conj eq_refl _)).
  rewrite try_float. cbn [py_str]. now rewrite (float_repr_roundtrip f V N).
Qed.

Lemma float_cell_passes_through_witness :
  clean_currency (VFloat (S754_finite false 5629499534213120 (-51)))
  = Ok (VFloat (S754_finite false 5629499534213120 (-51)))
  /\ clean_percentage (VFloat (S754_finite false 5629499534213120 (-51)))
     = Ok (VFloat (S754_finite false 5629499534213120 (-51)))
  /\ clean_decimal (VFloat (S754_finite false 5629499534213120 (-51)))
     = Ok (VFloat (S754_finite false 5629499534213120 (-51))).
Proof.
  apply (float_cell_passes_through
           (S754_finite false 5629499534213120 (-51))); reflexivity.
Defined.

(** X7: on a text with a percent sign the percentage conversion is the
    decimal conversion of the text without its percent signs. *)
Theorem percentage_is_decimal_without_sign (s : string) :
  contains "%" s = true ->
  clean_percentage (VStr s) = clean_decimal (VStr (replace "%" "" s)).
Proof.
  intros C. unfold clean_percentage, clean_decimal.
  assert (B : blank (VStr s) = false)
    by (destruct s; [discriminate C | reflexivity]).
  rewrite B, C. cbn [py_str].
  destruct (replace "%" "" s) as [|c r] eqn:R.
  - vm_compute. reflexivity.
  - reflexivity.
Qed.

Lemma percentage_is_decimal_without_sign_witness :
  clean_percentage (VStr "7.25%")
  = clean_decimal (VStr (replace "%" "" "7.25%")).
Proof. apply (percentage_is_decimal_without_sign "7.25%"). reflexivity. Defined.

(** ** The characters of a float literal *)

Lemma all_chars_contains p s c :
  all_chars p s = true -> contains c s = true -> p c = true.
Proof.
  induction s as [|d s IH]; cbn [all_chars contains]; [discriminate|].
  intros H C. apply andb_prop in H as [H1 H2].
  apply orb_prop in C as [C|C]; [|exact (IH H2 C)].
  apply Ascii.eqb_eq in C. now subst.
Qed.

Lemma float_char_digit c : is_digit c = true -> float_char c = true.
Proof. unfold float_char. now intros ->. Qed.

Lemma float_char_space c : c_isspace c = true -> float_char c = true.
Proof. unfold float_char. intros ->. now rewrite !orb_true_r. Qed.

Lemma float_char_letter c :
  contains (lower_char c) "einftya" = true -> float_char c = true.
Proof. unfold float_char. intros ->. now rewrite !orb_true_r. Qed.

Lemma float_char_e c : is_e c = true -> float_char c = true.
Proof.
  unfold is_e. intros H. apply orb_prop in H as [H|H];
    apply Ascii.eqb_eq in H; subst c; reflexivity.
Qed.

Lemma digits_acc_chars a n s m k r :
  digits_acc a n s = (m, k, r) ->
  all_chars float_char r = true -> all_chars float_char s = true.
Proof.
  revert a n. induction s as [|c s IH]; intros a n; cbn [digits_acc].
  - intros H. injection H as _ _ <-. auto.
  - destruct (is_digit c) eqn:D.
    + intros H R. cbn [all_chars].
      now rewrite (float_char_digit c D), (IH _ _ H R).
    + intros H. injection H as _ _ <-. auto.
Qed.

Lemma take_sign_chars s sg r :
  take_sign s = (sg, r) ->
  all_chars float_char r = true -> all_chars float_char s = true.
Proof.
  destruct s as [|c s]; cbn [take_sign].
  - intros H. injection H as _ <-. auto.
  - destruct (Ascii.eqb_spec c "-") as [->|].
    + intros H. injection H as _ <-. cbn [all_chars]. now intros ->.
    + destruct (Ascii.eqb_spec c "+") as [->|].
      * intros H. injection H as _ <-. cbn [all_chars]. now intros ->.
      * intros H. injection H as _ <-. auto.
Qed.

Lemma parse_exponent_chars s x r :
  parse_exponent s = (x, r) ->
  all_chars float_char r = true -> all_chars float_char s = true.
Proof.
  destruct s as [|c s]; cbn [parse_exponent].
  - intros H. injection H as _ <-. auto.
  - destruct (is_e c) eqn:E; [|intros H; injection H as _ <-; auto].
    destruct (take_sign s) as [neg r1] eqn:T.
    destruct (digits_acc 0 0 r1) as [[y ny] r2] eqn:D.
    destruct (ny =? 0); intros H; injection H as _ <-; [auto|].
    intros R. cbn [all_chars]. rewrite (float_char_e c E).
    exact (take_sign_chars _ _ _ T (digits_acc_chars _ _ _ _ _ _ D R)).
Qed.

Lemma parse_decimal_chars s m e r :
  parse_decimal s = Some (m, e, r) ->
  all_chars float_char r = true -> all_chars float_char s = true.
Proof.
  unfold parse_decimal.
  destruct (digits_acc 0 0 s) as [[m1 n1] r1] eqn:D1.
  set (second := match r1 with
                 | String c r => if Ascii.eqb c "." then digits_acc m1 0 r
                                 else (m1, 0, r1)
                 | EmptyString => (m1, 0, r1)
                 end).
  destruct second as [[m2 n2] r2] eqn:D2.
  destruct (n1 + n2 =? 0); [discriminate|].
  destruct (parse_exponent r2) as [x r3] eqn:PE.
  intros H. injection H as _ _ <-. intros R.
  apply (digits_acc_chars _ _ _ _ _ _ D1).
  pose proof (parse_exponent_chars _ _ _ PE R) as R2.
  unfold second in D2. destruct r1 as [|c r1'].
  - injection D2 as _ _ <-. exact R2.
  - destruct (Ascii.eqb_spec c ".") as [->|].
    + cbn [all_chars]. rewrite (digits_acc_chars _ _ _ _ _ _ D2 R2).
      reflexivity.
    + injection D2 as _ _ <-. exact R2.
Qed.

Lemma match_word_chars w s r :
  match_word w s = Some r ->
  all_chars (fun a => contains a "einftya") w = true ->
  all_chars float_char r = true -> all_chars float_char s = true.
Proof.
  revert s. induction w as [|a w IH]; intros s; cbn [match_word].
  - intros H. injection H as <-. auto.
  - destruct s as [|c s]; [discriminate|].
    destruct (Ascii.eqb_spec (lower_char c) a) as [E|]; [|discriminate].
    intros H W R. cbn [all_chars] in W. apply andb_prop in W as [Wa W].
    cbn [all_chars]. rewrite (IH _ H W R), andb_true_r.
    apply float_char_letter. now rewrite E.
Qed.

Lemma parse_inf_or_nan_chars sg s f r :
  parse_inf_or_nan sg s = Some (f, r) ->
  all_chars float_char r = true -> all_chars float_char s = true.
Proof.
  unfold parse_inf_or_nan.
  destruct (match_word "inf" s) as [r1|] eqn:M1.
  - destruct (match_word "inity" r1) as [r2|] eqn:M2;
      intros H; injection H as _ <-; intros R.
    + exact (match_word_chars _ _ _ M1 eq_refl
               (match_word_chars _ _ _ M2 eq_refl R)).
    + exact (match_word_chars _ _ _ M1 eq_refl R).
  - destruct (match_word "nan" s) as [r1|] eqn:M3; [|discriminate].
    intros H. injection H as _ <-.
    exact (match_word_chars _ _ _ M3 eq_refl).
Qed.

Lemma string_to_double_chars u f :
  string_to_double u = Some f -> all_chars float_char u = true.
Proof.
  unfold string_to_double. destruct (take_sign u) as [sg r] eqn:T.
  intros H. apply (take_sign_chars _ _ _ T).
  destruct (parse_decimal r) as [[[m e] [|c q]]|] eqn:P.
  - exact (parse_decimal_chars _ _ _ _ P eq_refl).
  - discriminate H.
  - destruct (parse_inf_or_nan sg r) as [[g [|c q]]|] eqn:Q;
      try discriminate H.
    exact (parse_inf_or_nan_chars _ _ _ _ Q eq_refl).
Qed.

Lemma strip_underscores_chars p t u :
  strip_underscores p t = Some u ->
  all_chars float_char u = true -> all_chars float_char t = true.
Proof.
  revert p u. induction t as [|c t IH]; intros p u; cbn [strip_underscores].
  - reflexivity.
  - destruct (Ascii.eqb_spec c "_") as [->|].
    + destruct (is_digit p); [|discriminate]. intros H R.
      cbn [all_chars]. now rewrite (IH _ _ H R).
    + destruct (Ascii.eqb p "_" && negb (is_digit c)); [discriminate|].
      destruct (strip_underscores c t) as [u'|] eqn:E; [|discriminate].
      intros H. injection H as <-. cbn [all_chars]. intros R.
      apply andb_prop in R as [-> R]. exact (IH _ _ E R).
Qed.

Lemma c_lstrip_chars t :
  all_chars float_char (c_lstrip t) = true -> all_chars float_char t = true.
Proof.
  induction t as [|c t IH]; [reflexivity|]. cbn [c_lstrip].
  destruct (c_isspace c) eqn:Sp; [|auto].
  intros H. cbn [all_chars]. now rewrite (float_char_space c Sp), (IH H).
Qed.

Lemma c_rstrip_chars t :
  all_chars float_char (c_rstrip t) = true -> all_chars float_char t = true.
Proof.
  induction t as [|c t IH]; [reflexivity|]. cbn [c_rstrip].
  destruct (c_rstrip t) as [|d r].
  - destruct (c_isspace c) eqn:Sp; cbn [all_chars]; intros H.
    + now rewrite (float_char_space c Sp), IH.
    + apply andb_prop in H as [-> _]. now rewrite IH.
  - cbn [all_chars]. intros H. apply andb_prop in H as [-> H].
    now rewrite IH.
Qed.

Lemma to_ascii_chars s :
  all_chars float_char (to_ascii s)
  = all_chars (fun c => float_char (to_ascii_char c)) s.
Proof.
  induction s as [|c s IH]; [reflexivity|]. cbn [to_ascii all_chars].
  now rewrite IH.
Qed.

(** [float] reads only strings of float characters. *)
Lemma float_of_string_chars s f :
  float_of_string s = Ok f ->
  all_chars (fun c => float_char (to_ascii_char c)) s = true.
Proof.
  unfold float_of_string.
  destruct (strip_underscores "000" (c_rstrip (c_lstrip (to_ascii s))))
    as [u|] eqn:U; [|discriminate].
  destruct (string_to_double u) as [g|] eqn:D; [|discriminate].
  intros _. rewrite <- to_ascii_chars.
  apply c_lstrip_chars, c_rstrip_chars.
  exact (strip_underscores_chars _ _ _ U (string_to_double_chars _ _ D)).
Qed.

Lemma float_of_string_foreign s c :
  contains c s = true -> float_char (to_ascii_char c) = false ->
  exists e, float_of_string s = Raise e.
Proof.
  intros C F. destruct (float_of_string s) as [f|e] eqn:E; [|eauto].
  pose proof (all_chars_contains _ _ _ (float_of_string_chars s f E) C) as A.
  cbv beta in A. congruence.
Qed.

(** X5: a text with a character that no float literal has (anything but
    digits, signs, the point, the underscore, white space and the letters of
    [e], [inf], [infinity] and [nan]) is converted to None by the decimal
    and the integer conversion. *)
Theorem foreign_character_gives_none (s : string) (c : ascii) :
  contains c s = true -> float_char (to_ascii_char c) = false ->
  clean_decimal (VStr s) = Ok VNone /\ clean_integer (VStr s) = Ok VNone.
Proof.
  intros C F. destruct (float_of_string_foreign s c C F) as [e E].
  assert (B : blank (VStr s) = false)
    by (destruct s; [discriminate C | reflexivity]).
  split.
  - unfold clean_decimal. rewrite B, try_float. cbn [py_str]. now rewrite E.
  - rewrite (clean_integer_eq _ B). cbn [py_str]. now rewrite E.
Qed.

Lemma foreign_character_gives_none_witness :
  clean_decimal (VStr "12 sq ft") = Ok VNone
  /\ clean_integer (VStr "12 sq ft") = Ok VNone.
Proof.
  apply (foreign_character_gives_none "12 sq ft" "s"); reflexivity.
Defined.

(** ** Currency amounts *)

Lemma sub_app a b :
  sub_comma_dollar_space (a ++ b)
  = sub_comma_dollar_space a ++ sub_comma_dollar_space b.
Proof.
  induction a as [|c a IH]; [reflexivity|]. cbn [append sub_comma_dollar_space].
  destruct (Ascii.eqb c "," || Ascii.eqb c "$" || unicode_isspace c);
    [exact IH | cbn [append]; now rewrite IH].
Qed.

Lemma sub_no_space s :
  all_chars (fun c => negb (unicode_isspace c)) (sub_comma_dollar_space s)
  = true.
Proof.
  induction s as [|c s IH]; [reflexivity|]. cbn [sub_comma_dollar_space].
  destruct (Ascii.eqb c ",") ; [exact IH|].
  destruct (Ascii.eqb c "$") ; [exact IH|]. cbn [orb].
  destruct (unicode_isspace c) eqn:U; [exact IH|].
  cbn [all_chars]. now rewrite U, IH.
Qed.

Lemma c_isspace_unicode c : unicode_isspace c = false -> c_isspace c = false.
Proof.
  unfold unicode_isspace, c_isspace. intros H.
  apply orb_false_elim in H as [H _]. apply orb_false_elim in H as [H _].
  apply orb_false_elim in H as [H1 H2]. rewrite H1. cbn [orb].
  destruct (Z.eqb_spec (ord c) 32) as [E|]; [|reflexivity].
  rewrite E in H2. discriminate H2.
Qed.

Lemma to_ascii_char_no_space c :
  unicode_isspace c = false -> c_isspace (to_ascii_char c) = false.
Proof.
  intros U. unfold to_ascii_char. rewrite U.
  destruct (ord c <? 127); [exact (c_isspace_unicode c U) | reflexivity].
Qed.

Lemma to_ascii_no_space s :
  all_chars (fun c => negb (unicode_isspace c)) s = true ->
  all_chars (fun c => negb (c_isspace c)) (to_ascii s) = true.
Proof.
  induction s as [|c s IH]; [reflexivity|]. cbn [all_chars to_ascii].
  intros H. apply andb_prop in H as [U H]. apply negb_true_iff in U.
  now rewrite (to_ascii_char_no_space c U), IH.
Qed.

Lemma c_lstrip_no_space t :
  all_chars (fun c => negb (c_isspace c)) t = true -> c_lstrip t = t.
Proof.
  destruct t as [|c t]; [reflexivity|]. cbn [all_chars c_lstrip].
  intros H. apply andb_prop in H as [U _]. apply negb_true_iff in U.
  now rewrite U.
Qed.

Lemma c_rstrip_no_space t :
  all_chars (fun c => negb (c_isspace c)) t = true -> c_rstrip t = t.
Proof.
  induction t as [|c t IH]; [reflexivity|]. cbn [all_chars c_rstrip].
  intros H. apply andb_prop in H as [U H]. apply negb_true_iff in U.
  rewrite (IH H), U. destruct t; reflexivity.
Qed.

Lemma strip_underscores_prev p q t :
  is_digit p = false -> Ascii.eqb p "_" = false ->
  is_digit q = false -> Ascii.eqb q "_" = false ->
  strip_underscores p t = strip_underscores q t.
Proof.
  intros Dp Up Dq Uq. destruct t as [|c r]; cbn [strip_underscores].
  - now rewrite Up, Uq.
  - now rewrite Dp, Dq, Up, Uq.
Qed.

Lemma strip_underscores_head p c r u :
  strip_underscores p (String c r) = Some u ->
  Ascii.eqb c "_" = false -> exists u', u = String c u'.
Proof.
  cbn [strip_underscores]. intros H U. rewrite U in H.
  destruct (Ascii.eqb p "_" && negb (is_digit c)); [discriminate H|].
  destruct (strip_underscores c r) as [u'|]; [|discriminate H].
  injection H as <-. eauto.
Qed.

Lemma opp_round_decimal m e :
  round_decimal true m e = SFopp (round_decimal false m e).
Proof.
  rewrite (round_decimal_sign true), (round_decimal_sign false).
  destruct (round_decimal false m e); reflexivity.
Qed.

Lemma parse_inf_or_nan_sign u :
  parse_inf_or_nan true u
  = match parse_inf_or_nan false u with
    | Some (f, r) => Some (SFopp f, r)
    | None => None
    end.
Proof.
  unfold parse_inf_or_nan. destruct (match_word "inf" u) as [r|].
  - destruct (match_word "inity" r); reflexivity.
  - destruct (match_word "nan" u); reflexivity.
Qed.

Lemma string_to_double_minus u :
  sign_start u = false ->
  string_to_double (String "-" u)
  = match string_to_double u with
    | Some f => Some (SFopp f)
    | None => None
    end.
Proof.
  intros S0. unfold string_to_double at 1. cbn [take_sign].
  change (Ascii.eqb "-" "-") with true. cbv iota.
  assert (T : take_sign u = (false, u)).
  { destruct u as [|c r]; [reflexivity|]. cbn [sign_start] in S0.
    apply orb_false_elim in S0 as [A B]. cbn [take_sign]. now rewrite A, B. }
  unfold string_to_double. rewrite T.
  destruct (parse_decimal u) as [[[m e] [|c r]]|].
  - now rewrite opp_round_decimal.
  - reflexivity.
  - rewrite parse_inf_or_nan_sign.
    destruct (parse_inf_or_nan false u) as [[f [|c r]]|]; reflexivity.
Qed.

Lemma float_of_string_minus c :
  all_chars (fun c => negb (unicode_isspace c)) c = true ->
  sign_start c = false ->
  float_of_string ("-" ++ c)
  = match float_of_string c with
    | Ok f => Ok (SFopp f)
    | Raise e => Raise e
    end.
Proof.
  intros N S0. unfold float_of_string.
  change (to_ascii ("-" ++ c)) with (String "-" (to_ascii c)).
  pose proof (to_ascii_no_space c N) as T.
  assert (T' : all_chars (fun c => negb (c_isspace c))
                 (String "-" (to_ascii c)) = true)
    by (cbn [all_chars]; rewrite T; reflexivity).
  rewrite (c_lstrip_no_space _ T'), (c_rstrip_no_space _ T').
  rewrite (c_lstrip_no_space _ T), (c_rstrip_no_space _ T).
  cbn [strip_underscores]. change (Ascii.eqb "-" "_") with false.
  change (Ascii.eqb "000" "_") with false. cbn [andb]. cbv iota.
  rewrite (strip_underscores_prev "-" "000" (to_ascii c))
    by reflexivity.
  destruct (strip_underscores "000" (to_ascii c)) as [u|] eqn:U;
    [|reflexivity].
  assert (Su : sign_start u = false).
  { destruct c as [|x r]; cbn [to_ascii] in U.
    - cbn in U. injection U as <-. reflexivity.
    - destruct (Ascii.eqb (to_ascii_char x) "_") eqn:Ux.
      + cbn [strip_underscores] in U. rewrite Ux in U. discriminate U.
      + destruct (strip_underscores_head _ _ _ _ U Ux) as [u' ->].
        cbn [sign_start] in *. unfold to_ascii_char.
        destruct (ord x <? 127); [exact S0|].
        destruct (unicode_isspace x); reflexivity. }
  rewrite (string_to_double_minus u Su).
  destruct (string_to_double u); reflexivity.
Qed.

(** X9: putting a text without parentheses between parentheses changes the
    sign of its currency conversion, provided that what is left of the text
    without commas, dollar signs and white space does not start with a sign;
    a text that converts to None still does. *)
Theorem parentheses_negate (s : string) :
  contains "(" s = false -> contains ")" s = false ->
  sign_start (sub_comma_dollar_space s) = false ->
  clean_currency (VStr ("(" ++ s ++ ")")) = negated (clean_currency (VStr s)).
Proof.
  intros Ho Hc S0.
  set (c := sub_comma_dollar_space s) in *.
  assert (Co : contains "(" c = false)
    by (unfold c; rewrite contains_sub, Ho; reflexivity).
  assert (Cc : contains ")" c = false)
    by (unfold c; rewrite contains_sub, Hc; reflexivity).
  assert (L : clean_currency (VStr ("(" ++ s ++ ")"))
              = Ok (match float_of_string c with
                    | Ok f => VFloat (SFopp f)
                    | Raise _ => VNone
                    end)).
  { unfold clean_currency. change (blank (VStr ("(" ++ s ++ ")"))) with false.
    cbv iota.
    assert (E : sub_comma_dollar_space ("(" ++ s ++ ")") = "(" ++ c ++ ")").
    { change ("(" ++ s ++ ")") with (String "(" (s ++ ")")).
      cbn [sub_comma_dollar_space].
      change (Ascii.eqb "(" "," || Ascii.eqb "(" "$" || unicode_isspace "(")
        with false. cbv iota. rewrite sub_app. reflexivity. }
    rewrite E.
    assert (P : contains "(" ("(" ++ c ++ ")") && contains ")" ("(" ++ c ++ ")")
                = true).
    { change ("(" ++ c ++ ")") with (String "(" (c ++ ")")).
      cbn [contains]. change (Ascii.eqb "(" "(") with true. cbn [orb andb].
      rewrite contains_app. cbn [contains].
      change (Ascii.eqb ")" ")") with true. now rewrite !orb_true_r. }
    rewrite P, (wrapped_becomes_negative c Co Cc), try_float.
    rewrite (float_of_string_minus c (sub_no_space s) S0).
    destruct (float_of_string c); reflexivity. }
  rewrite L. unfold clean_currency.
  destruct (blank (VStr s)) eqn:B.
  - destruct s; [|discriminate B]. vm_compute. reflexivity.
  - fold c. rewrite Co. cbn [andb]. rewrite try_float.
    destruct (float_of_string c); reflexivity.
Qed.

Lemma parentheses_negate_witness :
  clean_currency (VStr ("(" ++ "$1,200.50" ++ ")"))
  = negated (clean_currency (VStr "$1,200.50")).
Proof. apply (parentheses_negate "$1,200.50"); reflexivity. Defined.

(** X10: a text with an opening parenthesis and no closing one, or with a
    closing one and no opening one, is converted to None by the currency
    conversion. *)
Theorem stray_parenthesis_gives_none (s : string) :
  contains "(" s || contains ")" s = true ->
  contains "(" s && contains ")" s = false ->
  clean_currency (VStr s) = Ok VNone.
Proof.
  intros Any Both.
  assert (B : blank (VStr s) = false)
    by (destruct s; [discriminate Any | reflexivity]).
  unfold clean_currency. rewrite B.
  assert (Co : contains "(" (sub_comma_dollar_space s) = contains "(" s)
    by (rewrite contains_sub; apply andb_true_r).
  assert (Cc : contains ")" (sub_comma_dollar_space s) = contains ")" s)
    by (rewrite contains_sub; apply andb_true_r).
  rewrite Co, Cc, Both, try_float.
  assert (E : exists e, float_of_string (sub_comma_dollar_space s) = Raise e).
  { apply orb_prop in Any as [A|A].
    - apply (float_of_string_foreign _ "("); [now rewrite Co | reflexivity].
    - apply (float_of_string_foreign _ ")"); [now rewrite Cc | reflexivity]. }
  destruct E as [e ->]. reflexivity.
Qed.

Lemma stray_parenthesis_gives_none_witness :
  clean_currency (VStr "(1,200.50") = Ok VNone.
Proof. apply (stray_parenthesis_gives_none "(1,200.50"); reflexivity. Defined.

(** X8: the currency conversion of a text depends only on what is left of
    it without commas, dollar signs and white space: two texts that differ
    in these characters only convert alike. *)
Theorem currency_ignores_separators (s t : string) :
  sub_comma_dollar_space s = sub_comma_dollar_space t ->
  clean_currency (VStr s) = clean_currency (VStr t).
Proof.
  assert (E : forall u, sub_comma_dollar_space u = "" ->
                        clean_currency (VStr u) = Ok VNone).
  { intros u Hu. unfold clean_currency. destruct (blank (VStr u));
      [reflexivity|]. rewrite Hu. vm_compute. reflexivity. }
  intros H. destruct s as [|a s].
  - symmetry. apply E. now rewrite <- H.
  - destruct t as [|b t].
    + apply E. now rewrite H.
    + unfold clean_currency. change (blank (VStr (String a s))) with false.
      change (blank (VStr (String b t))) with false. cbv iota.
      now rewrite H.
Qed.

Lemma currency_ignores_separators_witness :
  clean_currency (VStr "$ 1,200.50") = clean_currency (VStr "1200.50").
Proof. apply (currency_ignores_separators "$ 1,200.50" "1200.50").
  reflexivity. Defined.

(** ** Dates *)

Lemma try_formats_date s l d :
  try_formats s l = Ok (VDate d) -> exists f, In f l /\ strptime s f = Ok d.
Proof.
  induction l as [|f l IH]; [discriminate|].
  rewrite try_formats_cons. destruct (strptime s f) as [d'|e] eqn:E.
  - intros H. injection H as <-. exists f. split; [left; reflexivity|exact E].
  - intros H. destruct (IH H) as [g [I G]]. exists g. split; [right|]; auto.
Qed.

(** X11: a date that the date conversion returns is a day of the calendar
    (years 1 to 9999), and its text has the form YYYY-MM-DD: four digits,
    two digits and two digits between hyphens. *)
Theorem date_result_is_calendar_day (v : value) (d : date) :
  clean_date v = Ok (VDate d) ->
  valid_date (year d) (month d) (day d) = true
  /\ exists y m dd,
       py_str (VDate d) = y ++ "-" ++ m ++ "-" ++ dd
       /\ digits_wide 4 y = true /\ digits_wide 2 m = true
       /\ digits_wide 2 dd = true.
Proof.
  intros H.
  assert (V : valid_date (year d) (month d) (day d) = true).
  { unfold clean_date in H. destruct (blank v); [discriminate H|].
    destruct v as [|s|f|n|b|d']; try discriminate H.
    apply try_formats_date in H as [f [_ F]]. exact (strptime_valid _ _ _ F). }
  split; [exact V|].
  unfold valid_date in V. rewrite !andb_true_iff, !Z.leb_le in V.
  pose proof (days_in_month_max (year d) (month d)) as M.
  destruct (zero_pad_spec 4 (year d)) as [A1 [_ L1]]; [cbn; lia|lia|].
  destruct (zero_pad_spec 2 (month d)) as [A2 [_ L2]]; [cbn; lia|lia|].
  destruct (zero_pad_spec 2 (day d)) as [A3 [_ L3]]; [cbn; lia|lia|].
  exists (zero_pad 4 (year d)), (zero_pad 2 (month d)), (zero_pad 2 (day d)).
  unfold digits_wide. rewrite A1, A2, A3, L1, L2, L3.
  refine (conj eq_refl (conj eq_refl (conj eq_refl eq_refl))).
Qed.

Lemma date_result_is_calendar_day_witness :
  valid_date (year (mkdate 2024 2 29)) (month (mkdate 2024 2 29))
    (day (mkdate 2024 2 29)) = true
  /\ exists y m dd,
       py_str (VDate (mkdate 2024 2 29)) = y ++ "-" ++ m ++ "-" ++ dd
       /\ digits_wide 4 y = true /\ digits_wide 2 m = true
       /\ digits_wide 2 dd = true.
Proof.
  apply (date_result_is_calendar_day (VStr "2/29/2024")). vm_compute.
  reflexivity.
Defined.

Lemma match_seq_sound cs s t r :
  match_seq cs s = Some (t, r) ->
  s = t ++ r /\ String.length t = List.length cs.
Proof.
  revert s t r. induction cs as [|p cs IH]; intros s t r; cbn [match_seq].
  - intros H. injection H as <- <-. split; reflexivity.
  - destruct s as [|c s']; [discriminate|]. destruct (p c); [|discriminate].
    destruct (match_seq cs s') as [[t' r']|] eqn:E; [|discriminate].
    intros H. injection H as <- <-. destruct (IH _ _ _ E) as [-> L].
    split; [reflexivity|]. cbn [String.length List.length]. now rewrite L.
Qed.

Lemma match_seq_classes (P : ascii -> bool) cs s t r :
  Forall (fun p : cls => forall c, p c = true -> P c = true) cs ->
  match_seq cs s = Some (t, r) ->
  forall c, contains c t = true -> P c = true.
Proof.
  intros F. revert s t r. induction F as [|p cs Hp F IH]; intros s t r;
    cbn [match_seq].
  - intros H. injection H as <- <-. intros c Hc. discriminate Hc.
  - destruct s as [|c s']; [discriminate|]. destruct (p c) eqn:Pc;
      [|discriminate].
    destruct (match_seq cs s') as [[t' r']|] eqn:E; [|discriminate].
    intros H. injection H as <- <-. intros x Hx. cbn [contains] in Hx.
    apply orb_prop in Hx as [Hx|Hx].
    + apply Ascii.eqb_eq in Hx. subst x. exact (Hp c Pc).
    + exact (IH _ _ _ E x Hx).
Qed.

Lemma match_items_cons i fmt s fs r :
  match_items (i :: fmt) s = Some (fs, r) ->
  exists a t r1 fs',
    In a (regex_of i) /\ match_seq a s = Some (t, r1)
    /\ match_items fmt r1 = Some (fs', r) /\ fs = (i, t) :: fs'.
Proof.
  cbn [match_items]. generalize (regex_of i) as l.
  induction l as [|a l IH]; [discriminate|].
  destruct (match_seq a s) as [[t r1]|] eqn:E.
  - destruct (match_items fmt r1) as [[fs' r']|] eqn:M.
    + intros H. injection H as <- <-. exists a, t, r1, fs'.
      split; [left; reflexivity|]. auto.
    + intros H. destruct (IH H) as [a' [t' [r1' [fs'' [I Q]]]]].
      exists a', t', r1', fs''. split; [right; exact I | exact Q].
  - intros H. destruct (IH H) as [a' [t' [r1' [fs'' [I Q]]]]].
    exists a', t', r1', fs''. split; [right; exact I | exact Q].
Qed.

Lemma one_eq x c : one x c = true -> c = x.
Proof. unfold one. intros H. apply Ascii.eqb_eq in H. now subst. Qed.

Lemma range_bounds a b c : range a b c = true -> ord a <= ord c <= ord b.
Proof. unfold range. rewrite andb_true_iff, !Z.leb_le. tauto. Qed.

Lemma range_digit a b c :
  48 <= ord a -> ord b <= 57 -> range a b c = true -> is_digit c = true.
Proof.
  intros Ha Hb H. apply range_bounds in H. unfold is_digit.
  rewrite andb_true_iff, !Z.leb_le. lia.
Qed.

Lemma month_day_classes i a :
  i = Dir_m \/ i = Dir_d -> In a (regex_of i) ->
  Forall (fun p : cls => forall c, p c = true
                                   -> is_digit c || Ascii.eqb c " " = true) a.
Proof.
  assert (R : forall a b c, 48 <= ord a -> ord b <= 57 -> range a b c = true
                            -> is_digit c || Ascii.eqb c " " = true).
  { intros x y c Hx Hy H. now rewrite (range_digit x y c Hx Hy H). }
  assert (O : forall x c, is_digit x || Ascii.eqb x " " = true ->
                          one x c = true
                          -> is_digit c || Ascii.eqb c " " = true).
  { intros x c Hx H. apply one_eq in H. now subst. }
  assert (D : forall c, is_digit c = true
                        -> is_digit c || Ascii.eqb c " " = true).
  { intros c ->. reflexivity. }
  assert (F1 : forall p : cls,
             (forall c, p c = true -> is_digit c || Ascii.eqb c " " = true) ->
             Forall (fun p : cls => forall c, p c = true
                       -> is_digit c || Ascii.eqb c " " = true) [p]).
  { intros p Hp. constructor; [exact Hp | constructor]. }
  assert (F2 : forall p q : cls,
             (forall c, p c = true -> is_digit c || Ascii.eqb c " " = true) ->
             (forall c, q c = true -> is_digit c || Ascii.eqb c " " = true) ->
             Forall (fun p : cls => forall c, p c = true
                       -> is_digit c || Ascii.eqb c " " = true) [p; q]).
  { intros p q Hp Hq. constructor; [exact Hp | exact (F1 q Hq)]. }
  assert (R1 : forall x y, (48 <=? ord x) = true -> (ord y <=? 57) = true ->
             forall c, range x y c = true
                       -> is_digit c || Ascii.eqb c " " = true).
  { intros x y Hx Hy c. apply R; lia. }
  assert (O1 : forall x, is_digit x || Ascii.eqb x " " = true ->
             forall c, one x c = true
                       -> is_digit c || Ascii.eqb c " " = true).
  { intros x Hx c. apply O. exact Hx. }
  intros [->| ->]; cbn [regex_of In]; intros H.
  - destruct H as [<-|[<-|[<-|[]]]].
    + apply F2; [apply O1 | apply R1]; reflexivity.
    + apply F2; [apply O1 | apply R1]; reflexivity.
    + apply F1, R1; reflexivity.
  - destruct H as [<-|[<-|[<-|[<-|[<-|[]]]]]].
    + apply F2; [apply O1 | apply R1]; reflexivity.
    + apply F2; [apply R1; reflexivity | exact D].
    + apply F2; [apply O1 | apply R1]; reflexivity.
    + apply F1, R1; reflexivity.
    + apply F2; [apply O1 | apply R1]; reflexivity.
Qed.

Lemma split_at_slash a a' x x' :
  contains "/" a = false -> contains "/" a' = false ->
  a ++ String "/" x = a' ++ String "/" x' -> a = a' /\ x = x'.
Proof.
  revert a'. induction a as [|c a IH]; intros [|c' a'] Ha Ha' H;
    cbn [append] in H.
  - injection H as <-. split; reflexivity.
  - injection H as <- _. cbn [contains] in Ha'.
    change (Ascii.eqb "/" "/") with true in Ha'. discriminate Ha'.
  - injection H as -> _. cbn [contains] in Ha.
    change (Ascii.eqb "/" "/") with true in Ha. discriminate Ha.
  - injection H as <- H. cbn [contains] in Ha, Ha'.
    apply orb_false_elim in Ha as [_ Ha], Ha' as [_ Ha'].
    destruct (IH a' Ha Ha' H) as [-> ->]. split; reflexivity.
Qed.

(** A month or day group and the slash after it: the text up to the first
    slash, and what follows that slash. *)
Lemma match_group_slash i fmt s fs r :
  i = Dir_m \/ i = Dir_d ->
  match_items (i :: Lit "/" :: fmt) s = Some (fs, r) ->
  exists t rest fs',
    contains "/" t = false /\ s = t ++ String "/" rest
    /\ match_items fmt rest = Some (fs', r).
Proof.
  intros Hi H.
  apply match_items_cons in H as [a [t [r1 [fs1 [Ia [Ma [H _]]]]]]].
  apply match_items_cons in H as [b [u [r2 [fs2 [Ib [Mb [H _]]]]]]].
  cbn [regex_of In] in Ib. destruct Ib as [<-|[]].
  cbn [match_seq] in Mb. destruct r1 as [|c r1']; [discriminate Mb|].
  destruct (one "/" c) eqn:Oc; [|discriminate Mb]. apply one_eq in Oc.
  subst c. injection Mb as <- <-.
  exists t, r1', fs2. split; [|split; [|exact H]].
  - destruct (contains "/" t) eqn:C; [|reflexivity].
    pose proof (match_seq_classes _ _ _ _ _ (month_day_classes i a Hi Ia) Ma
                  "/"%char C) as N.
    discriminate N.
  - exact (proj1 (match_seq_sound _ _ _ _ Ma)).
Qed.

Lemma match_last_group i s fs :
  match_items [i] s = Some (fs, "") ->
  exists a, In a (regex_of i) /\ String.length s = List.length a.
Proof.
  intros H. apply match_items_cons in H as [a [t [r1 [fs1 [Ia [Ma [H _]]]]]]].
  cbn [match_items] in H. injection H as _ ->.
  apply match_seq_sound in Ma as [-> L]. rewrite append_nil_r.
  exists a. split; assumption.
Qed.

Lemma strptime_matches s fmt d :
  strptime s fmt = Ok d -> exists fs, match_items fmt s = Some (fs, "").
Proof.
  unfold strptime. destruct (match_items fmt s) as [[fs [|c r]]|];
    try discriminate. eauto.
Qed.

Lemma slash_formats_exclusive s d1 d2 :
  strptime s fmt_mdY = Ok d1 -> strptime s fmt_mdy = Ok d2 -> False.
Proof.
  intros H1 H2.
  apply strptime_matches in H1 as [fs1 H1], H2 as [fs2 H2].
  unfold fmt_mdY in H1. unfold fmt_mdy in H2.
  apply match_group_slash in H1 as [t1 [r1 [f1 [C1 [E1 H1]]]]]; [|now left].
  apply match_group_slash in H1 as [u1 [q1 [g1 [D1 [F1 H1]]]]]; [|now right].
  apply match_group_slash in H2 as [t2 [r2 [f2 [C2 [E2 H2]]]]]; [|now left].
  apply match_group_slash in H2 as [u2 [q2 [g2 [D2 [F2 H2]]]]]; [|now right].
  subst s. destruct (split_at_slash _ _ _ _ C1 C2 E2) as [_ <-].
  subst r1. destruct (split_at_slash _ _ _ _ D1 D2 F2) as [_ <-].
  apply match_last_group in H1 as [a1 [I1 L1]], H2 as [a2 [I2 L2]].
  cbn [regex_of In] in I1, I2. destruct I1 as [<-|[]], I2 as [<-|[]].
  rewrite L1 in L2. discriminate L2.
Qed.

Lemma dash_format_excludes_slash s d1 d2 fmt :
  strptime s fmt_Ymd = Ok d1 ->
  strptime s (Dir_m :: Lit "/" :: fmt) = Ok d2 -> False.
Proof.
  intros H1 H2.
  apply strptime_matches in H1 as [fs1 H1], H2 as [fs2 H2].
  unfold fmt_Ymd in H1.
  apply match_items_cons in H1 as [a [t [r1 [f1 [Ia [Ma _]]]]]].
  cbn [regex_of In] in Ia. destruct Ia as [<-|[]].
  cbn [match_seq] in Ma.
  destruct s as [|a s]; [discriminate Ma|].
  destruct (is_digit a) eqn:Da; [|discriminate Ma].
  destruct s as [|b s]; [discriminate Ma|].
  destruct (is_digit b) eqn:Db; [|discriminate Ma].
  destruct s as [|c s]; [discriminate Ma|].
  destruct (is_digit c) eqn:Dc; [|discriminate Ma].
  rewrite (match_items_month_slash a b c s fmt Da Db Dc) in H2.
  discriminate H2.
Qed.

Lemma date_formats_agree s : formats_agree s date_formats.
Proof.
  intros f g d1 d2 If Ig Hf Hg. unfold date_formats in If, Ig.
  cbn [In] in If, Ig.
  destruct If as [<-|[<-|[<-|[]]]], Ig as [<-|[<-|[<-|[]]]];
    try congruence; exfalso.
  - exact (slash_formats_exclusive s _ _ Hf Hg).
  - exact (dash_format_excludes_slash s _ _ _ Hg Hf).
  - exact (slash_formats_exclusive s _ _ Hg Hf).
  - exact (dash_format_excludes_slash s _ _ _ Hg Hf).
  - exact (dash_format_excludes_slash s _ _ _ Hf Hg).
  - exact (dash_format_excludes_slash s _ _ _ Hf Hg).
Qed.

Lemma try_formats_permutation s l l' :
  Permutation l l' -> formats_agree s l -> try_formats s l = try_formats s l'.
Proof.
  induction 1 as [|x l l' P IH|x y l|l l' l'' P1 IH1 P2 IH2]; intros A.
  - reflexivity.
  - rewrite !try_formats_cons. destruct (strptime s x); [reflexivity|].
    apply IH. intros f g d1 d2 If Ig. apply A; right; assumption.
  - rewrite !try_formats_cons.
    destruct (strptime s x) as [dx|ex] eqn:Ex,
             (strptime s y) as [dy|ey] eqn:Ey; try reflexivity.
    f_equal. f_equal. apply (A y x); [left; reflexivity | right; left;
      reflexivity | assumption | assumption].
  - rewrite (IH1 A). apply IH2.
    intros f g d1 d2 If Ig. apply A; eapply Permutation_in;
      try apply Permutation_sym; eassumption.
Qed.

(** X12: trying the three date formats in any other order gives the same
    result for every text, no text being read by two of them. *)
Theorem date_format_order_is_irrelevant (s : string)
  (fmts : list (list item)) :
  Permutation date_formats fmts ->
  try_formats s fmts = try_formats s date_formats.
Proof.
  intros P. symmetry.
  exact (try_formats_permutation s _ _ P (date_formats_agree s)).
Qed.

Lemma date_format_order_is_irrelevant_witness :
  try_formats "3/4/21" [fmt_Ymd; fmt_mdy; fmt_mdY]
  = try_formats "3/4/21" date_formats.
Proof.
  apply (date_format_order_is_irrelevant "3/4/21").
  exact (Permutation_rev date_formats).
Defined.

Lemma two_digits_bound s t r :
  match_seq [is_digit; is_digit] s = Some (t, r) -> 0 <= group_int t <= 99.
Proof.
  cbn [match_seq]. destruct s as [|a s]; [discriminate|].
  destruct (is_digit a) eqn:Da; [|discriminate].
  destruct s as [|b s]; [discriminate|].
  destruct (is_digit b) eqn:Db; [|discriminate].
  intros H. injection H as <- _.
  rewrite group_int_digits by (cbn [all_digits]; now rewrite Da, Db).
  cbn [dnum]. apply is_digit_bounds in Da, Db. lia.
Qed.

(** X13: a text that the format month/day/two-digit-year reads is converted
    to that date, whose year lies between 1969 and 2068. *)
Theorem two_digit_year_window (s : string) (d : date) :
  strptime s fmt_mdy = Ok d ->
  clean_date (VStr s) = Ok (VDate d) /\ 1969 <= year d <= 2068.
Proof.
  intros H. split.
  - assert (B : blank (VStr s) = false)
      by (destruct s; [discriminate H | reflexivity]).
    unfold clean_date, date_formats. rewrite B, !try_formats_cons, H.
    destruct (strptime s fmt_mdY) as [d'|e] eqn:E; [|reflexivity].
    destruct (slash_formats_exclusive s _ _ E H).
  - unfold strptime in H.
    destruct (match_items fmt_mdy s) as [[fs [|x r]]|] eqn:M;
      try discriminate H.
    unfold fmt_mdy in M.
    apply match_items_cons in M as [a1 [t1 [r1 [f1 [_ [_ [M ->]]]]]]].
    apply match_items_cons in M as [a2 [t2 [r2 [f2 [_ [_ [M ->]]]]]]].
    apply match_items_cons in M as [a3 [t3 [r3 [f3 [_ [_ [M ->]]]]]]].
    apply match_items_cons in M as [a4 [t4 [r4 [f4 [_ [_ [M ->]]]]]]].
    apply match_items_cons in M as [a5 [t5 [r5 [f5 [I5 [M5 [M ->]]]]]]].
    cbn [match_items] in M. injection M as <- _.
    cbn [regex_of In] in I5. destruct I5 as [<-|[]].
    apply two_digits_bound in M5. cbn [fields] in H.
    destruct (valid_date _ _ _); [|discriminate H].
    injection H as <-. cbn [year].
    destruct (Z.leb_spec (group_int t5) 68); lia.
Qed.

Lemma two_digit_year_window_witness :
  clean_date (VStr "3/4/69") = Ok (VDate (mkdate 1969 3 4))
  /\ 1969 <= year (mkdate 1969 3 4) <= 2068.
Proof.
  apply (two_digit_year_window "3/4/69" (mkdate 1969 3 4)). vm_compute.
  reflexivity.
Defined.

(** ** The literal of a cell *)

Lemma percentage_col_not_currency col :
  in_list col percentage_cols = true -> in_list col currency_cols = false.
Proof.
  intros H. apply in_list_In in H. unfold percentage_cols in H.
  cbn [In] in H.
  repeat (destruct H as [<-|H]; [vm_compute; reflexivity|]). destruct H.
Qed.

(** X14: in a percentage column a non-empty text without a percent sign is
    written to the VALUES list as it is, without quotes and without being
    read as a number. *)
Theorem percentage_column_text_unchanged (col s : string) :
  in_list col percentage_cols = true -> s <> "" -> contains "%" s = false ->
  render_value col (VStr s) = Ok s.
Proof.
  intros P N C. unfold render_value.
  rewrite (str_not_blank s N), (percentage_col_not_currency col P), P.
  unfold clean_percentage. rewrite (str_not_blank s N), C. reflexivity.
Qed.

Lemma percentage_column_text_unchanged_witness :
  render_value "ltv_ratio" (VStr "n/a") = Ok "n/a".
Proof.
  apply (percentage_column_text_unchanged "ltv_ratio" "n/a");
    [reflexivity | discriminate | reflexivity].
Defined.

Lemma boolean_col_untyped_before col :
  in_list col boolean_cols = true ->
  in_list col currency_cols = false /\ in_list col percentage_cols = false
  /\ in_list col date_cols = false.
Proof.
  intros H. apply in_list_In in H. unfold boolean_cols in H. cbn [In] in H.
  repeat (destruct H as [<-|H]; [vm_compute; auto|]). destruct H.
Qed.

(** X15: whatever the cell holds, a boolean column receives one of the
    three words NULL, TRUE and FALSE. *)
Theorem boolean_column_literal (col : string) (v : value) :
  in_list col boolean_cols = true ->
  exists lit, render_value col v = Ok lit
              /\ (lit = "NULL" \/ lit = "TRUE" \/ lit = "FALSE").
Proof.
  intros P. destruct (boolean_col_untyped_before col P) as [C [Q D]].
  unfold render_value. rewrite C, Q, D, P.
  destruct (blank v); [eauto|].
  rewrite clean_boolean_eq. cbn [bind].
  destruct v as [|s|f|n|b|d]; eauto.
  destruct (in_list (strip (lower s)) ["yes"; "true"; "1"]);
    [exists "TRUE"; split; [vm_compute; reflexivity | auto]|].
  destruct (in_list (strip (lower s)) ["no"; "false"; "0"]);
    [exists "FALSE"; split; [vm_compute; reflexivity | auto]|].
  eauto.
Qed.

Lemma boolean_column_literal_witness :
  exists lit, render_value "ac_included" (VStr " Yes ") = Ok lit
              /\ (lit = "NULL" \/ lit = "TRUE" \/ lit = "FALSE").
Proof. apply (boolean_column_literal "ac_included"). reflexivity. Defined.

Lemma integer_col_untyped_before col :
  in_list col integer_cols = true ->
  in_list col currency_cols = false /\ in_list col percentage_cols = false
  /\ in_list col date_cols = false /\ in_list col boolean_cols = false.
Proof.
  intros H. apply in_list_In in H. unfold integer_cols in H. cbn [In] in H.
  repeat (destruct H as [<-|H]; [vm_compute; auto|]). destruct H.
Qed.

Lemma digit_text_digits n : 0 <= n -> digit_text (digits_of_Z n) = true.
Proof.
  intros H. destruct (digits_of_Z_spec n H) as [A [_ [N _]]].
  unfold digit_text. rewrite A. cbn [andb].
  destruct (String.eqb_spec (digits_of_Z n) ""); [contradiction|reflexivity].
Qed.

Lemma digit_text_no_minus s :
  digit_text s = true ->
  match s with String c _ => Ascii.eqb c "-" = false | EmptyString => False end.
Proof.
  unfold digit_text. destruct s as [|c r]; [discriminate|].
  cbn [all_digits]. intros H. apply andb_prop in H as [H _].
  apply andb_prop in H as [H _].
  destruct (Ascii.eqb_spec c "-"); [subst c; discriminate H|reflexivity].
Qed.

Lemma integer_text_repr n : integer_text (int_repr n) = true.
Proof.
  unfold int_repr. destruct (Z.ltb_spec n 0).
  - cbn [integer_text]. change (Ascii.eqb "-" "-") with true. cbv iota.
    apply digit_text_digits. lia.
  - pose proof (digit_text_digits n H) as D.
    pose proof (digit_text_no_minus _ D) as M.
    destruct (digits_of_Z n) as [|c r]; [destruct M|].
    cbn [integer_text]. rewrite M. exact D.
Qed.

(** X16: what an integer column receives is NULL or an integer literal:
    decimal digits after an optional minus sign. *)
Theorem integer_column_literal (col : string) (v : value) (lit : string) :
  in_list col integer_cols = true ->
  render_value col v = Ok lit ->
  lit = "NULL" \/ integer_text lit = true.
Proof.
  intros P. destruct (integer_col_untyped_before col P) as [C [Q [D B]]].
  unfold render_value. rewrite C, Q, D, B, P.
  destruct (blank v) eqn:Bv; [intros H; injection H as <-; auto|].
  rewrite (clean_integer_eq v Bv).
  destruct (float_of_string (py_str v)) as [f|e]; cbn [bind].
  - destruct f as [s|s| |s m e]; cbn [integer_of bind str_or_null py_str];
      intros H; try discriminate H; injection H as <-; auto;
      right; apply integer_text_repr.
  - intros H. injection H as <-. auto.
Qed.

Lemma integer_column_literal_witness :
  "12" = "NULL" \/ integer_text "12" = true.
Proof.
  apply (integer_column_literal "units" (VStr "12.9") "12"); reflexivity.
Defined.

Lemma date_col_untyped_before col :
  in_list col date_cols = true ->
  in_list col currency_cols = false /\ in_list col percentage_cols = false.
Proof.
  intros H. apply in_list_In in H. unfold date_cols in H. cbn [In] in H.
  repeat (destruct H as [<-|H]; [vm_compute; auto|]). destruct H.
Qed.

Lemma clean_date_result v :
  clean_date v = Ok VNone
  \/ exists d, clean_date v = Ok (VDate d)
                /\ valid_date (year d) (month d) (day d) = true.
Proof.
  destruct (other_conversions_return v) as [_ [_ [[r R] _]]].
  destruct r as [|s|f|n|b|d]; [left; exact R| | | | |];
    try (exfalso; unfold clean_date in R; destruct (blank v);
         [discriminate R|]; destruct v as [|s'|f'|n'|b'|d'];
         try discriminate R; revert R; generalize date_formats as l;
         induction l as [|fmt l IH]; [discriminate|];
         rewrite try_formats_cons; destruct (strptime s' fmt);
         [discriminate | exact IH]).
  right. exists d. split; [exact R|].
  unfold clean_date in R. destruct (blank v); [discriminate R|].
  destruct v as [|s'|f'|n'|b'|d']; try discriminate R.
  apply try_formats_date in R as [f [_ F]]. exact (strptime_valid _ _ _ F).
Qed.

(** X27: whatever the cell holds, a date column receives NULL or, between
    quotes, the ISO text of the day of the calendar that the date conversion
    returned. *)
Theorem date_column_literal (col : string) (v : value) :
  in_list col date_cols = true ->
  exists lit,
    render_value col v = Ok lit
    /\ (lit = "NULL"
        \/ exists d, clean_date v = Ok (VDate d)
                     /\ valid_date (year d) (month d) (day d) = true
                     /\ lit = quote (isoformat d)).
Proof.
  intros P. destruct (date_col_untyped_before col P) as [C Q].
  unfold render_value. rewrite C, Q, P.
  destruct (blank v); [eauto|].
  destruct (clean_date_result v) as [E|[d [E V]]]; rewrite E; cbn [bind].
  - eauto.
  - exists (quote (isoformat d)). split; [reflexivity|]. right.
    exists d. auto.
Qed.

Lemma date_column_literal_witness :
  exists lit,
    render_value "maturity_date" (VStr "12/31/2030") = Ok lit
    /\ (lit = "NULL"
        \/ exists d, clean_date (VStr "12/31/2030") = Ok (VDate d)
                     /\ valid_date (year d) (month d) (day d) = true
                     /\ lit = quote (isoformat d)).
Proof. apply (date_column_literal "maturity_date"). reflexivity. Defined.

Lemma replace_quote_injective a b :
  replace "'" "''" a = replace "'" "''" b -> a = b.
Proof.
  revert b. induction a as [|c a IH]; intros [|d b]; cbn [replace].
  - reflexivity.
  - destruct (Ascii.eqb d "'"); discriminate.
  - destruct (Ascii.eqb c "'"); discriminate.
  - destruct (Ascii.eqb_spec c "'") as [->|Nc],
             (Ascii.eqb_spec d "'") as [->|Nd]; cbn [append].
    + intros H. injection H as H. now rewrite (IH b H).
    + intros H. injection H as H _. congruence.
    + intros H. injection H as H _. congruence.
    + intros H. injection H as -> H. now rewrite (IH b H).
Qed.

Lemma replace_quotes_paired a : quotes_paired (replace "'" "''" a) = true.
Proof.
  induction a as [|c a IH]; [reflexivity|]. cbn [replace].
  destruct (Ascii.eqb c "'") eqn:E.
  - cbn [append quotes_paired]. change (Ascii.eqb "'" "'") with true.
    exact IH.
  - cbn [quotes_paired]. now rewrite E.
Qed.

Lemma in_list_app x l l' : in_list x (l ++ l') = in_list x l || in_list x l'.
Proof. unfold in_list. apply existsb_app. Qed.

Lemma text_literal col v :
  in_list col typed_cols = false -> blank v = false ->
  render_value col v = Ok (quote (replace "'" "''" (py_str v))).
Proof.
  unfold typed_cols. do 5 rewrite in_list_app. intros T B.
  apply orb_false_elim in T as [T1 T]. apply orb_false_elim in T as [T2 T].
  apply orb_false_elim in T as [T3 T]. apply orb_false_elim in T as [T4 T].
  apply orb_false_elim in T as [T5 T6].
  unfold render_value. rewrite B, T1, T2, T3, T4, T5, T6. reflexivity.
Qed.

(** X17: in a text column two cells that are neither missing nor empty get
    the same literal only when they have the same text: doubling the quotes
    loses nothing. *)
Theorem text_literals_distinct (col : string) (v v' : value) :
  in_list col typed_cols = false -> blank v = false -> blank v' = false ->
  render_value col v = render_value col v' ->
  py_str v = py_str v'.
Proof.
  intros T B B'. rewrite (text_literal col v T B), (text_literal col v' T B').
  intros H. apply replace_quote_injective.
  apply (f_equal (fun r => match r with Ok x => unquote x | Raise _ => "" end))
    in H.
  cbv beta iota in H. now rewrite !unquote_quote in H.
Qed.

Lemma text_literals_distinct_witness :
  py_str (VStr "1 O'Hara St") = py_str (VStr "1 O'Hara St").
Proof.
  apply (text_literals_distinct "address" (VStr "1 O'Hara St")
           (VStr "1 O'Hara St")); reflexivity.
Defined.

(** X18: the literal of a text column is the text between two quotes with
    every quote of the text doubled, so that no quote inside the literal
    stands alone. *)
Theorem text_literal_quotes_paired (col : string) (v : value) :
  in_list col typed_cols = false -> blank v = false ->
  exists body, render_value col v = Ok (quote body)
               /\ quotes_paired body = true
               /\ body = replace "'" "''" (py_str v).
Proof.
  intros T B. exists (replace "'" "''" (py_str v)).
  split; [exact (text_literal col v T B)|].
  split; [apply replace_quotes_paired | reflexivity].
Qed.

Lemma text_literal_quotes_paired_witness :
  exists body, render_value "address" (VStr "1 O'Hara St") = Ok (quote body)
               /\ quotes_paired body = true
               /\ body = replace "'" "''" (py_str (VStr "1 O'Hara St")).
Proof.
  apply (text_literal_quotes_paired "address" (VStr "1 O'Hara St"));
    reflexivity.
Defined.

(** ** The statements of a run *)

Lemma Forall2_nth {A B} (R : A -> B -> Prop) l v e :
  Forall2 R l v -> In e l ->
  exists i x, nth_error l i = Some e /\ nth_error v i = Some x /\ R e x.
Proof.
  induction 1 as [|a b l v Hab F IH]; intros I; [destruct I|].
  destruct I as [->|I].
  - exists 0%nat, b. auto.
  - destruct (IH I) as [i [x Q]]. exists (S i), x. exact Q.
Qed.

Lemma key_is_text : in_list "asset_id" typed_cols = false.
Proof. vm_compute. reflexivity. Qed.

Lemma key_entry_mapped : In ("Asset ID", "asset_id") column_mapping.
Proof. unfold column_mapping. right. left. reflexivity. Qed.

(** X19: every INSERT statement names the column [asset_id], and the value
    at the same position is the quoted text of the key of a row of the
    frame, which is neither missing nor empty: never NULL. *)
Theorem insert_has_quoted_key (df : frame) (c v : list string) :
  In (WInsert c v) (fst (generate df)) ->
  exists (i : nat) (row : list value),
    In row (rows df)
    /\ blank (cell (columns df) row "Asset ID") = false
    /\ nth_error c i = Some "asset_id"
    /\ nth_error v i
       = Some (quote (replace "'" "''"
                        (py_str (cell (columns df) row "Asset ID")))).
Proof.
  intros H.
  assert (HA : in_list "Asset ID" (columns df) = true).
  { unfold generate in H. destruct (in_list "Asset ID" (columns df));
      [reflexivity | destruct H]. }
  apply generate_insert in H.
  pose proof (write_rows_insert _ _ _ _ H) as [row [I [K L]]].
  rewrite clean_rows_keyed in I. apply filter_In in I as [I _].
  unfold has_key in K. apply negb_true_iff in K.
  apply row_lists_spec in L as [-> F].
  assert (P : In ("Asset ID", "asset_id")
                (filter (present (columns df)) column_mapping)).
  { apply filter_In. split; [exact key_entry_mapped | exact HA]. }
  destruct (Forall2_nth _ _ _ _ F P) as [i [x [N [Nv R]]]].
  cbn [fst snd] in R. rewrite (text_literal _ _ key_is_text K) in R.
  injection R as <-.
  exists i, row. refine (conj I (conj K (conj _ Nv))).
  rewrite nth_error_map, N. reflexivity.
Qed.

Lemma insert_has_quoted_key_witness :
  exists (i : nat) (row : list value),
    In row (rows three_rows)
    /\ blank (cell (columns three_rows) row "Asset ID") = false
    /\ nth_error ["asset_id"; "city"; "units"] i = Some "asset_id"
    /\ nth_error ["'A1'"; "'Hartford'"; "4"] i
       = Some (quote (replace "'" "''"
                        (py_str (cell (columns three_rows) row "Asset ID")))).
Proof.
  apply (insert_has_quoted_key three_rows). vm_compute. right. left.
  reflexivity.
Defined.

Lemma distinctb_NoDup l : distinctb l = true -> NoDup l.
Proof.
  induction l as [|x r IH]; cbn [distinctb]; [constructor|].
  intros H. apply andb_prop in H as [H1 H2]. constructor; [|auto].
  apply negb_true_iff in H1. now apply in_list_not_In.
Qed.

Lemma NoDup_map_filter {A B} (f : A -> B) (p : A -> bool) l :
  NoDup (map f l) -> NoDup (map f (filter p l)).
Proof.
  induction l as [|x r IH]; cbn [map filter]; [auto|].
  intros H. inversion H as [|? ? N D]; subst.
  destruct (p x); [|auto]. cbn [map]. constructor; [|auto].
  intros I. apply N. apply in_map_iff in I as [y [E Iy]].
  apply filter_In in Iy as [Iy _]. apply in_map_iff. eauto.
Qed.

Lemma destination_names_distinct :
  distinctb (map snd column_mapping) = true.
Proof. vm_compute. reflexivity. Qed.

(** X20: no INSERT statement names a column twice. *)
Theorem insert_columns_distinct (df : frame) (c v : list string) :
  In (WInsert c v) (fst (generate df)) -> NoDup c.
Proof.
  intros H. apply generate_insert, write_rows_insert in H.
  destruct H as [r [_ [_ L]]]. apply row_lists_spec in L as [-> _].
  apply NoDup_map_filter, distinctb_NoDup, destination_names_distinct.
Qed.

Lemma insert_columns_distinct_witness :
  NoDup ["asset_id"; "city"; "units"].
Proof.
  apply (insert_columns_distinct three_rows _ ["'A1'"; "'Hartford'"; "4"]).
  vm_compute. right. left. reflexivity.
Defined.

Lemma present_same_labels cols cols' :
  (forall x, In x cols <-> In x cols') ->
  forall l : list (string * string),
    filter (present cols) l = filter (present cols') l.
Proof.
  intros H l. apply filter_ext. intros e. unfold present.
  destruct (in_list (fst e) cols') eqn:E.
  - apply in_list_In. apply H. now apply in_list_In.
  - apply in_list_not_In. intros I. apply H in I.
    apply in_list_In in I. congruence.
Qed.

(** X21: the column list of an INSERT statement depends only on which
    labels the frame has: statements of frames with the same labels, in
    whatever order and for whatever rows, have the same column list. *)
Theorem insert_columns_follow_labels (df df' : frame)
  (c v c' v' : list string) :
  (forall x, In x (columns df) <-> In x (columns df')) ->
  In (WInsert c v) (fst (generate df)) ->
  In (WInsert c' v') (fst (generate df')) ->
  c = c'.
Proof.
  intros S H H'.
  apply generate_insert, write_rows_insert in H, H'.
  destruct H as [r [_ [_ L]]], H' as [r' [_ [_ L']]].
  apply row_lists_spec in L as [-> _], L' as [-> _].
  now rewrite (present_same_labels _ _ S).
Qed.

Lemma insert_columns_follow_labels_witness :
  ["asset_id"; "city"; "units"] = ["asset_id"; "city"; "units"].
Proof.
  apply (insert_columns_follow_labels three_rows three_rows_reordered
           _ ["'A1'"; "'Hartford'"; "4"] _ ["'A3'"; "NULL"; "6"]).
  - intros x. cbn [columns three_rows three_rows_reordered In]. tauto.
  - vm_compute. right. left. reflexivity.
  - vm_compute. right. right. left. reflexivity.
Defined.

(** X22: the two filters before the loop keep exactly the rows with a key,
    so dropping the rows that are all missing changes nothing, and the loop
    never meets a row that its own test on the key skips. *)
Theorem key_filter_suffices (df : frame) :
  clean_rows df = filter (has_key (columns df)) (rows df)
  /\ forall row, In row (clean_rows df) ->
       has_key (columns df) row = true
       /\ row_statement (columns df) row
          = (let* cv := row_lists (columns df) row column_mapping in
             match fst cv with
             | [] => Ok []
             | _ => Ok [WInsert (fst cv) (snd cv)]
             end).
Proof.
  split; [apply clean_rows_keyed|].
  intros row I. rewrite clean_rows_keyed in I. apply filter_In in I as [_ K].
  split; [exact K|]. unfold row_statement. rewrite K. reflexivity.
Qed.

(** X23: the loop over the rows composes: the rows of a frame followed by
    further rows give the statements of the first rows followed by those of
    the further rows, unless an exception ended the first rows, which then
    ends the whole loop with nothing written for the further rows. *)
Theorem rows_are_written_in_turn (cols : list string)
  (rs rs' : list (list value)) :
  write_rows cols (rs ++ rs')
  = match write_rows cols rs with
    | (out, Some e) => (out, Some e)
    | (out, None) =>
        let '(out', st) := write_rows cols rs' in ((out ++ out')%list, st)
    end.
Proof.
  induction rs as [|r rs IH]; cbn [app write_rows].
  - destruct (write_rows cols rs'); reflexivity.
  - destruct (row_statement cols r) as [ws|e]; [|reflexivity].
    rewrite IH. destruct (write_rows cols rs) as [o [e|]].
    + reflexivity.
    + destruct (write_rows cols rs') as [o' st]. now rewrite app_assoc.
Qed.

(** X24: a run on a frame with the column [Asset ID] that no exception ends
    writes the heading, then one INSERT statement for each row with a key,
    then the closing comment and the UPDATE statement. *)
Theorem complete_run (df : frame) (out : list written) :
  in_list "Asset ID" (columns df) = true ->
  generate df = (out, None) ->
  exists stmts,
    out = (WText header_text :: stmts
             ++ [WText trailer_comment; WText update_statement])%list
    /\ forallb is_insert stmts = true
    /\ List.length stmts
       = List.length (filter (has_key (columns df)) (rows df)).
Proof. exact (generate_complete df out). Qed.

Lemma complete_run_witness :
  exists stmts,
    fst (generate three_rows)
    = (WText header_text :: stmts
         ++ [WText trailer_comment; WText update_statement])%list
    /\ forallb is_insert stmts = true
    /\ List.length stmts
       = List.length (filter (has_key (columns three_rows)) (rows three_rows)).
Proof.
  apply (complete_run three_rows (fst (generate three_rows))).
  - reflexivity.
  - vm_compute. reflexivity.
Defined.

(** ** A run that an exception ends *)






Lemma write_rows_stopped cols rs out e :
  in_list "Asset ID" cols = true ->
  write_rows cols rs = (out, Some e) ->
  forallb is_insert out = true
  /\ (List.length out < List.length (filter (has_key cols) rs))%nat.
Proof.
  intros HA. revert out. induction rs as [|r rs IH]; intros out;
    cbn [write_rows filter]; [discriminate|].
  pose proof (row_statement_cases cols r HA) as C.
  destruct (row_statement cols r) as [ws|x].
  - destruct (write_rows cols rs) as [o st]. intros H. injection H as <- ->.
    destruct (IH o eq_refl) as [F N].
    destruct (has_key cols r).
    + destruct C as [c [v ->]]. cbn [app forallb is_insert List.length].
      split; [exact F | lia].
    + subst ws. split; assumption.
  - destruct C as [K _]. rewrite K. intros H. injection H as <- _.
    split; [reflexivity | cbn [List.length]; lia].
Qed.

(** X26: a run that [OverflowError] ends has written the heading and INSERT
    statements only, fewer than there are rows with a key; the closing
    comment and the UPDATE statement are missing. *)
Theorem stopped_run_is_partial (df : frame) (out : list written) :
  generate df = (out, Some OverflowError) ->
  exists stmts,
    out = WText header_text :: stmts
    /\ forallb is_insert stmts = true
    /\ (List.length stmts
        < List.length (filter (has_key (columns df)) (rows df)))%nat.
Proof.
  unfold generate. destruct (in_list "Asset ID" (columns df)) eqn:HA;
    cbn [negb]; [|discriminate].
  destruct (write_rows (columns df) (clean_rows df)) as [o [x|]] eqn:W;
    [|discriminate].
  intros H. injection H as <- _. exists o. split; [reflexivity|].
  rewrite clean_rows_keyed in W.
  destruct (write_rows_stopped _ _ _ _ HA W) as [F N]. split; [exact F|].
  revert N. clear. generalize (List.length o) as k.
  induction (rows df) as [|r rs IH]; intros k; [auto|].
  cbn [filter]. destruct (has_key (columns df) r) eqn:K; cbn [filter].
  - rewrite K. cbn [List.length]. destruct k as [|k]; [lia|].
    intros N. apply -> Nat.succ_lt_mono. apply IH. lia.
  - apply IH.
Qed.

Lemma stopped_run_is_partial_witness :
  exists stmts,
    fst (generate overflow_rows) = WText header_text :: stmts
    /\ forallb is_insert stmts = true
    /\ (List.length stmts
        < List.length (filter (has_key (columns overflow_rows))
                         (rows overflow_rows)))%nat.
Proof.
  apply (stopped_run_is_partial overflow_rows). vm_compute. reflexivity.
Defined.
